(** * GeminiBot: session state and resource lifecycle

    A shallow embedding of the conversational front-end found in
    [main.py] and [database.py]:

    - [Json]     the part of Python's [json.dumps] / [json.loads] that the
                 history store relies on;
    - [Db]       the SQLite-backed history store and policy table of
                 [database.py];
    - [Bot]      the cooldown map and the handlers of [main.py] for the
                 settings menu, the random fact, text, voice messages and
                 video notes, written in a small state-and-exception
                 monad; [LimiterSpec] is the limiter as the
                 specification words it, kept for comparison;
    - [Long]     the cutting of a long answer into messages;
    - [Front]    the commands, the inline buttons of the settings menu,
                 photos and plain videos;
    - [Examples], [Scenarios]
                 a few concrete histories, environments and updates.

    Definitions come first; the lemmas and theorems follow. *)

From Stdlib Require Import ZArith QArith List Ascii String Lia.
From stdpp Require Import base gmap list strings.

Local Open Scope Z_scope.

(** ** Python's [json] codec, as used by [database.py]

    [add_message_to_history] stores [json.dumps(parts)] and [get_history]
    reads it back with [json.loads].  Both are called with their default
    arguments, so the encoder escapes everything outside printable ASCII
    ([ensure_ascii=True]) and separates items with [", "] and [": "].

    Python values are restricted to what JSON represents natively:
    [None], booleans, integers, strings, lists and string-keyed
    dictionaries.  Floating-point numbers are left out.  A Python [str] is
    a sequence of code points; a dictionary is kept as the list of its
    items in insertion order.  The serialised text only ever holds ASCII
    characters and is a [list ascii]. *)

Module Json.

Definition pystr := list Z.

#[local] Set Warnings "-register-all".

Inductive value : Type :=
| PyNone
| PyBool (b : bool)
| PyInt (n : Z)
| PyStr (s : pystr)
| PyList (l : list value)
| PyDict (d : list (pystr * value)).

Definition text := list ascii.

Definition chr (n : Z) : ascii := ascii_of_N (Z.to_N n).
Definition ord (c : ascii) : Z := Z.of_N (N_of_ascii c).

Definition quote : ascii := Eval cbv in chr 34.
Definition backslash : ascii := Eval cbv in chr 92.

(** [str "abc"] is the Python string with the code points of an ASCII
    literal. *)
Definition str (s : string) : pystr := map ord (list_ascii_of_string s).
Definition lit (s : string) : text := list_ascii_of_string s.

(** *** Encoder: [json.encoder.py_encode_basestring_ascii] and friends *)

Definition hexdigit (d : Z) : ascii :=
  if d <? 10 then chr (48 + d) else chr (87 + d).

(** ['{0:04x}'.format(n)] *)
Definition hex4 (n : Z) : text :=
  [hexdigit (n / 4096 mod 16); hexdigit (n / 256 mod 16);
   hexdigit (n / 16 mod 16); hexdigit (n mod 16)].

Definition u_escape (n : Z) : text := backslash :: "u"%char :: hex4 n.

(** The [replace] callback of [ESCAPE_ASCII.sub]: a character in
    [' '..'~'] other than the quote and the backslash is copied, the
    others are escaped; a code point above the BMP becomes a surrogate
    pair. *)
Definition encode_char (c : Z) : text :=
  if c =? 92 then [backslash; backslash]
  else if c =? 34 then [backslash; quote]
  else if c =? 8 then [backslash; "b"%char]
  else if c =? 12 then [backslash; "f"%char]
  else if c =? 10 then [backslash; "n"%char]
  else if c =? 13 then [backslash; "r"%char]
  else if c =? 9 then [backslash; "t"%char]
  else if (32 <=? c) && (c <=? 126) then [chr c]
  else if c <? 65536 then u_escape c
  else
    let n := c - 65536 in
    let s1 := Z.lor 55296 (Z.land (Z.shiftr n 10) 1023) in
    let s2 := Z.lor 56320 (Z.land n 1023) in
    u_escape s1 ++ u_escape s2.

Definition encode_chars (s : pystr) : text := concat (map encode_char s).

Definition encode_str (s : pystr) : text :=
  quote :: encode_chars s ++ [quote].

Definition digit_char (d : Z) : ascii := chr (48 + d).

(** Decimal digits of a non-negative integer, most significant first. *)
Fixpoint to_digits (fuel : nat) (n : Z) (acc : text) : text :=
  match fuel with
  | O => acc
  | S f =>
      let acc' := digit_char (n mod 10) :: acc in
      if n <? 10 then acc' else to_digits f (n / 10) acc'
  end.

Definition decimal (n : Z) : text :=
  to_digits (S (Z.to_nat (Z.log2 n))) n [].

(** [int.__repr__] *)
Definition encode_int (n : Z) : text :=
  if n <? 0 then "-"%char :: decimal (- n) else decimal n.

(** [sep.join(items)] *)
Fixpoint join (sep : text) (items : list text) : text :=
  match items with
  | [] => []
  | [x] => x
  | x :: rest => x ++ sep ++ join sep rest
  end.

Definition item_separator : text := lit ", ".
Definition key_separator : text := lit ": ".

(** [json.dumps] on a value within the limits of the codec, which
    [within_limits] below states: a longer integer or a deeper nesting
    makes [json.dumps] raise. *)
Fixpoint dumps (v : value) : text :=
  match v with
  | PyNone => lit "null"
  | PyBool true => lit "true"
  | PyBool false => lit "false"
  | PyInt n => encode_int n
  | PyStr s => encode_str s
  | PyList l => "["%char :: join item_separator (map dumps l) ++ ["]"%char]
  | PyDict d =>
      "{"%char ::
        join item_separator
          (map (fun kv => encode_str (fst kv) ++ key_separator ++ dumps (snd kv)) d)
        ++ ["}"%char]
  end.

(** *** Decoder: [json.decoder] and [json.scanner] *)

Definition is_ws (c : ascii) : bool :=
  Ascii.eqb c " " || Ascii.eqb c (chr 9) || Ascii.eqb c (chr 10) || Ascii.eqb c (chr 13).

(** [WHITESPACE.match(s, end).end()] *)
Fixpoint skip_ws (s : text) : text :=
  match s with
  | c :: s' => if is_ws c then skip_ws s' else s
  | [] => []
  end.

Definition unhex (c : ascii) : option Z :=
  let n := ord c in
  if (48 <=? n) && (n <=? 57) then Some (n - 48)
  else if (97 <=? n) && (n <=? 102) then Some (n - 87)
  else if (65 <=? n) && (n <=? 70) then Some (n - 55)
  else None.

(** [_decode_uXXXX]: four hexadecimal digits. *)
Definition decode_uXXXX (a b c d : ascii) : option Z :=
  x1 ← unhex a; x2 ← unhex b; x3 ← unhex c; x4 ← unhex d;
  Some (((x1 * 16 + x2) * 16 + x3) * 16 + x4).

(** The [BACKSLASH] table. *)
Definition backslash_table (c : ascii) : option Z :=
  if Ascii.eqb c quote then Some 34
  else if Ascii.eqb c backslash then Some 92
  else if Ascii.eqb c "/" then Some 47
  else if Ascii.eqb c "b" then Some 8
  else if Ascii.eqb c "f" then Some 12
  else if Ascii.eqb c "n" then Some 10
  else if Ascii.eqb c "r" then Some 13
  else if Ascii.eqb c "t" then Some 9
  else None.

Definition is_high_surrogate (n : Z) : bool := (55296 <=? n) && (n <=? 56319).
Definition is_low_surrogate (n : Z) : bool := (56320 <=? n) && (n <=? 57343).

(** [py_scanstring] with [strict=True], entered after the opening quote.
    A high surrogate escape directly followed by a low surrogate escape
    is read as one code point. *)
Fixpoint scanstring (s : text) : option (pystr * text) :=
  match s with
  | [] => None
  | c :: s1 =>
      if Ascii.eqb c quote then Some ([], s1)
      else if Ascii.eqb c backslash then
        match s1 with
        | [] => None
        | e :: s2 =>
            if Ascii.eqb e "u" then
              match s2 with
              | h1 :: h2 :: h3 :: h4 :: s3 =>
                  uni ← decode_uXXXX h1 h2 h3 h4;
                  let single := '(r, s') ← scanstring s3; Some (uni :: r, s') in
                  if is_high_surrogate uni then
                    match s3 with
                    | b :: u :: l1 :: l2 :: l3 :: l4 :: s4 =>
                        if Ascii.eqb b backslash && Ascii.eqb u "u" then
                          uni2 ← decode_uXXXX l1 l2 l3 l4;
                          if is_low_surrogate uni2 then
                            '(r, s') ← scanstring s4;
                            Some (65536 + Z.lor (Z.shiftl (uni - 55296) 10) (uni2 - 56320) :: r, s')
                          else single
                        else single
                    | _ => single
                    end
                  else single
              | _ => None
              end
            else
              cp ← backslash_table e;
              '(r, s') ← scanstring s2;
              Some (cp :: r, s')
        end
      else if ord c <? 32 then None
      else '(r, s') ← scanstring s1; Some (ord c :: r, s')
  end.

Definition is_digit (c : ascii) : bool := (48 <=? ord c) && (ord c <=? 57).

Fixpoint scan_digits (acc : Z) (s : text) : Z * text :=
  match s with
  | c :: s' => if is_digit c then scan_digits (10 * acc + (ord c - 48)) s' else (acc, s)
  | [] => (acc, [])
  end.

(** The integer part of [NUMBER_RE]: a single zero, or a non-zero digit
    followed by any digits. *)
Definition scan_int (s : text) : option (Z * text) :=
  match s with
  | c :: s' =>
      if Ascii.eqb c "0" then Some (0, s')
      else if is_digit c then Some (scan_digits 0 s)
      else None
  | [] => None
  end.

Definition starts_fraction (s : text) : bool :=
  match s with
  | c :: _ => Ascii.eqb c "." || Ascii.eqb c "e" || Ascii.eqb c "E"
  | [] => false
  end.

(** A number with a fraction or an exponent is a float and falls outside
    the modelled values: the decoder gives up on it. *)
Definition scan_number (s : text) : option (value * text) :=
  let '(neg, s1) :=
    match s with
    | c :: s' => if Ascii.eqb c "-" then (true, s') else (false, s)
    | [] => (false, s)
    end in
  '(n, rest) ← scan_int s1;
  if starts_fraction rest then None
  else Some (PyInt (if neg then - n else n), rest).

(** [s[idx:idx+len(w)] == w] *)
Fixpoint expect (w : text) (s : text) : option text :=
  match w, s with
  | [], _ => Some s
  | a :: w', b :: s' => if Ascii.eqb a b then expect w' s' else None
  | _ :: _, [] => None
  end.

(** [d[k] = v] on a dictionary kept in insertion order. *)
Fixpoint dict_set (k : pystr) (v : value) (d : list (pystr * value)) : list (pystr * value) :=
  match d with
  | [] => [(k, v)]
  | (k', v') :: d' =>
      if decide (k = k') then (k, v) :: d' else (k', v') :: dict_set k v d'
  end.

(** [dict(pairs)] *)
Definition dict (pairs : list (pystr * value)) : list (pystr * value) :=
  fold_left (fun d kv => dict_set (fst kv) (snd kv) d) pairs [].

(** [_scan_once], [JSONArray] and [JSONObject].  The recursion follows the
    nesting of the text; [fuel] bounds it, and [loads] supplies the length
    of the text. *)
Fixpoint scan_once (fuel : nat) (s : text) {struct fuel} : option (value * text) :=
  match fuel with
  | O => None
  | S f =>
      match s with
      | [] => None
      | c :: s1 =>
          if Ascii.eqb c quote then
            '(r, s') ← scanstring s1; Some (PyStr r, s')
          else if Ascii.eqb c "{" then
            match skip_ws s1 with
            | c2 :: s2 =>
                if Ascii.eqb c2 "}" then Some (PyDict [], s2)
                else if Ascii.eqb c2 quote then
                  '(ps, s') ← scan_members f s2; Some (PyDict (dict ps), s')
                else None
            | [] => None
            end
          else if Ascii.eqb c "[" then
            match skip_ws s1 with
            | c2 :: s2 =>
                if Ascii.eqb c2 "]" then Some (PyList [], s2)
                else '(vs, s') ← scan_elems f (c2 :: s2); Some (PyList vs, s')
            | [] => None
            end
          else if Ascii.eqb c "n" then s' ← expect (lit "ull") s1; Some (PyNone, s')
          else if Ascii.eqb c "t" then s' ← expect (lit "rue") s1; Some (PyBool true, s')
          else if Ascii.eqb c "f" then s' ← expect (lit "alse") s1; Some (PyBool false, s')
          else scan_number s
      end
  end
with scan_elems (fuel : nat) (s : text) {struct fuel} : option (list value * text) :=
  match fuel with
  | O => None
  | S f =>
      '(v, s1) ← scan_once f s;
      match skip_ws s1 with
      | c :: s2 =>
          if Ascii.eqb c "]" then Some ([v], s2)
          else if Ascii.eqb c "," then
            '(vs, s') ← scan_elems f (skip_ws s2); Some (v :: vs, s')
          else None
      | [] => None
      end
  end
with scan_members (fuel : nat) (s : text) {struct fuel} : option (list (pystr * value) * text) :=
  match fuel with
  | O => None
  | S f =>
      '(k, s1) ← scanstring s;
      match skip_ws s1 with
      | c :: s2 =>
          if Ascii.eqb c ":" then
            '(v, s3) ← scan_once f (skip_ws s2);
            match skip_ws s3 with
            | c4 :: s4 =>
                if Ascii.eqb c4 "}" then Some ([(k, v)], s4)
                else if Ascii.eqb c4 "," then
                  match skip_ws s4 with
                  | c5 :: s5 =>
                      if Ascii.eqb c5 quote then
                        '(ps, s') ← scan_members f s5; Some ((k, v) :: ps, s')
                      else None
                  | [] => None
                  end
                else None
            | [] => None
            end
          else None
      | [] => None
      end
  end.

(** [json.loads]: one value, surrounded by optional whitespace, and
    nothing else.  [None] stands for the [JSONDecodeError], and is also
    the answer to a text that holds a floating-point number, which
    [json.loads] reads and the modelled values cannot hold. *)
Definition loads (s : text) : option value :=
  '(v, rest) ← scan_once (S (length s)) (skip_ws s);
  match skip_ws rest with
  | [] => Some v
  | _ :: _ => None
  end.

(** *** The values the codec returns unchanged

    Code points are Unicode scalar values (no surrogates), and a
    dictionary has each key once. *)
Definition scalar_value (c : Z) : bool :=
  (0 <=? c) && (c <? 1114112) && negb ((55296 <=? c) && (c <=? 57343)).

Definition text_ok (s : pystr) : bool := forallb scalar_value s.

Fixpoint distinct (ks : list pystr) : bool :=
  match ks with
  | [] => true
  | k :: ks' => negb (bool_decide (k ∈ ks')) && distinct ks'
  end.

Fixpoint json_native (v : value) : bool :=
  match v with
  | PyNone | PyBool _ | PyInt _ => true
  | PyStr s => text_ok s
  | PyList l => forallb json_native l
  | PyDict d =>
      distinct (map fst d)
      && forallb (fun kv => text_ok (fst kv) && json_native (snd kv)) d
  end.


(** Number of nodes; bounds the fuel the decoder needs. *)
Fixpoint size (v : value) : nat :=
  match v with
  | PyList l => S (fold_right (fun x n => S (size x + n)%nat) O l)
  | PyDict d => S (fold_right (fun kv n => S (size (snd kv) + n)%nat) O d)
  | _ => 1%nat
  end.

Definition elems_size (l : list value) : nat :=
  fold_right (fun x n => S (size x + n)%nat) O l.

Definition members_size (d : list (pystr * value)) : nat :=
  fold_right (fun kv n => S (size (snd kv) + n)%nat) O d.

Definition member_ok (kv : pystr * value) : bool :=
  text_ok (fst kv) && json_native (snd kv).

(** *** Notions used to state the round trip *)

(** Prepend a code point to the outcome of [scanstring]. *)
Definition then_cons (c : Z) (o : option (pystr * text)) : option (pystr * text) :=
  '(r, s') ← o; Some (c :: r, s').

(** The text that follows a number must not continue it. *)
Definition number_end (rest : text) : bool :=
  match rest with
  | [] => true
  | c :: _ => negb (is_digit c) && negb (starts_fraction rest)
  end.

(** The items of a list between the brackets. *)
Definition elems_text (l : list value) : text :=
  join item_separator (map dumps l).

Definition member_text (kv : pystr * value) : text :=
  encode_str (fst kv) ++ key_separator ++ dumps (snd kv).

(** The members of a dictionary after the opening quote of the first
    key. *)
Fixpoint members_tail (k : pystr) (v : value) (d : list (pystr * value)) : text :=
  encode_chars k ++ quote :: key_separator ++ dumps v ++
  match d with
  | [] => []
  | kv :: d' => item_separator ++ quote :: members_tail (fst kv) (snd kv) d'
  end.

(** *** The limits of the codec

    [json.dumps] writes an integer with [int.__repr__] and [json.loads]
    reads one with [int]; both raise [ValueError] on an integer of more
    than 4300 digits.  Encoder and decoder recurse once for every level
    of lists and dictionaries and raise [RecursionError] where the
    interpreter's limit on its call stack is met: 1000 frames unless
    changed, the frames of the caller included.  [dumps] and [loads] are
    the codec for the values within these limits, for which a hundred
    levels stand. *)
Definition MAX_DIGITS : Z := 4300.
Definition MAX_DEPTH : nat := 100.

Definition int_fits (n : Z) : bool := Z.abs n <? 10 ^ MAX_DIGITS.

Fixpoint ints_fit (v : value) : bool :=
  match v with
  | PyInt n => int_fits n
  | PyList l => forallb ints_fit l
  | PyDict d => forallb (fun kv => ints_fit (snd kv)) d
  | _ => true
  end.

(** Levels of lists and dictionaries around the innermost value. *)
Fixpoint depth (v : value) : nat :=
  match v with
  | PyList l => S (fold_right (fun x n => Nat.max (depth x) n) O l)
  | PyDict d => S (fold_right (fun kv n => Nat.max (depth (snd kv)) n) O d)
  | _ => O
  end.

Definition within_limits (v : value) : bool :=
  ints_fit v && (depth v <=? MAX_DEPTH)%nat.

End Json.

(** ** The history store of [database.py]

    The SQLite file [conversation_history.db] holds two tables.  Table
    [history] is kept as the list of its rows in rowid order, which is the
    order a full scan visits them; [history_seq] is the counter behind
    [AUTOINCREMENT].  Table [user_settings] maps a user to a history
    limit.  The [timestamp] column is filled by [CURRENT_TIMESTAMP], whose
    resolution is one second: it is an integer number of seconds, read
    from the engine's clock and passed to the insert as [now]. *)

Module Db.
Import Json.

Definition DEFAULT_HISTORY_LIMIT : Z := 12.

Record Row := {
  id : Z;
  user_id : Z;
  role : string;
  parts : text;
  timestamp : Z
}.

Record Database := {
  history : list Row;
  history_seq : Z;
  user_settings : gmap Z Z
}.

(** [init_db] on a fresh file: both tables exist and are empty. *)
Definition init_db : Database :=
  {| history := []; history_seq := 0; user_settings := ∅ |}.

(** An integer column holds 64 bits.  The binding raises
    [OverflowError] for a Python integer outside of them, before the
    statement runs: nothing is stored. *)
Definition int64 (n : Z) : bool := (- 2 ^ 63 <=? n) && (n <? 2 ^ 63).

(** [INSERT OR REPLACE INTO user_settings (user_id, history_limit)], for
    a user and a limit that are [int64]: this is the statement once the
    binding has taken its arguments.  The caller that may be handed any
    integer, [Front.db_set_history_limit], checks the bound first. *)
Definition set_history_limit (uid : Z) (limit : Z) (db : Database) : Database :=
  {| history := history db;
     history_seq := history_seq db;
     user_settings := <[uid := limit]> (user_settings db) |}.

(** [result[0] if result else DEFAULT_HISTORY_LIMIT] *)
Definition get_history_limit (uid : Z) (db : Database) : Z :=
  match user_settings db !! uid with
  | Some limit => limit
  | None => DEFAULT_HISTORY_LIMIT
  end.

(** [INSERT INTO history (user_id, role, parts) VALUES (?, ?, ?)] with
    [parts_json = json.dumps(parts)], for a user that is [int64] and
    parts that are [within_limits]: outside of them [json.dumps] or the
    binding raises and no row is written.  The handlers pass the sender
    of a message and a list of one dictionary with one string. *)
Definition add_message_to_history (now : Z) (uid : Z) (r : string) (p : value)
    (db : Database) : Database :=
  let row := {| id := history_seq db + 1; user_id := uid; role := r;
                parts := dumps p; timestamp := now |} in
  {| history := history db ++ [row];
     history_seq := history_seq db + 1;
     user_settings := user_settings db |}.

(** [WHERE user_id = ?] *)
Definition where_user (uid : Z) (rows : list Row) : list Row :=
  List.filter (fun r => user_id r =? uid) rows.

(** [ORDER BY timestamp DESC].  SQL leaves the order of rows with equal
    keys open.  SQLite feeds the scanned rows one by one into a sorter
    keyed by the timestamp and, next, by the order of arrival; a row
    therefore lands behind every row whose timestamp is not smaller. *)
Fixpoint sorter_insert (r : Row) (sorted : list Row) : list Row :=
  match sorted with
  | [] => [r]
  | x :: rest =>
      if timestamp r <=? timestamp x then x :: sorter_insert r rest
      else r :: x :: rest
  end.

Definition order_by_timestamp_desc (rows : list Row) : list Row :=
  fold_left (fun sorted r => sorter_insert r sorted) rows [].

(** [LIMIT ?]: a negative bound means no bound in SQLite. *)
Definition sql_limit (limit : Z) (rows : list Row) : list Row :=
  if limit <? 0 then rows else firstn (Z.to_nat limit) rows.

(** [SELECT role, parts FROM history WHERE user_id = ? ORDER BY timestamp
    DESC LIMIT ?] *)
Definition select_history (uid : Z) (limit : Z) (db : Database) : list Row :=
  sql_limit limit (order_by_timestamp_desc (where_user uid (history db))).

(** One element of the list [get_history] returns:
    [{"role": role, "parts": json.loads(parts_json)}]. *)
Record Entry := { entry_role : string; entry_parts : value }.

Definition decode_row (r : Row) : option Entry :=
  p ← loads (parts r); Some {| entry_role := role r; entry_parts := p |}.

Fixpoint decode_rows (rows : list Row) : option (list Entry) :=
  match rows with
  | [] => Some []
  | r :: rest =>
      e ← decode_row r; es ← decode_rows rest; Some (e :: es)
  end.

(** [get_history]: the selected rows, reversed, then decoded.  [None]
    stands for the exception [json.loads] raises on a malformed row. *)
Definition get_history (uid : Z) (db : Database) : option (list Entry) :=
  let limit := get_history_limit uid db in
  let rows := select_history uid limit db in
  decode_rows (rev rows).

(** [DELETE FROM history WHERE user_id = ?] *)
Definition clear_history (uid : Z) (db : Database) : Database :=
  {| history := List.filter (fun r => negb (user_id r =? uid)) (history db);
     history_seq := history_seq db;
     user_settings := user_settings db |}.

(** *** Sequences of appends *)

(** One call of [add_message_to_history], with the second at which the
    engine stamps the row. *)
Record Append := {
  app_time : Z;
  app_user : Z;
  app_role : string;
  app_parts : value
}.

Definition do_append (db : Database) (a : Append) : Database :=
  add_message_to_history (app_time a) (app_user a) (app_role a) (app_parts a) db.

Definition do_appends (db : Database) (l : list Append) : Database :=
  fold_left do_append l db.

Definition entry_of (a : Append) : Entry :=
  {| entry_role := app_role a; entry_parts := app_parts a |}.

Definition appends_of (uid : Z) (l : list Append) : list Append :=
  List.filter (fun a => app_user a =? uid) l.

(** The turns a window of [limit] should hold after the appends [l] of
    one user: the last [limit] of them, oldest first. *)
Definition last_turns (limit : Z) (l : list Append) : list Entry :=
  map entry_of (skipn (length l - Z.to_nat limit) l).

(** The seconds at which the rows were stamped strictly increase. *)
Fixpoint strictly_increasing (ts : list Z) : bool :=
  match ts with
  | [] => true
  | t :: rest =>
      match rest with
      | [] => true
      | t' :: _ => (t <? t') && strictly_increasing rest
      end
  end.

(** What a row holds besides its keys, and what an append stores. *)
Definition content (r : Row) : string * text * Z :=
  (role r, parts r, timestamp r).

Definition stored (a : Append) : string * text * Z :=
  (app_role a, dumps (app_parts a), app_time a).

Definition native_append (a : Append) : bool := json_native (app_parts a).

(** The stored text of a row can be read back. *)
Definition decodable (r : Row) : Prop := is_Some (loads (parts r)).

(** The head of the sorter holds an older second than [t]. *)
Definition older_head (sorted : list Row) (t : Z) : Prop :=
  match sorted with
  | [] => True
  | x :: _ => timestamp x < t
  end.

(** Descending timestamps, as [ORDER BY timestamp DESC] demands. *)
Fixpoint descending (rows : list Row) : Prop :=
  match rows with
  | [] => True
  | x :: rest => Forall (fun y => timestamp y <= timestamp x) rest /\ descending rest
  end.

End Db.

(** ** The handlers of [main.py]

    A handler runs against the process state (the cooldown map, the
    database, the temporary files on disk, the assets held by the remote
    service) and against an environment that fixes what the outside world
    answers during this one request: the clock, whether the model object
    exists, which external calls raise, which states the remote asset
    reports.  Everything a handler does to the outside is recorded in a
    trace.

    Times of [time.time()] are rationals; the floating-point rounding of
    the subtraction in [is_user_on_cooldown] is not modelled. *)

Module Bot.
Import Json Db.

Definition MAX_FILE_SIZE : Z := 20 * 1024 * 1024.

Definition COOLDOWNS : gmap string Z :=
  list_to_map
    [("text"%string, 3); ("fact"%string, 5); ("photo"%string, 10);
     ("voice"%string, 15); ("video"%string, 20); ("settings"%string, 2)].

(** [COOLDOWNS.get(command_type, 2)] *)
Definition cooldown_of (command_type : string) : Z :=
  match COOLDOWNS !! command_type with
  | Some period => period
  | None => 2
  end.

(** *** Exceptions, messages, events *)

(** [except Exception] catches the first kind only; a cancellation of
    the coroutine is of the second kind. *)
Inductive exn : Type :=
| Exception (msg : string)
| BaseException.

(** The texts the handlers send to the chat. *)
Inductive Message : Type :=
| AskPrompt                  (* "Слушаю вас! Задавайте свой вопрос ..." *)
| VoiceTooLarge              (* "... голосовое сообщение слишком большое. Лимит — 20 МБ." *)
| VideoTooLarge              (* "... это видео слишком большое. Лимит — 20 МБ." *)
| VideoReceived              (* "Видео получено, начинаю обработку..." *)
| TextFailed                 (* "Произошла ошибка при обработке вашего запроса." *)
| VoiceFailed                (* "Не удалось обработать голосовое сообщение." *)
| VideoFailed                (* "... не удалось обработать это видеосообщение." *)
| FactQuota                  (* "... лимит интересных фактов исчерпан ..." *)
| FactFailed                 (* "... не удалось придумать факт." *)
| FactReply (t : pystr)      (* the fact, through send_long_message *)
| ModelReply (t : pystr)     (* the model's answer, through send_long_message *)
| SettingsMenu (limit : Z).  (* the settings text with the current limit *)

Inductive Prompt : Type :=
| UserText (t : pystr)
| FactPrompt
| VoicePrompt
| VideoPrompt.

Inductive LogLevel : Type := INFO | WARNING | ERROR.

Inductive FileState : Type := STATE_UNSPECIFIED | PROCESSING | ACTIVE | FAILED.

(** A [genai] file object: its resource name and its state. *)
Record File := { name : string; state : FileState }.

(** What a handler does to the outside.  [Sent] and [Edited] record a
    message that reached the chat, [ChatAction] an action that was
    shown; the other events record that the call was issued. *)
Inductive Event : Type :=
| Logged (level : LogLevel)
| Sent (m : Message)
| Edited (m : Message)
| ChatAction (action : string)
| HistoryRead (uid : Z)
| Generate (h : list Entry) (p : Prompt) (asset : option string)
| TelegramGetFile
| Mkdir (dir : string)
| Download (path : string)
| Upload (path : string)
| Sleep (seconds : Z)
| RemoteGet (asset : string)
| Unlink (path : string)
| RemoteDelete (asset : string).

(** The places where a call to the outside may raise. *)
Inductive Op : Type :=
| OpSend (m : Message)
| OpChatAction
| OpTelegramGetFile
| OpMkdir
| OpDownload
| OpUpload
| OpRemoteGet (i : nat)
| OpGetHistoryLimit
| OpGetHistory
| OpGenerate
| OpAddMessage (r : string)
| OpUnlink
| OpRemoteDelete.

Record Env := {
  time_check : Q;                (* time.time() inside is_user_on_cooldown *)
  time_mark : Q;                 (* time.time() inside update_user_timestamp *)
  model_loaded : bool;           (* the global [model] is not None *)
  fault : Op -> option exn;      (* the calls that raise, and what *)
  response_text : pystr;         (* response.text *)
  insert_time_user : Z;          (* CURRENT_TIMESTAMP at the first insert *)
  insert_time_model : Z;         (* CURRENT_TIMESTAMP at the second insert *)
  uuid : string;                 (* uuid.uuid4() *)
  partial_download : bool;       (* a failed download leaves a file behind *)
  asset_name : string;           (* name of the uploaded file *)
  upload_state : FileState;      (* state reported by upload_file *)
  poll_state : nat -> FileState  (* state reported by the i-th get_file *)
}.

(** The incoming update, as far as the handlers read it. *)
Record Update := {
  effective_user : Z;
  message_text : pystr;
  file_size : Z;
  callback_query : bool
}.

(** The process state, and the two local variables [file_path] and
    [gemini_file] of the media handler that is running. *)
Record State := {
  user_last_request : gmap Z Q;
  database : Database;
  local_files : gset string;
  remote_files : gset string;
  trace : list Event;
  file_path : option string;
  gemini_file : option File
}.

Definition with_user_last_request (f : gmap Z Q -> gmap Z Q) (s : State) : State :=
  {| user_last_request := f (user_last_request s); database := database s;
     local_files := local_files s; remote_files := remote_files s;
     trace := trace s; file_path := file_path s; gemini_file := gemini_file s |}.

Definition with_database (f : Database -> Database) (s : State) : State :=
  {| user_last_request := user_last_request s; database := f (database s);
     local_files := local_files s; remote_files := remote_files s;
     trace := trace s; file_path := file_path s; gemini_file := gemini_file s |}.

Definition with_local_files (f : gset string -> gset string) (s : State) : State :=
  {| user_last_request := user_last_request s; database := database s;
     local_files := f (local_files s); remote_files := remote_files s;
     trace := trace s; file_path := file_path s; gemini_file := gemini_file s |}.

Definition with_remote_files (f : gset string -> gset string) (s : State) : State :=
  {| user_last_request := user_last_request s; database := database s;
     local_files := local_files s; remote_files := f (remote_files s);
     trace := trace s; file_path := file_path s; gemini_file := gemini_file s |}.

Definition with_trace (f : list Event -> list Event) (s : State) : State :=
  {| user_last_request := user_last_request s; database := database s;
     local_files := local_files s; remote_files := remote_files s;
     trace := f (trace s); file_path := file_path s; gemini_file := gemini_file s |}.

Definition with_file_path (p : option string) (s : State) : State :=
  {| user_last_request := user_last_request s; database := database s;
     local_files := local_files s; remote_files := remote_files s;
     trace := trace s; file_path := p; gemini_file := gemini_file s |}.

Definition with_gemini_file (g : option File) (s : State) : State :=
  {| user_last_request := user_last_request s; database := database s;
     local_files := local_files s; remote_files := remote_files s;
     trace := trace s; file_path := file_path s; gemini_file := g |}.

(** *** The monad of handler code

    A statement ends by falling through with a value, by [return], by
    raising, or not at all: [Diverged] marks a loop that used up the
    fuel it was given. *)
Inductive outcome (A : Type) : Type :=
| Value (a : A)
| Returned
| Raised (e : exn)
| Diverged.

Arguments Value {A} a.
Arguments Returned {A}.
Arguments Raised {A} e.
Arguments Diverged {A}.

Definition M (A : Type) : Type := State -> outcome A * State.

Definition ret {A} (a : A) : M A := fun s => (Value a, s).

Definition bind {A B} (m : M A) (k : A -> M B) : M B :=
  fun s =>
    match m s with
    | (Value a, s') => k a s'
    | (Returned, s') => (Returned, s')
    | (Raised e, s') => (Raised e, s')
    | (Diverged, s') => (Diverged, s')
    end.

#[global] Instance M_ret : MRet M := @ret.
#[global] Instance M_bind : MBind M := fun A B k m => bind m k.

Definition raise {A} (e : exn) : M A := fun s => (Raised e, s).
Definition return_ {A} : M A := fun s => (Returned, s).
Definition diverge {A} : M A := fun s => (Diverged, s).

Definition get {A} (f : State -> A) : M A := fun s => (Value (f s), s).
Definition modify (f : State -> State) : M unit := fun s => (Value tt, f s).
Definition emit (e : Event) : M unit := modify (with_trace (fun t => t ++ [e])).

(** [if c: body] *)
Definition when (c : bool) (body : M unit) : M unit :=
  if c then body else ret tt.

(** [try: body  except Exception as e: handler(e)] *)
Definition try_except (body : M unit) (handler : string -> M unit) : M unit :=
  fun s =>
    match body s with
    | (Raised (Exception msg), s') => handler msg s'
    | other => other
    end.

(** [try: body  finally: cleanup].  The [finally] block runs however the
    body ended, unless the body never ended; what the block itself
    raises replaces the outcome of the body. *)
Definition try_finally (body : M unit) (cleanup : M unit) : M unit :=
  fun s =>
    match body s with
    | (Diverged, s') => (Diverged, s')
    | (o, s') =>
        match cleanup s' with
        | (Value _, s'') => (o, s'')
        | other => other
        end
    end.

Definition Qlt_bool (x y : Q) : bool := negb (Qle_bool y x).

Section Handlers.
Variable env : Env.

(** A call to the outside: raises what the environment says. *)
Definition call (op : Op) : M unit :=
  match fault env op with
  | Some e => raise e
  | None => ret tt
  end.

Definition log (level : LogLevel) : M unit := emit (Logged level).

(** [update.message.reply_text] and its siblings. *)
Definition reply (m : Message) : M unit :=
  call (OpSend m) ;; emit (Sent m).

Definition edit (m : Message) : M unit :=
  call (OpSend m) ;; emit (Edited m).

(** [send_long_message]: a text longer than 4096 characters leaves in
    several pieces, half a second apart.  The pieces are taken as one
    message. *)
Definition send_long_message (m : Message) : M unit := reply m.

(** *** Flood protection *)

(** [user_last_request[user_id]] on a [defaultdict(float)]: a missing
    key is entered with [0.0]. *)
Definition last_request (user_id : Z) : M Q :=
  fun s =>
    match user_last_request s !! user_id with
    | Some t => (Value t, s)
    | None => (Value 0%Q, with_user_last_request (insert user_id 0%Q) s)
    end.

Definition is_user_on_cooldown (user_id : Z) (command_type : string) : M bool :=
  let cooldown_period := cooldown_of command_type in
  last ← last_request user_id;
  let time_since_last_request := (time_check env - last)%Q in
  if Qlt_bool time_since_last_request (inject_Z cooldown_period)
  then log WARNING ;; ret true
  else ret false.

Definition update_user_timestamp (user_id : Z) : M unit :=
  modify (with_user_last_request (insert user_id (time_mark env))).

(** *** Access to the store and to the model *)

Definition db_get_history_limit (user_id : Z) : M Z :=
  call OpGetHistoryLimit ;;
  get (fun s => get_history_limit user_id (database s)).

Definition db_get_history (user_id : Z) : M (list Entry) :=
  emit (HistoryRead user_id) ;;
  call OpGetHistory ;;
  h ← get (fun s => get_history user_id (database s));
  match h with
  | Some entries => ret entries
  | None => raise (Exception "JSONDecodeError")
  end.

Definition db_add_message_to_history (now : Z) (user_id : Z) (r : string) (p : value) : M unit :=
  call (OpAddMessage r) ;;
  modify (with_database (add_message_to_history now user_id r p)).

(** [model.start_chat(history=h)], [chat.send_message_async(...)] and
    [response.text], taken as one call. *)
Definition generate (h : list Entry) (p : Prompt) (asset : option string) : M pystr :=
  emit (Generate h p asset) ;;
  call OpGenerate ;;
  ret (response_text env).

(** [{"text": t}] inside a one-element list. *)
Definition text_part (t : pystr) : value :=
  PyList [PyDict [(str "text", PyStr t)]].

(** *** Settings and the random fact *)

Definition settings_menu (update : Update) : M unit :=
  let user_id := effective_user update in
  on_cooldown ←
    (if callback_query update then ret false
     else is_user_on_cooldown user_id "settings");
  when on_cooldown return_ ;;
  update_user_timestamp user_id ;;
  current_limit ← db_get_history_limit user_id;
  if callback_query update
  then edit (SettingsMenu current_limit)
  else reply (SettingsMenu current_limit).

Definition lower_char (c : ascii) : ascii :=
  if (65 <=? ord c) && (ord c <=? 90) then chr (ord c + 32) else c.

Fixpoint lower (s : string) : string :=
  match s with
  | EmptyString => EmptyString
  | String c s' => String (lower_char c) (lower s')
  end.

Fixpoint contains (needle : string) (s : string) : bool :=
  String.prefix needle s ||
  match s with
  | EmptyString => false
  | String _ s' => contains needle s'
  end.

Definition random_fact (update : Update) : M unit :=
  let user_id := effective_user update in
  on_cooldown ← is_user_on_cooldown user_id "fact";
  when on_cooldown return_ ;;
  try_except
    (update_user_timestamp user_id ;;
     when (negb (model_loaded env)) return_ ;;
     log INFO ;;
     call OpChatAction ;; emit (ChatAction "typing") ;;
     text ← generate [] FactPrompt None;
     send_long_message (FactReply text))
    (fun msg =>
       log ERROR ;;
       if contains "quota" (lower msg)
       then reply FactQuota
       else reply FactFailed).

(** *** Text *)

Definition BUTTON_ASK : pystr :=
  [10067; 32; 1047; 1072; 1076; 1072; 1090; 1100; 32; 1074; 1086; 1087; 1088; 1086; 1089].
Definition BUTTON_FACT : pystr :=
  [128161; 32; 1057; 1083; 1091; 1095; 1072; 1081; 1085; 1099; 1081; 32; 1092; 1072; 1082; 1090].
Definition BUTTON_SETTINGS : pystr :=
  [9881; 65039; 32; 1053; 1072; 1089; 1090; 1088; 1086; 1081; 1082; 1080].

Definition handle_message (update : Update) : M unit :=
  let user_id := effective_user update in
  let message_text := message_text update in
  if bool_decide (message_text = BUTTON_ASK) then reply AskPrompt
  else if bool_decide (message_text = BUTTON_FACT) then random_fact update
  else if bool_decide (message_text = BUTTON_SETTINGS) then settings_menu update
  else
    on_cooldown ← is_user_on_cooldown user_id "text";
    when on_cooldown return_ ;;
    try_except
      (update_user_timestamp user_id ;;
       when (negb (model_loaded env)) return_ ;;
       log INFO ;;
       call OpChatAction ;; emit (ChatAction "typing") ;;
       user_history ← db_get_history user_id;
       full_response_text ← generate user_history (UserText message_text) None;
       db_add_message_to_history (insert_time_user env) user_id "user"
         (text_part message_text) ;;
       db_add_message_to_history (insert_time_model env) user_id "model"
         (text_part full_response_text) ;;
       send_long_message (ModelReply full_response_text))
      (fun _ => log ERROR ;; reply TextFailed).

(** *** Voice and video notes *)

Definition VOICE_PLACEHOLDER : pystr :=
  [40; 1043; 1086; 1083; 1086; 1089; 1086; 1074; 1086; 1077; 32; 1089; 1086; 1086;
   1073; 1097; 1077; 1085; 1080; 1077; 41].
Definition VIDEO_PLACEHOLDER : pystr :=
  [40; 1042; 1080; 1076; 1077; 1086; 1089; 1086; 1086; 1073; 1097; 1077; 1085; 1080; 1077; 41].

(** [await file.download_to_drive(file_path)] *)
Definition download_to_drive (path : string) : M unit :=
  emit (Download path) ;;
  match fault env OpDownload with
  | Some e =>
      when (partial_download env) (modify (with_local_files (fun fs => {[path]} ∪ fs))) ;;
      raise e
  | None => modify (with_local_files (fun fs => {[path]} ∪ fs))
  end.

(** [gemini_file = genai.upload_file(path=file_path)] *)
Definition upload_file (path : string) : M unit :=
  emit (Upload path) ;;
  call OpUpload ;;
  modify (fun s =>
    with_gemini_file (Some {| name := asset_name env; state := upload_state env |})
      (with_remote_files (fun fs => {[asset_name env]} ∪ fs) s)).

(** [gemini_file = genai.get_file(gemini_file.name)], the [i]-th time. *)
Definition refresh_file (i : nat) (f : File) : M unit :=
  emit (RemoteGet (name f)) ;;
  call (OpRemoteGet i) ;;
  modify (with_gemini_file (Some {| name := name f; state := poll_state env i |})).

Definition is_processing (st : FileState) : bool :=
  match st with PROCESSING => true | _ => false end.

Definition is_failed (st : FileState) : bool :=
  match st with FAILED => true | _ => false end.

(** [while gemini_file.state.name == "PROCESSING": time.sleep(interval);
    gemini_file = genai.get_file(gemini_file.name)].  The loop has no
    bound of its own; [fuel] is the number of rounds the model follows
    it. *)
Fixpoint poll (interval : Z) (i : nat) (fuel : nat) : M unit :=
  g ← get gemini_file;
  match g with
  | None => raise (Exception "AttributeError")
  | Some f =>
      if is_processing (state f) then
        match fuel with
        | O => diverge
        | S fuel' =>
            emit (Sleep interval) ;;
            refresh_file i f ;;
            poll interval (S i) fuel'
        end
      else ret tt
  end.

(** [if gemini_file.state.name == "FAILED": raise ValueError(...)] *)
Definition check_failed : M unit :=
  g ← get gemini_file;
  match g with
  | Some f => when (is_failed (state f)) (raise (Exception "ValueError"))
  | None => raise (Exception "AttributeError")
  end.

(** The [finally] block of the media handlers. *)
Definition cleanup : M unit :=
  p ← get file_path;
  match p with
  | Some path =>
      present ← get (fun s => bool_decide (path ∈ local_files s));
      when present
        (emit (Unlink path) ;; call OpUnlink ;;
         modify (with_local_files (fun fs => fs ∖ {[path]})))
  | None => ret tt
  end ;;
  g ← get gemini_file;
  match g with
  | Some f =>
      emit (RemoteDelete (name f)) ;; call OpRemoteDelete ;;
      modify (with_remote_files (fun fs => fs ∖ {[name f]}))
  | None => ret tt
  end.

Definition asset_of (g : option File) : option string :=
  match g with Some f => Some (name f) | None => None end.

Definition voice_path : string := "temp_audio/" +:+ uuid env +:+ ".ogg".
Definition video_path : string := "temp_video/" +:+ uuid env +:+ ".mp4".

Definition handle_voice (fuel : nat) (update : Update) : M unit :=
  let user_id := effective_user update in
  on_cooldown ← is_user_on_cooldown user_id "voice";
  when on_cooldown return_ ;;
  modify (with_file_path None) ;; modify (with_gemini_file None) ;;
  try_finally
    (try_except
       (when (file_size update >? MAX_FILE_SIZE) (reply VoiceTooLarge ;; return_) ;;
        update_user_timestamp user_id ;;
        when (negb (model_loaded env)) return_ ;;
        log INFO ;;
        call OpChatAction ;; emit (ChatAction "typing") ;;
        emit TelegramGetFile ;; call OpTelegramGetFile ;;
        emit (Mkdir "temp_audio") ;; call OpMkdir ;;
        modify (with_file_path (Some voice_path)) ;;
        download_to_drive voice_path ;;
        upload_file voice_path ;;
        poll 2 O fuel ;;
        check_failed ;;
        user_history ← db_get_history user_id;
        g ← get gemini_file;
        full_response_text ← generate user_history VoicePrompt (asset_of g);
        db_add_message_to_history (insert_time_user env) user_id "user"
          (text_part VOICE_PLACEHOLDER) ;;
        db_add_message_to_history (insert_time_model env) user_id "model"
          (text_part full_response_text) ;;
        send_long_message (ModelReply full_response_text))
       (fun _ => log ERROR ;; reply VoiceFailed))
    cleanup.

Definition handle_video_note (fuel : nat) (update : Update) : M unit :=
  let user_id := effective_user update in
  on_cooldown ← is_user_on_cooldown user_id "video";
  when on_cooldown return_ ;;
  modify (with_file_path None) ;; modify (with_gemini_file None) ;;
  try_finally
    (try_except
       (when (file_size update >? MAX_FILE_SIZE) (reply VideoTooLarge ;; return_) ;;
        update_user_timestamp user_id ;;
        when (negb (model_loaded env)) return_ ;;
        log INFO ;;
        reply VideoReceived ;;
        call OpChatAction ;; emit (ChatAction "upload_video") ;;
        emit TelegramGetFile ;; call OpTelegramGetFile ;;
        emit (Mkdir "temp_video") ;; call OpMkdir ;;
        modify (with_file_path (Some video_path)) ;;
        download_to_drive video_path ;;
        upload_file video_path ;;
        poll 5 O fuel ;;
        check_failed ;;
        user_history ← db_get_history user_id;
        g ← get gemini_file;
        full_response_text ← generate user_history VideoPrompt (asset_of g);
        db_add_message_to_history (insert_time_user env) user_id "user"
          (text_part VIDEO_PLACEHOLDER) ;;
        db_add_message_to_history (insert_time_model env) user_id "model"
          (text_part full_response_text) ;;
        send_long_message (ModelReply full_response_text))
       (fun _ => log ERROR ;; reply VideoFailed))
    cleanup.

End Handlers.

(** *** Notions used to state the properties *)

(** The last request time the limiter sees for a user. *)
Definition last_seen (s : State) (user_id : Z) : Q :=
  match user_last_request s !! user_id with
  | Some t => t
  | None => 0%Q
  end.

(** The text is one of the three keyboard buttons. *)
Definition is_button (t : pystr) : bool :=
  bool_decide (t = BUTTON_ASK) || bool_decide (t = BUTTON_FACT)
  || bool_decide (t = BUTTON_SETTINGS).

(** The state after [user_last_request[user_id]] was read. *)
Definition touched (user_id : Z) (s : State) : State :=
  match user_last_request s !! user_id with
  | Some _ => s
  | None => with_user_last_request (insert user_id 0%Q) s
  end.

(** The verdict of [is_user_on_cooldown] in a state. *)
Definition on_cooldown (env : Env) (s : State) (user_id : Z) (command_type : string) : bool :=
  Qlt_bool (time_check env - last_seen s user_id) (inject_Z (cooldown_of command_type)).

Definition is_upload (e : Event) : bool :=
  match e with Upload _ => true | _ => false end.

Definition is_download (e : Event) : bool :=
  match e with Download _ => true | _ => false end.

Definition is_sent (e : Event) : bool :=
  match e with Sent _ | Edited _ => true | _ => false end.

Definition sleep_of (e : Event) : option Z :=
  match e with Sleep n => Some n | _ => None end.

(** The calls of one kind in a trace. *)
Definition uploads (t : list Event) : list Event := List.filter is_upload t.
Definition downloads (t : list Event) : list Event := List.filter is_download t.
Definition sleeps (t : list Event) : list Z := omap sleep_of t.

(** Nothing was created, fetched or stored since [s0]: the files on
    disk, the remote assets, the uploads and downloads issued and the
    database are those of [s0]. *)
Definition same_resources (s0 s : State) : Prop :=
  local_files s = local_files s0 /\ remote_files s = remote_files s0 /\
  uploads (trace s) = uploads (trace s0) /\
  downloads (trace s) = downloads (trace s0) /\
  database s = database s0.

(** The same, inside a media handler whose two local variables are
    still unset. *)
Definition untouched (s0 s : State) : Prop :=
  same_resources s0 s /\ file_path s = None /\ gemini_file s = None.

(** The three stages of a media handler, seen from its [finally] block.
    Before [file_path] is assigned nothing exists; then the temporary
    file may exist and no asset was obtained; then [gemini_file] names
    the asset. *)
Definition before_download (s0 s : State) : Prop :=
  file_path s = None /\ gemini_file s = None /\
  local_files s = local_files s0 /\ remote_files s = remote_files s0 /\
  uploads (trace s) = uploads (trace s0).

Definition before_upload (env : Env) (path : string) (s0 s : State) : Prop :=
  file_path s = Some path /\ gemini_file s = None /\
  (local_files s ⊆ {[path]} ∪ local_files s0) /\ remote_files s = remote_files s0 /\
  (fault env OpUpload = None -> uploads (trace s) = uploads (trace s0)).

Definition after_upload (env : Env) (path : string) (s0 s : State) : Prop :=
  file_path s = Some path /\
  (exists st, gemini_file s = Some {| name := asset_name env; state := st |}) /\
  (local_files s ⊆ {[path]} ∪ local_files s0) /\
  (remote_files s ⊆ {[asset_name env]} ∪ remote_files s0).

Definition tracked (env : Env) (path : string) (s0 s : State) : Prop :=
  before_download s0 s \/ before_upload env path s0 s \/ after_upload env path s0 s.

(** What the [finally] block leaves: nothing the request created, and,
    once an upload was issued, neither the temporary file nor the
    asset. *)
Definition released (env : Env) (path : string) (s0 s : State) : Prop :=
  (local_files s ⊆ local_files s0) /\ (remote_files s ⊆ remote_files s0) /\
  (uploads (trace s) <> uploads (trace s0) ->
   (path ∉ local_files s) /\ (fault env OpUpload = None -> asset_name env ∉ remote_files s)).

(** The handler came back to its caller. *)
Definition completed {A} (o : outcome A) : Prop :=
  match o with Diverged => False | _ => True end.

(** Weakest precondition of a piece of handler code: [Q] for the state
    in which it falls through, [E] for the state in which it returns or
    raises, and [d] for a run that does not end: [wp True] is partial,
    [wp False] total correctness. *)
Definition wp (d : Prop) {A} (m : M A) (Q : A -> State -> Prop) (E : State -> Prop)
    (s : State) : Prop :=
  match m s with
  | (Value a, s') => Q a s'
  | (Diverged, _) => d
  | (_, s') => E s'
  end.

(** The trace of [n] rounds of the polling loop. *)
Fixpoint poll_rounds (interval : Z) (asset : string) (n : nat) : list Event :=
  match n with
  | O => []
  | S n' => Sleep interval :: RemoteGet asset :: poll_rounds interval asset n'
  end.

End Bot.

(** ** The rate limiter as the specification words it

    A map from the pair of user and category to the last request time,
    with the admission test and the marking acting on one pair. *)
Module LimiterSpec.

Definition CooldownState := gmap (Z * string) Q.

Definition last_request_time (m : CooldownState) (user_id : Z) (category : string) : Q :=
  match m !! (user_id, category) with
  | Some t => t
  | None => 0%Q
  end.

Definition allows (m : CooldownState) (now : Q) (user_id : Z) (category : string) : bool :=
  negb (Bot.Qlt_bool (now - last_request_time m user_id category)
                     (inject_Z (Bot.cooldown_of category))).

Definition mark (m : CooldownState) (now : Q) (user_id : Z) (category : string) : CooldownState :=
  <[(user_id, category) := now]> m.

End LimiterSpec.

(** ** Concrete requests, environments and states *)

Module Examples.
Import Json Db Bot.

Definition text_turn (t : Z) (uid : Z) (r : string) (words : string) : Append :=
  {| app_time := t; app_user := uid; app_role := r;
     app_parts := text_part (str words) |}.

(** One exchange: the user's turn and the model's turn, stored within
    the same second, as the two consecutive inserts of a handler are. *)
Definition one_exchange : list Append :=
  [text_turn 1000 42 "user" "hi"; text_turn 1000 42 "model" "hello"].

(** Two exchanges five seconds apart. *)
Definition two_exchanges : list Append :=
  [text_turn 1000 42 "user" "hi"; text_turn 1000 42 "model" "hello";
   text_turn 1005 42 "user" "how are you"; text_turn 1005 42 "model" "fine"].

(** Four turns, one per second. *)
Definition four_seconds : list Append :=
  [text_turn 1000 42 "user" "hi"; text_turn 1001 42 "model" "hello";
   text_turn 1002 42 "user" "how are you"; text_turn 1003 42 "model" "fine"].

Definition no_fault : Op -> option exn := fun _ => None.

(** Nothing has happened yet. *)
Definition idle : State :=
  {| user_last_request := ∅; database := init_db;
     local_files := ∅; remote_files := ∅; trace := [];
     file_path := None; gemini_file := None |}.

(** User 42 made a request at second 999. *)
Definition recent : State :=
  {| user_last_request := {[ 42 := 999%Q ]}; database := init_db;
     local_files := ∅; remote_files := ∅; trace := [];
     file_path := None; gemini_file := None |}.

(** Every call succeeds; the asset is ready at the third poll. *)
Definition calm : Env :=
  {| time_check := 1000; time_mark := 1000; model_loaded := true;
     fault := no_fault; response_text := str "hello";
     insert_time_user := 1000; insert_time_model := 1000;
     uuid := "1b9d6bcd"; partial_download := false;
     asset_name := "files/abc"; upload_state := PROCESSING;
     poll_state := fun i => if (i <? 2)%nat then PROCESSING else ACTIVE |}.

(** The same ten seconds later. *)
Definition calm_later : Env :=
  {| time_check := 1010; time_mark := 1010; model_loaded := true;
     fault := no_fault; response_text := str "hello";
     insert_time_user := 1010; insert_time_model := 1010;
     uuid := "1b9d6bcd"; partial_download := false;
     asset_name := "files/abc"; upload_state := PROCESSING;
     poll_state := fun i => if (i <? 2)%nat then PROCESSING else ACTIVE |}.

(** The model object was never created. *)
Definition no_model : Env :=
  {| time_check := 1000; time_mark := 1000; model_loaded := false;
     fault := no_fault; response_text := [];
     insert_time_user := 1000; insert_time_model := 1000;
     uuid := "1b9d6bcd"; partial_download := false;
     asset_name := "files/abc"; upload_state := ACTIVE;
     poll_state := fun _ => ACTIVE |}.

(** The inference call raises. *)
Definition failing_inference : Env :=
  {| time_check := 1000; time_mark := 1000; model_loaded := true;
     fault := fun op => match op with
                        | OpGenerate => Some (Exception "503 Service Unavailable")
                        | _ => None
                        end;
     response_text := [];
     insert_time_user := 1000; insert_time_model := 1000;
     uuid := "1b9d6bcd"; partial_download := false;
     asset_name := "files/abc"; upload_state := ACTIVE;
     poll_state := fun _ => ACTIVE |}.

(** The asset never leaves [PROCESSING]. *)
Definition stuck : Env :=
  {| time_check := 1000; time_mark := 1000; model_loaded := true;
     fault := no_fault; response_text := str "hello";
     insert_time_user := 1000; insert_time_model := 1000;
     uuid := "1b9d6bcd"; partial_download := false;
     asset_name := "files/abc"; upload_state := PROCESSING;
     poll_state := fun _ => PROCESSING |}.

(** A text, and a media message of 52 kB. *)
Definition hi : Update :=
  {| effective_user := 42; message_text := str "hi";
     file_size := 52000; callback_query := false |}.

(** A media message of 21 MiB. *)
Definition oversized : Update :=
  {| effective_user := 42; message_text := [];
     file_size := 21 * 1024 * 1024; callback_query := false |}.

End Examples.


(** ** Further notions and scenarios *)

Module Notions.
Import Json Db Bot.

(** A property of the state that survives everything a handler serving
    [uid] may do to the state: writing the trace, setting its two local
    variables, creating and deleting files and assets, writing the
    timestamp of [uid] and appending a row of [uid] whose parts are
    [ok]. *)
Record stable (uid : Z) (ok : value -> Prop) (P : State -> Prop) : Prop := {
  stable_trace : forall f s, P s -> P (with_trace f s);
  stable_file_path : forall p s, P s -> P (with_file_path p s);
  stable_gemini_file : forall g s, P s -> P (with_gemini_file g s);
  stable_local_files : forall f s, P s -> P (with_local_files f s);
  stable_remote_files : forall f s, P s -> P (with_remote_files f s);
  stable_mark : forall t s, P s -> P (with_user_last_request (insert uid t) s);
  stable_append : forall now r p s,
    ok p -> P s -> P (with_database (add_message_to_history now uid r p) s)
}.

Definition any_parts : value -> Prop := fun _ => True.
Definition native_parts : value -> Prop := fun p => json_native p = true.

(** A character between the blank and the tilde. *)
Definition printable (c : ascii) : bool := (32 <=? ord c) && (ord c <=? 126).

(** Every row of the table [history] can be read back. *)
Definition readable (s : State) : Prop := Forall decodable (history (database s)).

(** The rows, the limit and the timestamp of user [u] are those of
    [s0]. *)
Definition same_user (u : Z) (s0 s : State) : Prop :=
  where_user u (history (database s)) = where_user u (history (database s0))
  /\ user_settings (database s) = user_settings (database s0)
  /\ last_seen s u = last_seen s0 u.

(** The table [history] holds the rows of [s0], in place, followed by
    rows of [uid]; the limits are those of [s0]. *)
Definition only_appended (uid : Z) (s0 s : State) : Prop :=
  (exists added,
     history (database s) = history (database s0) ++ added
     /\ Forall (fun r => user_id r = uid) added)
  /\ user_settings (database s) = user_settings (database s0).

(** The timestamps of the limiter are those of [s0]. *)
Definition same_marks (s0 s : State) : Prop :=
  forall u, last_seen s u = last_seen s0 u.

(** The inference calls of a trace: the history, the prompt and the
    asset each was given. *)
Definition generation_of (e : Event) : option (list Entry * Prompt * option string) :=
  match e with Generate h p a => Some (h, p, a) | _ => None end.

Definition generations (t : list Event) : list (list Entry * Prompt * option string) :=
  omap generation_of t.

(** The reads of the table [history] a trace records. *)
Definition is_history_read (e : Event) : bool :=
  match e with HistoryRead _ => true | _ => false end.

Definition history_reads (t : list Event) : list Event :=
  List.filter is_history_read t.

(** The database is the one of [s0], the table [history] was not read
    since, and the inference calls made since are all in [allowed]. *)
Definition asked_only (allowed : list (list Entry * Prompt * option string))
    (s0 s : State) : Prop :=
  database s = database s0
  /\ history_reads (trace s) = history_reads (trace s0)
  /\ exists added, generations (trace s) = generations (trace s0) ++ added
                   /\ incl added allowed.

(** The asset is found in state [st] after [k] polls: at once if [k] is
    zero, and else after [k] polls of which all but the last found it in
    [PROCESSING]. *)
Definition settles (env : Env) (k : nat) (st : FileState) : Prop :=
  match k with
  | O => upload_state env = st
  | S k' =>
      upload_state env = PROCESSING
      /\ (forall j, (j < k')%nat -> poll_state env j = PROCESSING)
      /\ poll_state env k' = st
  end.

End Notions.

Module Scenarios.
Import Json Db Bot Examples.

(** The press of an inline button of the settings menu. *)
Definition press : Update :=
  {| effective_user := 42; message_text := [];
     file_size := 0; callback_query := true |}.

(** The keyboard button of the random fact. *)
Definition fact_button : Update :=
  {| effective_user := 42; message_text := BUTTON_FACT;
     file_size := 0; callback_query := false |}.

Definition with_fault (f : Op -> option exn) (env : Env) : Env :=
  {| time_check := time_check env; time_mark := time_mark env;
     model_loaded := model_loaded env; fault := f;
     response_text := response_text env;
     insert_time_user := insert_time_user env;
     insert_time_model := insert_time_model env;
     uuid := uuid env; partial_download := partial_download env;
     asset_name := asset_name env; upload_state := upload_state env;
     poll_state := poll_state env |}.

(** The service is out of quota. *)
Definition out_of_quota : Env :=
  with_fault (fun o => match o with
                       | OpGenerate => Some (Exception "429 Quota exceeded for model")
                       | _ => None
                       end) calm.

(** The temporary file cannot be deleted. *)
Definition unlink_fails : Env :=
  with_fault (fun o => match o with
                       | OpUnlink => Some (Exception "PermissionError")
                       | _ => None
                       end) calm.

(** The second insert of an exchange raises. *)
Definition second_insert_fails : Env :=
  with_fault (fun o => match o with
                       | OpAddMessage "model" => Some (Exception "database is locked")
                       | _ => None
                       end) calm.

(** The service gives up on the asset at the second poll. *)
Definition asset_fails : Env :=
  {| time_check := 1000; time_mark := 1000; model_loaded := true;
     fault := no_fault; response_text := str "hello";
     insert_time_user := 1000; insert_time_model := 1000;
     uuid := "1b9d6bcd"; partial_download := false;
     asset_name := "files/abc"; upload_state := PROCESSING;
     poll_state := fun i => if (i <? 1)%nat then PROCESSING else FAILED |}.

(** User 42 has spoken once at second 990; user 7 has a turn too. *)
Definition two_users : State :=
  {| user_last_request := {[ 42 := 990%Q; 7 := 995%Q ]};
     database := do_appends init_db
                   [text_turn 990 42 "user" "hi"; text_turn 991 42 "model" "hello";
                    text_turn 995 7 "user" "hey"];
     local_files := ∅; remote_files := ∅; trace := [];
     file_path := None; gemini_file := None |}.

End Scenarios.

(** ** Long messages: [send_long_message]

    Telegram takes at most 4096 characters in one message.  A longer
    text is cut into pieces, at the last line break among its first 4096
    characters, or else at the last blank, or else after the 4096th
    character; the white space that follows a cut is dropped.  What the
    function hands to [reply_text] is kept as the list of its calls, in
    their order; a call that raises ends the function, and the calls made
    are then a prefix of the list.  The pause of half a second after each
    piece is left out. *)

Module Long.
Import Json.

Definition MAX_LENGTH : nat := 4096.

(** [c.isspace()] for one character: the white space of Unicode. *)
Definition isspace (c : Z) : bool :=
  ((9 <=? c) && (c <=? 13)) || ((28 <=? c) && (c <=? 32))
  || (c =? 133) || (c =? 160) || (c =? 5760)
  || ((8192 <=? c) && (c <=? 8202))
  || (c =? 8232) || (c =? 8233) || (c =? 8239) || (c =? 8287) || (c =? 12288).

(** [text.lstrip()] *)
Fixpoint lstrip (text : pystr) : pystr :=
  match text with
  | c :: rest => if isspace c then lstrip rest else text
  | [] => []
  end.

(** The scan behind [rfind]: [found] is the index of the last [ch] met
    so far, and [i] the index of the head of [text]. *)
Fixpoint rfind_from (ch : Z) (text : pystr) (i : Z) (found : Z) : Z :=
  match text with
  | [] => found
  | c :: rest => rfind_from ch rest (i + 1) (if c =? ch then i else found)
  end.

(** [text.rfind(ch, 0, stop)] for a single character [ch]: the highest
    index below [stop] at which [ch] stands, or [-1]. *)
Definition rfind (ch : Z) (text : pystr) (stop : nat) : Z :=
  rfind_from ch (firstn stop text) 0 (-1).

(** The three assignments to [cut_off]. *)
Definition cut_off (text : pystr) : Z :=
  let cut_off := rfind 10 text MAX_LENGTH in
  let cut_off := if cut_off =? -1 then rfind 32 text MAX_LENGTH else cut_off in
  if cut_off =? -1 then Z.of_nat MAX_LENGTH else cut_off.

(** The [while len(text) > 0] loop and the list [parts] it builds.  The
    loop has no bound of its own; [fuel] is the number of rounds it is
    followed for. *)
Fixpoint parts (fuel : nat) (text : pystr) : option (list pystr) :=
  if (0 <? length text)%nat then
    if (length text <=? MAX_LENGTH)%nat then Some [text]
    else
      match fuel with
      | O => None
      | S fuel' =>
          let cut := Z.to_nat (cut_off text) in
          rest ← parts fuel' (lstrip (skipn cut text));
          Some (firstn cut text :: rest)
      end
  else Some [].

(** One call of [update.message.reply_text]. *)
Record Reply := { reply_text : pystr; parse_mode : option pystr }.

(** [send_long_message(update, text, parse_mode)].  A short text is sent
    as it is, in the mode the caller asked for; the pieces of a long
    text are sent by [reply_text(part, parse_mode=part)]. *)
Definition send_long_message (text : pystr) (mode : option pystr) : option (list Reply) :=
  if (length text <=? MAX_LENGTH)%nat
  then Some [{| reply_text := text; parse_mode := mode |}]
  else
    pieces ← parts (length text) text;
    Some (map (fun part => {| reply_text := part; parse_mode := Some part |}) pieces).

(** The pieces with the white space dropped behind each of them. *)
Fixpoint rejoin (pieces gaps : list pystr) : pystr :=
  match pieces, gaps with
  | p :: pieces', g :: gaps' => p ++ g ++ rejoin pieces' gaps'
  | _, _ => []
  end.

Definition blank (gap : pystr) : bool := forallb isspace gap.

(** A text of [n] letters [a]. *)
Definition letters (n : nat) : pystr := repeat 97 n.

End Long.

(** ** The remaining handlers of [main.py]

    The commands [/start] and [/help], the inline buttons of the
    settings menu, photos and plain videos.  These handlers run against
    the same process state as the handlers of [Bot] and call some of
    them; what they do to the outside beyond the calls [Bot] knows is
    recorded in a list of its own, [outputs]. *)

Module Front.
Import Json Db Bot.

(** *** Python's [int] and [split] on the data of a button

    The data of an inline button is a [str]; it is kept as a [string],
    one character per code point below U+0100. *)

(** The white space [int] skips: what C calls a space, and, beyond
    ASCII, NEL and the no-break space. *)
Definition is_blank (c : ascii) : bool :=
  ((9 <=? ord c) && (ord c <=? 13)) || (ord c =? 32) || (ord c =? 133) || (ord c =? 160).

Fixpoint skip_blanks (s : text) : text :=
  match s with
  | c :: rest => if is_blank c then skip_blanks rest else s
  | [] => []
  end.

(** The scan of [long_from_string_base] over digits and single
    underscores between them: the value read, the number of digits, and
    what follows; [prev] tells that the last character was an
    underscore. *)
Fixpoint scan_decimal (s : text) (value : Z) (digits : nat) (prev : bool)
    : option (Z * nat * text) :=
  match s with
  | c :: rest =>
      if is_digit c then scan_decimal rest (10 * value + (ord c - 48)) (S digits) false
      else if Ascii.eqb c "_" then
        if prev then None else scan_decimal rest value digits true
      else if prev then None else Some (value, digits, s)
  | [] => if prev then None else Some (value, digits, [])
  end.

(** [sys.get_int_max_str_digits()]: a longer run of digits is refused. *)
Definition MAX_STR_DIGITS : nat := 4300.

(** [int(s)]: [None] stands for [ValueError]. *)
Definition int (s : string) : option Z :=
  let s1 := skip_blanks (list_ascii_of_string s) in
  let '(negative, s2) :=
    match s1 with
    | c :: rest =>
        if Ascii.eqb c "+" then (false, rest)
        else if Ascii.eqb c "-" then (true, rest)
        else (false, s1)
    | [] => (false, [])
    end in
  match s2 with
  | c :: _ =>
      if Ascii.eqb c "_" then None
      else
        '(value, digits, rest) ← scan_decimal s2 0 0 false;
        if (digits =? 0)%nat then None
        else if (MAX_STR_DIGITS <? digits)%nat then None
        else
          match skip_blanks rest with
          | [] => Some (if negative then - value else value)
          | _ :: _ => None
          end
  | [] => None
  end.

(** [s.split('_')[-1]]: what follows the last underscore. *)
Definition last_field (s : string) : string :=
  string_of_list_ascii
    (fold_left (fun field c => if Ascii.eqb c "_" then [] else field ++ [c])
               (list_ascii_of_string s) []).

(** [str(n)] *)
Definition str_of_int (n : Z) : string := string_of_list_ascii (encode_int n).

(** *** Outputs, environment, state *)

Inductive Alert : Type :=
| LimitSet (limit : Z)       (* the alert that the limit was set *)
| HistoryCleared.            (* the alert that the history was cleared *)

(** The fixed texts these handlers send. *)
Inductive Note : Type :=
| LimitMenu                  (* the choice of a limit, with its keyboard *)
| ClearedNote                (* the history is cleared, the menu may be closed *)
| Greeting                   (* the greeting of /start, with the main keyboard *)
| HelpText                   (* the help of /help *)
| PlainVideoNote             (* plain videos are not analysed yet *)
| PhotoTooLarge              (* the photo is too large *)
| PhotoFailed.               (* the photo could not be handled *)

Inductive Output : Type :=
| Answered (alert : option Alert)
| EditedText (n : Note)
| Deleted
| Replied (n : Note)
| DownloadedBytes
| AskedWithImage (h : list Entry) (prompt : pystr).

Inductive Op : Type :=
| OpAnswer (alert : option Alert)
| OpEditText (n : Note)
| OpDelete
| OpReply (n : Note)
| OpSetLimit
| OpClearHistory
| OpDownloadBytes
| OpImageOpen.

Record Env := {
  core_env : Bot.Env;
  fault : Op -> option exn
}.

(** A press of an inline button: [query.from_user.id] and
    [query.data]. *)
Record CallbackQuery := { from_user : Z; data : string }.

(** A photo: the sender, the size of its largest rendition and its
    caption. *)
Record Photo := { sender : Z; photo_size : Z; caption : option pystr }.

Record State := {
  core : Bot.State;
  outputs : list Output
}.

Definition M (A : Type) : Type := State -> outcome A * State.

Definition ret {A} (a : A) : M A := fun s => (Value a, s).

Definition bind {A B} (m : M A) (k : A -> M B) : M B :=
  fun s =>
    match m s with
    | (Value a, s') => k a s'
    | (Returned, s') => (Returned, s')
    | (Raised e, s') => (Raised e, s')
    | (Diverged, s') => (Diverged, s')
    end.

#[global] Instance M_ret : MRet M := @ret.
#[global] Instance M_bind : MBind M := fun A B k m => bind m k.

Definition raise {A} (e : exn) : M A := fun s => (Raised e, s).
Definition return_ {A} : M A := fun s => (Returned, s).

(** A piece of [Bot] code, run on the process state. *)
Definition lift {A} (m : Bot.M A) : M A :=
  fun s =>
    let (o, c) := m (core s) in
    (o, {| core := c; outputs := outputs s |}).

Definition emit (o : Output) : M unit :=
  fun s => (Value tt, {| core := core s; outputs := outputs s ++ [o] |}).

Definition when (c : bool) (body : M unit) : M unit :=
  if c then body else ret tt.

Definition try_except (body : M unit) (handler : string -> M unit) : M unit :=
  fun s =>
    match body s with
    | (Raised (Exception msg), s') => handler msg s'
    | other => other
    end.

(** *** The prompts of a photo *)

Definition PROMPT_HEAD : pystr :=
   [1055; 1088; 1086; 1072; 1085; 1072; 1083; 1080; 1079; 1080; 1088; 1091; 1081; 32;
    1101; 1090; 1086; 32; 1080; 1079; 1086; 1073; 1088; 1072; 1078; 1077; 1085; 1080;
    1077; 32; 1080; 32; 1086; 1090; 1074; 1077; 1090; 1100; 32; 1085; 1072; 32; 1089;
    1083; 1077; 1076; 1091; 1102; 1097; 1080; 1081; 32; 1074; 1086; 1087; 1088; 1086;
    1089; 32; 1080; 1083; 1080; 32; 1074; 1099; 1087; 1086; 1083; 1085; 1080; 32;
    1087; 1088; 1086; 1089; 1100; 1073; 1091; 58; 32; 39].

Definition PROMPT_TAIL : pystr :=
   [39; 46; 32; 1057; 1085; 1072; 1095; 1072; 1083; 1072; 32; 1082; 1088; 1072; 1090;
    1082; 1086; 32; 1086; 1087; 1080; 1096; 1080; 44; 32; 1095; 1090; 1086; 32; 1090;
    1099; 32; 1074; 1080; 1076; 1080; 1096; 1100; 32; 1085; 1072; 32; 1092; 1086;
    1090; 1086; 44; 32; 1072; 32; 1079; 1072; 1090; 1077; 1084; 32; 1076; 1072; 1081;
    32; 1088; 1072; 1079; 1074; 1077; 1088; 1085; 1091; 1090; 1099; 1081; 32; 1086;
    1090; 1074; 1077; 1090; 46].

Definition DEFAULT_PROMPT : pystr :=
   [1054; 1087; 1080; 1096; 1080; 32; 1087; 1086; 1076; 1088; 1086; 1073; 1085; 1086;
    44; 32; 1095; 1090; 1086; 32; 1080; 1079; 1086; 1073; 1088; 1072; 1078; 1077;
    1085; 1086; 32; 1085; 1072; 32; 1101; 1090; 1086; 1081; 32; 1082; 1072; 1088;
    1090; 1080; 1085; 1082; 1077; 63].

(** [if user_caption]: a caption that is there and not empty. *)
Definition truthy (c : option pystr) : bool :=
  match c with
  | Some (_ :: _) => true
  | _ => false
  end.

(** The pair of [prompt] and [log_prompt]. *)
Definition prompts (user_caption : option pystr) : pystr * pystr :=
  match user_caption with
  | Some (c :: rest) => (PROMPT_HEAD ++ (c :: rest) ++ PROMPT_TAIL, c :: rest)
  | _ => (DEFAULT_PROMPT, DEFAULT_PROMPT)
  end.

Section Handlers.
Variable env : Env.

Definition call (op : Op) : M unit :=
  match fault env op with
  | Some e => raise e
  | None => ret tt
  end.

Definition reply (n : Note) : M unit := call (OpReply n) ;; emit (Replied n).
Definition edit_message_text (n : Note) : M unit :=
  call (OpEditText n) ;; emit (EditedText n).
Definition answer (alert : option Alert) : M unit :=
  call (OpAnswer alert) ;; emit (Answered alert).

(** [db.set_history_limit]: the binding of [sqlite3] refuses an integer
    that does not fit 64 bits. *)
Definition db_set_history_limit (user_id : Z) (limit : Z) : M unit :=
  call OpSetLimit ;;
  if (- 2 ^ 63 <=? limit) && (limit <? 2 ^ 63)
  then lift (modify (with_database (set_history_limit user_id limit)))
  else raise (Exception "OverflowError").

Definition db_clear_history (user_id : Z) : M unit :=
  call OpClearHistory ;;
  lift (modify (with_database (clear_history user_id))).

(** The update of a press, as [settings_menu] reads it. *)
Definition update_of (query : CallbackQuery) : Update :=
  {| effective_user := from_user query; message_text := [];
     file_size := 0; callback_query := true |}.

Definition settings_limit_menu : M unit := edit_message_text LimitMenu.

Definition button_callback_handler (query : CallbackQuery) : M unit :=
  answer None ;;
  let user_id := from_user query in
  let callback_data := data query in
  if String.eqb callback_data "settings_main_menu" then
    lift (settings_menu (core_env env) (update_of query))
  else if String.eqb callback_data "settings_limit_menu" then
    settings_limit_menu
  else if String.prefix "set_limit_" callback_data then
    match int (last_field callback_data) with
    | None => raise (Exception "ValueError")
    | Some limit =>
        db_set_history_limit user_id limit ;;
        answer (Some (LimitSet limit)) ;;
        lift (settings_menu (core_env env) (update_of query))
    end
  else if String.eqb callback_data "settings_clear" then
    db_clear_history user_id ;;
    answer (Some HistoryCleared) ;;
    edit_message_text ClearedNote
  else if String.eqb callback_data "settings_close" then
    call OpDelete ;; emit Deleted
  else ret tt.

Definition start (user : Z) : M unit :=
  db_clear_history user ;;
  lift (log INFO) ;;
  reply Greeting.

Definition help_command : M unit := reply HelpText.

Definition handle_video : M unit :=
  lift (log INFO) ;;
  reply PlainVideoNote.

(** [chat.send_message_async([prompt, img])] and [response.text] *)
Definition generate_with_image (h : list Entry) (prompt : pystr) : M pystr :=
  emit (AskedWithImage h prompt) ;;
  lift (Bot.call (core_env env) OpGenerate) ;;
  ret (response_text (core_env env)).

Definition handle_photo (photo : Photo) : M unit :=
  let cenv := core_env env in
  let user_id := sender photo in
  on_cooldown ← lift (is_user_on_cooldown cenv user_id "photo");
  when on_cooldown return_ ;;
  try_except
    (when (photo_size photo >? MAX_FILE_SIZE) (reply PhotoTooLarge ;; return_) ;;
     lift (update_user_timestamp cenv user_id) ;;
     when (negb (model_loaded cenv)) return_ ;;
     let user_caption := caption photo in
     let '(prompt, log_prompt) := prompts user_caption in
     lift (log INFO) ;;
     lift (Bot.call cenv OpChatAction) ;; lift (Bot.emit (ChatAction "typing")) ;;
     lift (Bot.emit TelegramGetFile) ;; lift (Bot.call cenv OpTelegramGetFile) ;;
     call OpDownloadBytes ;; emit DownloadedBytes ;;
     call OpImageOpen ;;
     user_history ← lift (db_get_history cenv user_id);
     full_response_text ← generate_with_image user_history prompt;
     lift (db_add_message_to_history cenv (insert_time_user cenv) user_id "user"
             (text_part log_prompt)) ;;
     lift (db_add_message_to_history cenv (insert_time_model cenv) user_id "model"
             (text_part full_response_text)) ;;
     lift (send_long_message cenv (ModelReply full_response_text)))
    (fun _ => lift (log ERROR) ;; reply PhotoFailed).

End Handlers.

(** A state in which these handlers have not run yet. *)
Definition fresh (s : Bot.State) : State := {| core := s; outputs := [] |}.

(** An environment in which none of their calls raises. *)
Definition quiet (cenv : Bot.Env) : Env :=
  {| core_env := cenv; fault := fun _ => None |}.

(** The alerts cannot be delivered. *)
Definition alert_fails (cenv : Bot.Env) : Env :=
  {| core_env := cenv;
     fault := fun op => match op with
                        | OpAnswer (Some _) => Some (Exception "Query is too old")
                        | _ => None
                        end |}.

End Front.
(** * Facts about the codec: [loads] inverts [dumps] *)

Import Json Db Bot Examples.

Lemma ord_chr n : 0 <= n < 256 -> ord (chr n) = n.
Proof.
  intros Hn. unfold ord, chr.
  rewrite N_ascii_embedding; lia.
Qed.

Lemma ord_bounded c : 0 <= ord c < 256.
Proof.
  unfold ord. pose proof (N_ascii_bounded c). lia.
Qed.

Lemma ord_inj c d : ord c = ord d -> c = d.
Proof.
  unfold ord. intros H.
  rewrite <- (ascii_N_embedding c), <- (ascii_N_embedding d).
  f_equal. lia.
Qed.

Lemma eqb_ord c d : Ascii.eqb c d = (ord c =? ord d).
Proof.
  destruct (Ascii.eqb_spec c d) as [-> | Hne].
  - symmetry. apply Z.eqb_refl.
  - symmetry. apply Z.eqb_neq. intros H. apply Hne, ord_inj, H.
Qed.

(** Tests on the characters the encoder emits are settled on their
    codes. *)
Ltac by_code :=
  rewrite ?eqb_ord, ?ord_chr by lia;
  repeat match goal with
         | |- context [ord ?c] =>
             lazymatch c with
             | chr _ => fail
             | _ => let v := eval vm_compute in (ord c) in
                    change (ord c) with v
             end
         end.

Lemma unhex_hexdigit d : 0 <= d < 16 -> unhex (hexdigit d) = Some d.
Proof.
  intros Hd.
  assert (Hcases : d = 0 \/ d = 1 \/ d = 2 \/ d = 3 \/ d = 4 \/ d = 5 \/ d = 6 \/ d = 7 \/
                   d = 8 \/ d = 9 \/ d = 10 \/ d = 11 \/ d = 12 \/ d = 13 \/ d = 14 \/ d = 15)
    by lia.
  repeat (destruct Hcases as [-> | Hcases]; [reflexivity |]).
  subst d. reflexivity.
Qed.

Lemma decode_hex4 n :
  0 <= n < 65536 ->
  decode_uXXXX (hexdigit (n / 4096 mod 16)) (hexdigit (n / 256 mod 16))
               (hexdigit (n / 16 mod 16)) (hexdigit (n mod 16)) = Some n.
Proof.
  intros Hn. unfold decode_uXXXX.
  rewrite !unhex_hexdigit by (apply Z.mod_pos_bound; lia).
  cbn [mbind option_bind]. f_equal.
  Z.div_mod_to_equations. lia.
Qed.

Lemma land_shiftl_low h l : 0 <= l < 1024 -> Z.land (Z.shiftl h 10) l = 0.
Proof.
  intros Hl. apply Z.bits_inj'. intros i Hi.
  rewrite Z.land_spec, Z.bits_0.
  destruct (Z.lt_ge_cases i 10) as [Hlt | Hge].
  - rewrite Z.shiftl_spec_low by assumption. reflexivity.
  - assert (Z.testbit l i = false) as ->; [| apply andb_false_r].
    destruct (Z.eq_dec l 0) as [-> | Hnz]; [apply Z.bits_0 |].
    apply Z.bits_above_log2; [lia |].
    assert (Z.log2 l < 10) by (apply Z.log2_lt_pow2; lia).
    lia.
Qed.

Lemma lor_high_low h l : 0 <= l < 1024 -> Z.lor (h * 1024) l = h * 1024 + l.
Proof.
  intros Hl.
  pose proof (Z.add_lor_land (h * 1024) l) as Hadd.
  replace (h * 1024) with (Z.shiftl h 10) in * by (rewrite Z.shiftl_mul_pow2; lia).
  rewrite land_shiftl_low in Hadd by assumption. lia.
Qed.

(** The two halves of a surrogate pair, and the code point read back
    from them. *)
Lemma surrogate_pair c :
  65536 <= c < 1114112 ->
  let n := c - 65536 in
  let s1 := Z.lor 55296 (Z.land (Z.shiftr n 10) 1023) in
  let s2 := Z.lor 56320 (Z.land n 1023) in
  55296 <= s1 <= 56319 /\ 56320 <= s2 <= 57343 /\
  65536 + Z.lor (Z.shiftl (s1 - 55296) 10) (s2 - 56320) = c.
Proof.
  intros Hc n s1 s2.
  assert (Hn : 0 <= n < 1048576) by (unfold n; lia).
  assert (Hhi : Z.land (Z.shiftr n 10) 1023 = n / 1024).
  { change 1023 with (Z.ones 10). rewrite Z.land_ones by lia.
    rewrite Z.shiftr_div_pow2 by lia. change (2 ^ 10) with 1024.
    apply Z.mod_small. Z.div_mod_to_equations. lia. }
  assert (Hlo : Z.land n 1023 = n mod 1024).
  { change 1023 with (Z.ones 10). rewrite Z.land_ones by lia. reflexivity. }
  assert (Hs1 : s1 = 55296 + n / 1024).
  { unfold s1. rewrite Hhi. change 55296 with (54 * 1024).
    apply lor_high_low. Z.div_mod_to_equations. lia. }
  assert (Hs2 : s2 = 56320 + n mod 1024).
  { unfold s2. rewrite Hlo. change 56320 with (55 * 1024).
    apply lor_high_low. apply Z.mod_pos_bound. lia. }
  rewrite Hs1, Hs2.
  replace (55296 + n / 1024 - 55296) with (n / 1024) by lia.
  replace (56320 + n mod 1024 - 56320) with (n mod 1024) by lia.
  rewrite Z.shiftl_mul_pow2 by lia. change (2 ^ 10) with 1024.
  rewrite lor_high_low by (apply Z.mod_pos_bound; lia).
  unfold n in *. Z.div_mod_to_equations. lia.
Qed.

Lemma scanstring_escape_single h1 h2 h3 h4 uni rest :
  decode_uXXXX h1 h2 h3 h4 = Some uni ->
  is_high_surrogate uni = false ->
  scanstring (backslash :: "u"%char :: h1 :: h2 :: h3 :: h4 :: rest)
  = then_cons uni (scanstring rest).
Proof.
  intros Hd Hs. cbn [scanstring]. 
  change (Ascii.eqb backslash quote) with false.
  change (Ascii.eqb backslash backslash) with true.
  change (Ascii.eqb "u" "u") with true. cbv iota.
  rewrite Hd. cbn [mbind option_bind]. rewrite Hs. reflexivity.
Qed.

Lemma scanstring_escape_pair h1 h2 h3 h4 l1 l2 l3 l4 hi lo rest :
  decode_uXXXX h1 h2 h3 h4 = Some hi ->
  decode_uXXXX l1 l2 l3 l4 = Some lo ->
  is_high_surrogate hi = true ->
  is_low_surrogate lo = true ->
  scanstring (backslash :: "u"%char :: h1 :: h2 :: h3 :: h4 ::
              backslash :: "u"%char :: l1 :: l2 :: l3 :: l4 :: rest)
  = then_cons (65536 + Z.lor (Z.shiftl (hi - 55296) 10) (lo - 56320)) (scanstring rest).
Proof.
  intros Hh Hl Hhs Hls. cbn [scanstring].
  change (Ascii.eqb backslash quote) with false.
  change (Ascii.eqb backslash backslash) with true.
  change (Ascii.eqb "u" "u") with true. cbv iota.
  rewrite Hh. cbn [mbind option_bind]. rewrite Hhs.
  cbn [andb]. rewrite Hl. cbn [mbind option_bind]. rewrite Hls. reflexivity.
Qed.

Lemma scanstring_plain c rest :
  32 <= c <= 126 -> c <> 34 -> c <> 92 ->
  scanstring (chr c :: rest) = then_cons c (scanstring rest).
Proof.
  intros Hc Hq Hb. cbn [scanstring].
  replace (Ascii.eqb (chr c) quote) with false
    by (by_code; symmetry; apply Z.eqb_neq; lia).
  replace (Ascii.eqb (chr c) backslash) with false
    by (by_code; symmetry; apply Z.eqb_neq; lia).
  rewrite ord_chr by lia.
  replace (c <? 32) with false by (symmetry; apply Z.ltb_ge; lia).
  reflexivity.
Qed.

Lemma scalar_value_spec c :
  scalar_value c = true -> 0 <= c < 1114112 /\ (c < 55296 \/ 57343 < c).
Proof.
  unfold scalar_value. intros H.
  apply andb_prop in H as [H Hs]. apply andb_prop in H as [H1 H2].
  apply negb_true_iff, andb_false_iff in Hs. lia.
Qed.

(** One character through the encoder and back. *)
Lemma scanstring_encode_char c rest :
  scalar_value c = true ->
  scanstring (encode_char c ++ rest) = then_cons c (scanstring rest).
Proof.
  intros Hc. apply scalar_value_spec in Hc as [Hr Hs].
  unfold encode_char.
  destruct (Z.eqb_spec c 92) as [-> | ?]; [reflexivity |].
  destruct (Z.eqb_spec c 34) as [-> | ?]; [reflexivity |].
  destruct (Z.eqb_spec c 8) as [-> | ?]; [reflexivity |].
  destruct (Z.eqb_spec c 12) as [-> | ?]; [reflexivity |].
  destruct (Z.eqb_spec c 10) as [-> | ?]; [reflexivity |].
  destruct (Z.eqb_spec c 13) as [-> | ?]; [reflexivity |].
  destruct (Z.eqb_spec c 9) as [-> | ?]; [reflexivity |].
  destruct ((32 <=? c) && (c <=? 126)) eqn:Hp.
  - apply andb_prop in Hp as [? ?]. apply scanstring_plain; lia.
  - apply andb_false_iff in Hp.
    destruct (Z.ltb_spec c 65536) as [Hbmp | Hastral].
    + apply scanstring_escape_single.
      * apply decode_hex4. lia.
      * unfold is_high_surrogate. apply andb_false_iff. lia.
    + destruct (surrogate_pair c) as (H1 & H2 & Hback); [lia |].
      cbv zeta in *. unfold u_escape, hex4. cbn [app].
      erewrite scanstring_escape_pair.
      * rewrite Hback. reflexivity.
      * apply decode_hex4. lia.
      * apply decode_hex4. lia.
      * unfold is_high_surrogate. apply andb_true_intro. lia.
      * unfold is_low_surrogate. apply andb_true_intro. lia.
Qed.

Lemma scanstring_encode_chars s rest :
  text_ok s = true ->
  scanstring (encode_chars s ++ quote :: rest) = Some (s, rest).
Proof.
  induction s as [| c s IH]; intros Hs.
  - reflexivity.
  - cbn [text_ok forallb] in Hs. apply andb_prop in Hs as [Hc Hs].
    unfold encode_chars in *. cbn [map concat]. rewrite <- app_assoc.
    rewrite scanstring_encode_char by assumption.
    rewrite IH by assumption. reflexivity.
Qed.


(** *** Integers *)

Lemma digit_char_spec d :
  0 <= d < 10 -> is_digit (digit_char d) = true /\ ord (digit_char d) - 48 = d.
Proof.
  intros Hd. unfold is_digit, digit_char. rewrite ord_chr by lia.
  split; [apply andb_true_intro; lia | lia].
Qed.

Lemma is_digit_spec c : is_digit c = true -> 48 <= ord c <= 57.
Proof.
  unfold is_digit. intros H. apply andb_prop in H. lia.
Qed.

Lemma to_digits_app fuel : forall n acc rest,
  to_digits fuel n acc ++ rest = to_digits fuel n (acc ++ rest).
Proof.
  induction fuel as [| f IH]; intros n acc rest; cbn [to_digits].
  - reflexivity.
  - destruct (n <? 10); [reflexivity | apply IH].
Qed.

Lemma scan_digits_to_digits fuel : forall n acc,
  0 <= n < 2 ^ Z.of_nat fuel ->
  scan_digits 0 (to_digits fuel n acc) = scan_digits n acc.
Proof.
  induction fuel as [| f IH]; intros n acc Hn.
  - cbn in Hn. assert (n = 0) as -> by lia. reflexivity.
  - rewrite Nat2Z.inj_succ, Z.pow_succ_r in Hn by lia.
    cbn [to_digits].
    destruct (digit_char_spec (n mod 10)) as [Hd Hv];
      [apply Z.mod_pos_bound; lia |].
    destruct (Z.ltb_spec n 10) as [Hsmall | Hbig].
    + cbn [scan_digits]. rewrite Hd, Hv, Z.mod_small by lia.
      f_equal; lia.
    + rewrite IH by (Z.div_mod_to_equations; lia).
      cbn [scan_digits]. rewrite Hd, Hv.
      f_equal. Z.div_mod_to_equations. lia.
Qed.

Lemma to_digits_head fuel : forall n acc,
  0 < n < 2 ^ Z.of_nat fuel ->
  exists c t, to_digits fuel n acc = c :: t /\ is_digit c = true /\ Ascii.eqb c "0" = false.
Proof.
  induction fuel as [| f IH]; intros n acc Hn.
  - cbn in Hn. lia.
  - rewrite Nat2Z.inj_succ, Z.pow_succ_r in Hn by lia.
    cbn [to_digits].
    destruct (Z.ltb_spec n 10) as [Hsmall | Hbig].
    + exists (digit_char (n mod 10)), acc. split; [reflexivity |].
      rewrite Z.mod_small by lia. split.
      * apply digit_char_spec. lia.
      * unfold digit_char. by_code. apply Z.eqb_neq. lia.
    + apply IH. Z.div_mod_to_equations. lia.
Qed.

Lemma log2_fuel n : 0 <= n -> n < 2 ^ Z.of_nat (S (Z.to_nat (Z.log2 n))).
Proof.
  intros Hn. rewrite Nat2Z.inj_succ, Z2Nat.id by apply Z.log2_nonneg.
  destruct (Z.eq_dec n 0) as [-> | Hnz]; [reflexivity |].
  apply Z.log2_spec. lia.
Qed.

Lemma scan_digits_stop n rest :
  number_end rest = true -> scan_digits n rest = (n, rest).
Proof.
  destruct rest as [| c rest]; [reflexivity |].
  cbn [number_end scan_digits]. intros H. apply andb_prop in H as [H _].
  apply negb_true_iff in H. rewrite H. reflexivity.
Qed.

Lemma digit_is_not c x :
  is_digit c = true -> ord x < 48 \/ 57 < ord x -> Ascii.eqb c x = false.
Proof.
  intros Hc Hx. apply is_digit_spec in Hc.
  rewrite eqb_ord. apply Z.eqb_neq. lia.
Qed.

Lemma scan_int_decimal n rest :
  0 <= n -> number_end rest = true ->
  scan_int (decimal n ++ rest) = Some (n, rest).
Proof.
  intros Hn Hrest. unfold decimal.
  destruct (Z.eq_dec n 0) as [-> | Hnz]; [reflexivity |].
  rewrite to_digits_app. cbn [app].
  destruct (to_digits_head (S (Z.to_nat (Z.log2 n))) n rest) as (c & t & Heq & Hd & Hz).
  { split; [lia | apply log2_fuel; lia]. }
  pose proof (scan_digits_to_digits (S (Z.to_nat (Z.log2 n))) n rest) as Hscan.
  rewrite Heq in *. unfold scan_int. rewrite Hz, Hd.
  rewrite Hscan by (split; [lia | apply log2_fuel; lia]).
  rewrite scan_digits_stop by assumption. reflexivity.
Qed.

Lemma decimal_head n :
  0 <= n -> exists c t, decimal n = c :: t /\ is_digit c = true.
Proof.
  intros Hn. destruct (Z.eq_dec n 0) as [-> | Hnz].
  - exists "0"%char, []. split; reflexivity.
  - destruct (to_digits_head (S (Z.to_nat (Z.log2 n))) n []) as (c & t & Heq & Hd & _).
    { split; [lia | apply log2_fuel; lia]. }
    exists c, t. split; assumption.
Qed.

Lemma encode_int_head n :
  exists c t, encode_int n = c :: t /\ (is_digit c = true \/ c = "-"%char).
Proof.
  unfold encode_int. destruct (Z.ltb_spec n 0).
  - eexists _, _. split; [reflexivity | right; reflexivity].
  - destruct (decimal_head n) as (c & t & Heq & Hd); [lia |].
    exists c, t. split; [assumption | left; assumption].
Qed.

Lemma number_end_not_fraction rest :
  number_end rest = true -> starts_fraction rest = false.
Proof.
  destruct rest as [| c rest]; [reflexivity |].
  cbn [number_end]. intros H. apply andb_prop in H as [_ H].
  apply negb_true_iff in H. exact H.
Qed.

Lemma scan_number_encode_int n rest :
  number_end rest = true ->
  scan_number (encode_int n ++ rest) = Some (PyInt n, rest).
Proof.
  intros Hrest. pose proof (number_end_not_fraction rest Hrest) as Hfrac.
  unfold encode_int. destruct (Z.ltb_spec n 0) as [Hneg | Hpos].
  - cbn [app]. unfold scan_number.
    change (Ascii.eqb "-" "-") with true. cbv iota beta.
    rewrite scan_int_decimal by (assumption || lia).
    cbn [mbind option_bind]. rewrite Hfrac.
    do 3 f_equal. lia.
  - destruct (decimal_head n) as (c & t & Heq & Hd); [lia |].
    unfold scan_number. rewrite Heq. cbn [app].
    rewrite (digit_is_not c "-"%char) by (assumption || (left; reflexivity)).
    rewrite app_comm_cons, <- Heq.
    rewrite scan_int_decimal by (assumption || lia).
    cbn [mbind option_bind]. rewrite Hfrac. reflexivity.
Qed.


(** *** Dictionaries *)

Lemma distinct_NoDup ks : distinct ks = true <-> NoDup ks.
Proof.
  induction ks as [| k ks IH]; cbn [distinct].
  - split; [constructor | reflexivity].
  - rewrite andb_true_iff, negb_true_iff, bool_decide_eq_false, IH.
    symmetry. apply NoDup_cons.
Qed.

Lemma dict_set_fresh k v d :
  k ∉ map fst d -> dict_set k v d = d ++ [(k, v)].
Proof.
  induction d as [| [k' v'] d IH]; intros Hk; cbn [dict_set app].
  - reflexivity.
  - cbn [map fst] in Hk. apply not_elem_of_cons in Hk as [Hne Hk].
    destruct (decide (k = k')) as [-> | _]; [contradiction |].
    rewrite IH by assumption. reflexivity.
Qed.

Lemma dict_fold_distinct l : forall acc,
  NoDup (map fst (acc ++ l)) ->
  fold_left (fun d kv => dict_set (fst kv) (snd kv) d) l acc = acc ++ l.
Proof.
  induction l as [| [k v] l IH]; intros acc Hnd; cbn [fold_left].
  - symmetry. apply app_nil_r.
  - cbn [fst snd]. rewrite dict_set_fresh.
    + rewrite IH; rewrite <- app_assoc; [reflexivity | exact Hnd].
    + rewrite map_app in Hnd. apply NoDup_app in Hnd as (_ & Hdisj & _).
      intros Hin. apply (Hdisj k Hin). cbn [map fst]. apply list_elem_of_here.
Qed.

Lemma dict_distinct l : distinct (map fst l) = true -> dict l = l.
Proof.
  intros H. unfold dict. apply dict_fold_distinct.
  cbn [app]. apply distinct_NoDup, H.
Qed.

(** *** First characters *)

Lemma skip_ws_head c t : is_ws c = false -> skip_ws (c :: t) = c :: t.
Proof.
  intros H. cbn [skip_ws]. rewrite H. reflexivity.
Qed.

Ltac outside_digits := (left; vm_compute; reflexivity) || (right; vm_compute; reflexivity).

Lemma digit_not_ws c : is_digit c = true -> is_ws c = false.
Proof.
  intros Hc. unfold is_ws.
  rewrite !(digit_is_not c) by (assumption || outside_digits). reflexivity.
Qed.

(** Every encoded value begins with a character that is neither white
    space nor a closing bracket. *)
Lemma dumps_head v :
  exists c t, dumps v = c :: t /\ is_ws c = false /\ Ascii.eqb c "]" = false.
Proof.
  destruct v as [| [] | n | s | l | d]; cbn [dumps];
    try (eexists _, _; split; [reflexivity | split; reflexivity]).
  destruct (encode_int_head n) as (c & t & Heq & [Hd | ->]).
  - exists c, t. split; [assumption |]. split.
    + apply digit_not_ws, Hd.
    + apply digit_is_not; [assumption | outside_digits].
  - exists "-"%char, t. split; [assumption |]. split; reflexivity.
Qed.

Lemma skip_ws_dumps v rest : skip_ws (dumps v ++ rest) = dumps v ++ rest.
Proof.
  destruct (dumps_head v) as (c & t & -> & Hws & _).
  cbn [app]. apply skip_ws_head, Hws.
Qed.

(** *** Unfolding the scanner on the first character *)

Lemma scan_once_string f s1 :
  scan_once (S f) (quote :: s1) = '(r, s') ← scanstring s1; Some (PyStr r, s').
Proof. reflexivity. Qed.

Lemma scan_once_elems f c2 s2 :
  is_ws c2 = false -> Ascii.eqb c2 "]" = false ->
  scan_once (S f) ("["%char :: c2 :: s2)
  = '(vs, s') ← scan_elems f (c2 :: s2); Some (PyList vs, s').
Proof.
  intros Hws Hclose. cbn [scan_once].
  change (Ascii.eqb "[" quote) with false.
  change (Ascii.eqb "[" "{") with false.
  change (Ascii.eqb "[" "[") with true. cbv iota.
  rewrite skip_ws_head by assumption. rewrite Hclose. reflexivity.
Qed.

Lemma scan_once_members f s2 :
  scan_once (S f) ("{"%char :: quote :: s2)
  = '(ps, s') ← scan_members f s2; Some (PyDict (dict ps), s').
Proof. reflexivity. Qed.

Lemma scan_once_number f c t :
  is_digit c = true \/ c = "-"%char ->
  scan_once (S f) (c :: t) = scan_number (c :: t).
Proof.
  intros [Hd | ->]; [| reflexivity].
  cbn [scan_once].
  rewrite !(digit_is_not c) by (assumption || outside_digits).
  reflexivity.
Qed.


(** *** The round trip *)

Lemma elems_text_cons v l :
  elems_text (v :: l)
  = dumps v ++ match l with [] => [] | _ :: _ => item_separator ++ elems_text l end.
Proof.
  unfold elems_text. cbn [map join].
  destruct l; [symmetry; apply app_nil_r | reflexivity].
Qed.

Lemma members_text_cons k v d :
  join item_separator (map (fun kv => encode_str (fst kv) ++ key_separator ++ dumps (snd kv)) ((k, v) :: d))
  = quote :: members_tail k v d.
Proof.
  revert k v. induction d as [| [k' v'] d IH]; intros k v.
  - cbn [map join members_tail fst snd]. unfold encode_str.
    cbn [app]. rewrite <- !app_assoc. cbn [app]. rewrite app_nil_r. reflexivity.
  - change (map ?f ((k, v) :: (k', v') :: d)) with (f (k, v) :: map f ((k', v') :: d)).
    cbn [join]. rewrite IH. cbn [members_tail fst snd]. unfold encode_str.
    cbn [app]. rewrite <- !app_assoc. reflexivity.
Qed.

Lemma number_end_close rest c :
  c = "]"%char \/ c = "}"%char \/ c = ","%char -> number_end (c :: rest) = true.
Proof. intros [-> | [-> | ->]]; reflexivity. Qed.

Lemma scan_elems_last f s v rest :
  scan_once f s = Some (v, "]"%char :: rest) ->
  scan_elems (S f) s = Some ([v], rest).
Proof. intros H. cbn [scan_elems]. rewrite H. reflexivity. Qed.

Lemma scan_elems_more f s v s2 :
  scan_once f s = Some (v, ","%char :: " "%char :: s2) ->
  scan_elems (S f) s = '(vs, s') ← scan_elems f (skip_ws s2); Some (v :: vs, s').
Proof. intros H. cbn [scan_elems]. rewrite H. reflexivity. Qed.

Lemma scan_members_last f s k v s2 rest :
  scanstring s = Some (k, ":"%char :: " "%char :: s2) ->
  scan_once f (skip_ws s2) = Some (v, "}"%char :: rest) ->
  scan_members (S f) s = Some ([(k, v)], rest).
Proof.
  intros Hk Hv. cbn [scan_members]. rewrite Hk.
  cbn [mbind option_bind]. change (skip_ws (":"%char :: " "%char :: s2)) with (":"%char :: " "%char :: s2).
  change (Ascii.eqb ":" ":") with true. cbv iota.
  change (skip_ws (" "%char :: s2)) with (skip_ws s2).
  rewrite Hv. reflexivity.
Qed.

Lemma scan_members_more f s k v s2 s5 :
  scanstring s = Some (k, ":"%char :: " "%char :: s2) ->
  scan_once f (skip_ws s2) = Some (v, ","%char :: " "%char :: quote :: s5) ->
  scan_members (S f) s = '(ps, s') ← scan_members f s5; Some ((k, v) :: ps, s').
Proof.
  intros Hk Hv. cbn [scan_members]. rewrite Hk.
  cbn [mbind option_bind]. change (skip_ws (":"%char :: " "%char :: s2)) with (":"%char :: " "%char :: s2).
  change (Ascii.eqb ":" ":") with true. cbv iota.
  change (skip_ws (" "%char :: s2)) with (skip_ws s2).
  rewrite Hv. reflexivity.
Qed.

Lemma scan_roundtrip fuel :
  (forall v rest,
      json_native v = true -> (size v <= fuel)%nat -> number_end rest = true ->
      scan_once fuel (dumps v ++ rest) = Some (v, rest))
  /\ (forall v l rest,
      forallb json_native (v :: l) = true -> (elems_size (v :: l) <= fuel)%nat ->
      scan_elems fuel (elems_text (v :: l) ++ "]"%char :: rest) = Some (v :: l, rest))
  /\ (forall k v d rest,
      forallb member_ok ((k, v) :: d) = true -> (members_size ((k, v) :: d) <= fuel)%nat ->
      scan_members fuel (members_tail k v d ++ "}"%char :: rest) = Some ((k, v) :: d, rest)).
Proof.
  induction fuel as [| f (IHv & IHl & IHd)].
  { repeat split.
    - intros v rest _ Hsize _. destruct v; cbn in Hsize; lia.
    - intros v l rest _ Hsize. cbn in Hsize. lia.
    - intros k v d rest _ Hsize. cbn in Hsize. lia. }
  repeat split.
  - (* one value *)
    intros v rest Hok Hsize Hrest.
    destruct v as [| [] | n | s | [| v l] | [| [k v] d]]; try reflexivity.
    + destruct (encode_int_head n) as (c & t & Heq & Hc).
      cbn [dumps]. pose proof (scan_number_encode_int n rest Hrest) as Hnum.
      rewrite Heq in *. cbn [app] in *.
      rewrite scan_once_number by assumption. exact Hnum.
    + cbn [dumps json_native] in *. unfold encode_str. cbn [app].
      rewrite <- app_assoc. cbn [app].
      rewrite scan_once_string, scanstring_encode_chars by assumption.
      reflexivity.
    + cbn [dumps]. fold (elems_text (v :: l)).
      cbn [app]. rewrite <- app_assoc. cbn [app].
      pose proof (IHl v l rest) as Hl.
      rewrite elems_text_cons in *.
      destruct (dumps_head v) as (c & t & Heq & Hws & Hclose).
      rewrite Heq in *. rewrite <- !app_assoc in *. cbn [app] in *.
      rewrite scan_once_elems by assumption.
      rewrite Hl; [reflexivity | exact Hok |].
      cbn [size] in Hsize. fold (elems_size (v :: l)) in Hsize. lia.
    + cbn [dumps]. rewrite members_text_cons.
      cbn [app]. rewrite <- app_assoc. cbn [app].
      cbn [json_native] in Hok. apply andb_prop in Hok as [Hkeys Hmem].
      rewrite scan_once_members, IHd.
      * cbn [mbind option_bind]. rewrite dict_distinct by assumption. reflexivity.
      * exact Hmem.
      * cbn [size] in Hsize. fold (members_size ((k, v) :: d)) in Hsize. lia.
  - (* the items of a list *)
    intros v l rest Hok Hsize.
    cbn [forallb] in Hok. apply andb_prop in Hok as [Hv Hl].
    cbn [elems_size fold_right] in Hsize. fold (elems_size l) in Hsize.
    rewrite elems_text_cons, <- app_assoc.
    destruct l as [| v' l].
    + apply scan_elems_last. cbn [app].
      apply IHv; [assumption | lia | apply number_end_close; auto].
    + change item_separator with [","%char; " "%char].
      rewrite <- app_assoc. cbn [app].
      erewrite scan_elems_more;
        [| apply IHv; [assumption | lia | apply number_end_close; auto]].
      rewrite elems_text_cons at 1. rewrite <- app_assoc, skip_ws_dumps.
      rewrite app_assoc, <- elems_text_cons.
      rewrite IHl; [reflexivity | exact Hl | lia].
  - (* the members of a dictionary *)
    intros k v d rest Hok Hsize.
    cbn [forallb] in Hok. apply andb_prop in Hok as [Hkv Hd].
    unfold member_ok in Hkv. cbn [fst snd] in Hkv. apply andb_prop in Hkv as [Hk Hv].
    cbn [members_size fold_right snd] in Hsize. fold (members_size d) in Hsize.
    destruct d as [| [k' v'] d]; cbn [members_tail fst snd];
      change key_separator with [":"%char; " "%char];
      change item_separator with [","%char; " "%char];
      repeat (rewrite <- app_assoc; cbn [app]).
    + eapply scan_members_last.
      * apply scanstring_encode_chars, Hk.
      * rewrite skip_ws_dumps.
        apply IHv; [assumption | lia | apply number_end_close; auto].
    + erewrite scan_members_more.
      * rewrite IHd; [reflexivity | exact Hd | lia].
      * apply scanstring_encode_chars, Hk.
      * rewrite skip_ws_dumps.
        apply IHv; [assumption | lia | apply number_end_close; auto].
Qed.

Lemma value_nested_ind (P : value -> Prop) :
  P PyNone -> (forall b, P (PyBool b)) -> (forall n, P (PyInt n)) ->
  (forall s, P (PyStr s)) ->
  (forall l, Forall P l -> P (PyList l)) ->
  (forall d, Forall (fun kv => P (snd kv)) d -> P (PyDict d)) ->
  forall v, P v.
Proof.
  intros HNone HBool HInt HStr HList HDict.
  fix IH 1. intros [| b | n | s | l | d].
  - exact HNone.
  - apply HBool.
  - apply HInt.
  - apply HStr.
  - apply HList. induction l as [| x l IHl]; constructor; [apply IH | exact IHl].
  - apply HDict. induction d as [| [k x] d IHd]; constructor; [apply IH | exact IHd].
Qed.

Lemma join_length_bound {A} (f : A -> text) (g : A -> nat) (l : list A) :
  Forall (fun x => (g x <= length (f x))%nat) l ->
  (fold_right (fun x n => S (g x + n)) 0 l
   <= length (join item_separator (map f l)) + 1)%nat.
Proof.
  induction 1 as [| x l Hx Hl IH]; [cbn; lia |].
  destruct l as [| y l].
  - cbn [map join fold_right]. lia.
  - change (map f (x :: y :: l)) with (f x :: map f (y :: l)).
    cbn [join fold_right] in *.
    destruct (map f (y :: l)) eqn:Heq; [discriminate |].
    rewrite !length_app. change (length item_separator) with 2%nat. lia.
Qed.

(** The encoded text is at least as long as the value has nodes, so the
    fuel [loads] hands to the scanner suffices. *)
Lemma size_le_length v : (size v <= length (dumps v))%nat.
Proof.
  induction v as [| [] | n | s | l IH | d IH] using value_nested_ind;
    try (cbn; lia).
  - destruct (encode_int_head n) as (c & t & Heq & _).
    cbn [size dumps]. rewrite Heq. cbn [length]. lia.
  - cbn [size dumps length]. rewrite length_app. cbn [length].
    pose proof (join_length_bound dumps size l IH). lia.
  - cbn [size dumps length]. rewrite length_app. cbn [length].
    pose proof (join_length_bound
                  (fun kv => encode_str (fst kv) ++ key_separator ++ dumps (snd kv))
                  (fun kv => size (snd kv)) d) as Hb.
    cbv beta in Hb. 
    assert (Hall : Forall (fun kv : pystr * value =>
               (size (snd kv) <= length (encode_str (fst kv) ++ key_separator ++ dumps (snd kv)))%nat) d).
    { eapply Forall_impl; [exact IH |]. intros kv Hkv. cbv beta in Hkv.
      rewrite !length_app. lia. }
    specialize (Hb Hall). apply le_n_S. exact Hb.
Qed.

(** [json.loads(json.dumps(v)) == v] for every value of the modelled
    fragment. *)
Lemma loads_dumps v : json_native v = true -> loads (dumps v) = Some v.
Proof.
  intros Hv. unfold loads.
  rewrite <- (app_nil_r (dumps v)) at 2. rewrite skip_ws_dumps.
  destruct (scan_roundtrip (S (length (dumps v)))) as [Hscan _].
  rewrite Hscan; [reflexivity | assumption | | reflexivity].
  pose proof (size_le_length v). lia.
Qed.

(** * Facts about the history store *)

(** *** The sorter meets the contract of [ORDER BY timestamp DESC] *)

Lemma sorter_insert_perm r sorted : Permutation (sorter_insert r sorted) (r :: sorted).
Proof.
  induction sorted as [| x rest IH]; cbn [sorter_insert].
  - reflexivity.
  - destruct (timestamp r <=? timestamp x); [| reflexivity].
    rewrite IH. apply Permutation_swap.
Qed.

Lemma fold_sorter_perm rows : forall acc,
  Permutation (fold_left (fun sorted r => sorter_insert r sorted) rows acc) (acc ++ rows).
Proof.
  induction rows as [| r rows IH]; intros acc; cbn [fold_left].
  - rewrite app_nil_r. reflexivity.
  - rewrite IH, sorter_insert_perm. cbn [app].
    apply Permutation_middle.
Qed.

Lemma order_by_perm rows : Permutation (order_by_timestamp_desc rows) rows.
Proof. apply (fold_sorter_perm rows []). Qed.

Lemma order_by_length rows : length (order_by_timestamp_desc rows) = length rows.
Proof. apply Permutation_length, order_by_perm. Qed.

Lemma sorter_insert_descending r sorted :
  descending sorted -> descending (sorter_insert r sorted).
Proof.
  induction sorted as [| x rest IH]; cbn [sorter_insert descending].
  - intros _. split; [constructor | exact I].
  - intros [Hx Hrest].
    destruct (Z.leb_spec (timestamp r) (timestamp x)) as [Hle | Hgt].
    + cbn [descending]. split; [| apply IH, Hrest].
      rewrite sorter_insert_perm. constructor; assumption.
    + cbn [descending]. repeat split; [| assumption | assumption].
      constructor; [lia |].
      eapply Forall_impl; [exact Hx |]. intros y Hy. cbv beta in Hy. lia.
Qed.

Lemma order_by_descending rows : descending (order_by_timestamp_desc rows).
Proof.
  unfold order_by_timestamp_desc.
  assert (H : forall acc, descending acc ->
            descending (fold_left (fun sorted r => sorter_insert r sorted) rows acc)).
  { induction rows as [| r rows IH]; intros acc Hacc; cbn [fold_left].
    - exact Hacc.
    - apply IH, sorter_insert_descending, Hacc. }
  apply H. exact I.
Qed.

(** Rows stamped in strictly increasing seconds come out newest first. *)
Lemma sorter_insert_newest r sorted :
  older_head sorted (timestamp r) -> sorter_insert r sorted = r :: sorted.
Proof.
  destruct sorted as [| x rest]; cbn [older_head sorter_insert]; [reflexivity |].
  intros Hlt. destruct (Z.leb_spec (timestamp r) (timestamp x)); [lia | reflexivity].
Qed.

Lemma fold_sorter_increasing rows : forall acc,
  strictly_increasing (map timestamp rows) = true ->
  match rows with [] => True | r :: _ => older_head acc (timestamp r) end ->
  fold_left (fun sorted r => sorter_insert r sorted) rows acc = rev rows ++ acc.
Proof.
  induction rows as [| r rows IH]; intros acc Hinc Hhead; cbn [fold_left].
  - reflexivity.
  - rewrite sorter_insert_newest by exact Hhead.
    cbn [rev]. rewrite <- app_assoc. cbn [app].
    apply IH.
    + cbn [map strictly_increasing] in Hinc.
      destruct rows as [| r' rows]; [reflexivity |].
      cbn [map] in Hinc. apply andb_prop in Hinc as [_ Hinc]. exact Hinc.
    + destruct rows as [| r' rows]; [exact I |].
      cbn [map strictly_increasing] in Hinc. apply andb_prop in Hinc as [Hlt _].
      cbn [older_head]. lia.
Qed.

Lemma order_by_increasing rows :
  strictly_increasing (map timestamp rows) = true ->
  order_by_timestamp_desc rows = rev rows.
Proof.
  intros Hinc. unfold order_by_timestamp_desc.
  rewrite fold_sorter_increasing; [apply app_nil_r | exact Hinc |].
  destruct rows; exact I.
Qed.

(** *** Rows after a sequence of appends *)

Lemma do_appends_settings l : forall db,
  user_settings (do_appends db l) = user_settings db.
Proof.
  induction l as [| a l IH]; intros db; [reflexivity |].
  unfold do_appends in *. cbn [fold_left]. rewrite IH. reflexivity.
Qed.

Lemma do_appends_limit uid l db :
  get_history_limit uid (do_appends db l) = get_history_limit uid db.
Proof.
  unfold get_history_limit. rewrite do_appends_settings. reflexivity.
Qed.

Lemma do_appends_rows uid l : forall db,
  map content (where_user uid (history (do_appends db l)))
  = map content (where_user uid (history db)) ++ map stored (appends_of uid l).
Proof.
  induction l as [| a l IH]; intros db.
  - cbn. rewrite app_nil_r. reflexivity.
  - unfold do_appends in *. cbn [fold_left]. rewrite IH.
    unfold do_append at 1, add_message_to_history, where_user at 1. cbn [history].
    rewrite List.filter_app, map_app, <- app_assoc. f_equal.
    cbn [List.filter appends_of user_id].
    destruct (app_user a =? uid); reflexivity.
Qed.

Lemma decode_rows_stored rows apps :
  map content rows = map stored apps ->
  forallb native_append apps = true ->
  decode_rows rows = Some (map entry_of apps).
Proof.
  revert apps. induction rows as [| r rows IH]; intros [| a apps] Heq Hok;
    try discriminate; [reflexivity |].
  cbn [map] in Heq. injection Heq as Hrole Hparts _ Hrest.
  cbn [forallb] in Hok. apply andb_prop in Hok as [Ha Hok].
  cbn [decode_rows]. unfold decode_row. rewrite Hparts, loads_dumps by exact Ha.
  cbn [mbind option_bind]. rewrite (IH apps) by assumption.
  cbn [mbind option_bind map]. unfold entry_of at 2. rewrite Hrole. reflexivity.
Qed.

Lemma sql_limit_length limit rows :
  0 <= limit ->
  length (sql_limit limit rows) = Z.to_nat (Z.min (Z.of_nat (length rows)) limit).
Proof.
  intros Hl. unfold sql_limit.
  destruct (Z.ltb_spec limit 0); [lia |].
  rewrite length_firstn. lia.
Qed.

Lemma decode_rows_length rows h : decode_rows rows = Some h -> length h = length rows.
Proof.
  revert h. induction rows as [| r rows IH]; intros h; cbn [decode_rows].
  - intros [= <-]. reflexivity.
  - destruct (decode_row r); [| discriminate]. cbn [mbind option_bind].
    destruct (decode_rows rows) as [es |]; [| discriminate].
    cbn [mbind option_bind]. intros [= <-]. cbn [length]. f_equal. apply IH. reflexivity.
Qed.

(** The window never exceeds a non-negative limit, whatever the
    timestamps. *)
Lemma get_history_length uid db h :
  0 <= get_history_limit uid db ->
  get_history uid db = Some h ->
  length h = Z.to_nat (Z.min (Z.of_nat (length (where_user uid (history db))))
                             (get_history_limit uid db)).
Proof.
  intros Hl Hh. unfold get_history, select_history in Hh.
  apply decode_rows_length in Hh. rewrite Hh, length_rev.
  rewrite sql_limit_length by exact Hl. rewrite order_by_length. reflexivity.
Qed.

(** With one row per second, the window is what the comments of
    [get_history] promise: the last [limit] turns, oldest first. *)
Lemma window_after_appends uid db l :
  where_user uid (history db) = [] ->
  forallb native_append (appends_of uid l) = true ->
  0 <= get_history_limit uid db ->
  strictly_increasing (map app_time (appends_of uid l)) = true ->
  get_history uid (do_appends db l)
  = Some (last_turns (get_history_limit uid db) (appends_of uid l)).
Proof.
  intros Hempty Hok Hlimit Hinc.
  pose proof (do_appends_rows uid l db) as Hrows.
  rewrite Hempty in Hrows. cbn [map app] in Hrows.
  set (rows := where_user uid (history (do_appends db l))) in *.
  set (apps := appends_of uid l) in *.
  assert (Hlen : length rows = length apps).
  { rewrite <- (length_map content rows), Hrows. apply length_map. }
  assert (Htimes : map timestamp rows = map app_time apps).
  { replace (map timestamp rows) with (map (fun c : string * text * Z => snd c) (map content rows))
      by (rewrite map_map; reflexivity).
    rewrite Hrows, map_map. reflexivity. }
  unfold get_history, select_history. fold rows.
  rewrite do_appends_limit.
  rewrite order_by_increasing by (rewrite Htimes; exact Hinc).
  unfold sql_limit. destruct (Z.ltb_spec (get_history_limit uid db) 0); [lia |].
  rewrite firstn_rev, rev_involutive.
  unfold last_turns. apply decode_rows_stored.
  - rewrite <- !skipn_map, Hrows, Hlen. reflexivity.
  - rewrite <- (firstn_skipn (length apps - Z.to_nat (get_history_limit uid db)) apps) in Hok.
    rewrite forallb_app in Hok. apply andb_prop in Hok as [_ Hok]. exact Hok.
Qed.

Lemma last_turns_length limit l :
  0 <= limit ->
  length (last_turns limit l) = Z.to_nat (Z.min (Z.of_nat (length l)) limit).
Proof.
  intros Hl. unfold last_turns. rewrite length_map, length_skipn. lia.
Qed.

(** *** Reading back what was appended *)

Lemma decode_rows_app a b :
  decode_rows (a ++ b)
  = ha ← decode_rows a; hb ← decode_rows b; Some (ha ++ hb).
Proof.
  induction a as [| x a IH]; cbn [app decode_rows].
  - destruct (decode_rows b); reflexivity.
  - destruct (decode_row x); [| reflexivity]. cbn [mbind option_bind].
    rewrite IH. destruct (decode_rows a); [| reflexivity]. cbn [mbind option_bind].
    destruct (decode_rows b); reflexivity.
Qed.

Lemma decode_rows_all rows :
  Forall decodable rows -> exists h, decode_rows rows = Some h.
Proof.
  induction 1 as [| x rows [p Hp] _ [h Hh]]; cbn [decode_rows].
  - eexists. reflexivity.
  - unfold decode_row. rewrite Hp. cbn [mbind option_bind]. rewrite Hh.
    eexists. reflexivity.
Qed.

Lemma decode_rows_in rows : forall h x e,
  decode_rows rows = Some h -> In x rows -> decode_row x = Some e -> In e h.
Proof.
  induction rows as [| y rows IH]; intros h x e Hh Hin He; [contradiction |].
  cbn [decode_rows] in Hh.
  destruct (decode_row y) as [ey |] eqn:Hy; [| discriminate].
  cbn [mbind option_bind] in Hh.
  destruct (decode_rows rows) as [es |] eqn:Hes; [| discriminate].
  cbn [mbind option_bind] in Hh. injection Hh as <-.
  destruct Hin as [-> | Hin].
  - left. congruence.
  - right. exact (IH es x e eq_refl Hin He).
Qed.

Lemma sql_limit_in limit rows x : In x (sql_limit limit rows) -> In x rows.
Proof.
  unfold sql_limit. destruct (limit <? 0); [auto |].
  intros H. rewrite <- (firstn_skipn (Z.to_nat limit) rows).
  apply in_or_app. left. exact H.
Qed.

Lemma select_history_in uid limit db x :
  In x (select_history uid limit db) -> In x (where_user uid (history db)).
Proof.
  unfold select_history. intros H. apply sql_limit_in in H.
  eapply Permutation_in; [apply order_by_perm | exact H].
Qed.

Lemma where_user_add now uid r p db :
  where_user uid (history (add_message_to_history now uid r p db))
  = where_user uid (history db)
    ++ [{| id := history_seq db + 1; user_id := uid; role := r;
           parts := dumps p; timestamp := now |}].
Proof.
  unfold add_message_to_history, where_user. cbn [history].
  rewrite List.filter_app. cbn [List.filter user_id]. rewrite Z.eqb_refl. reflexivity.
Qed.

Lemma decode_new_row i now uid r p :
  json_native p = true ->
  decode_row {| id := i; user_id := uid; role := r; parts := dumps p; timestamp := now |}
  = Some {| entry_role := r; entry_parts := p |}.
Proof.
  intros Hp. unfold decode_row. cbn [parts role]. rewrite loads_dumps by exact Hp.
  reflexivity.
Qed.

Lemma order_by_snoc rows x :
  order_by_timestamp_desc (rows ++ [x]) = sorter_insert x (order_by_timestamp_desc rows).
Proof.
  unfold order_by_timestamp_desc. rewrite fold_left_app. reflexivity.
Qed.

(** A row stamped later than every row of the user is the first the
    query returns. *)
Lemma order_by_newest rows x :
  Forall (fun y => timestamp y < timestamp x) rows ->
  order_by_timestamp_desc (rows ++ [x]) = x :: order_by_timestamp_desc rows.
Proof.
  intros Hall. rewrite order_by_snoc. apply sorter_insert_newest.
  destruct (order_by_timestamp_desc rows) as [| y ys] eqn:Hs; [exact I |].
  cbn [older_head]. rewrite Forall_forall in Hall. apply Hall.
  apply list_elem_of_In. eapply Permutation_in; [apply order_by_perm |].
  rewrite Hs. left. reflexivity.
Qed.

Lemma sql_limit_head limit x rows :
  limit <> 0 -> exists rest, sql_limit limit (x :: rows) = x :: rest.
Proof.
  intros Hl. unfold sql_limit. destruct (Z.ltb_spec limit 0).
  - eexists. reflexivity.
  - destruct (Z.to_nat limit) as [| n] eqn:Hn; [lia |].
    eexists. reflexivity.
Qed.

(** Rows written by [add_message_to_history] can be read back. *)
Lemma do_appends_decodable uid l : forall db,
  Forall decodable (where_user uid (history db)) ->
  forallb native_append l = true ->
  Forall decodable (where_user uid (history (do_appends db l))).
Proof.
  induction l as [| a l IH]; intros db Hdb Hl; [exact Hdb |].
  cbn [forallb] in Hl. apply andb_prop in Hl as [Ha Hl].
  unfold do_appends in *. cbn [fold_left]. apply IH; [| exact Hl].
  unfold do_append, add_message_to_history, where_user. cbn [history].
  rewrite List.filter_app. apply Forall_app. split; [exact Hdb |].
  cbn [List.filter user_id]. destruct (app_user a =? uid); constructor; [| constructor].
  unfold decodable. cbn [parts]. rewrite loads_dumps by exact Ha. eexists. reflexivity.
Qed.

(** * Facts about the handlers *)

(** *** Comparison of times *)

Lemma Qlt_bool_iff x y : Qlt_bool x y = true <-> (x < y)%Q.
Proof.
  unfold Qlt_bool. rewrite negb_true_iff.
  split.
  - intros H. apply Qnot_le_lt. intros Hle.
    apply Qle_bool_iff in Hle. congruence.
  - intros H. destruct (Qle_bool y x) eqn:Hle; [| reflexivity].
    apply Qle_bool_iff in Hle. exfalso. exact (Qlt_not_le _ _ H Hle).
Qed.

Lemma Qlt_bool_false x y : Qlt_bool x y = false <-> (y <= x)%Q.
Proof.
  unfold Qlt_bool. rewrite negb_false_iff. apply Qle_bool_iff.
Qed.

(** *** Rules of the weakest precondition *)

Lemma wp_ret d {A} (a : A) Q E s : Q a s -> wp d (mret a) Q E s.
Proof. intros H. exact H. Qed.

Lemma wp_bind d {A B} (m : M A) (k : A -> M B) Q E s :
  wp d m (fun a s' => wp d (k a) Q E s') E s -> wp d (m ≫= k) Q E s.
Proof.
  unfold wp, mbind, M_bind, bind. destruct (m s) as [[a | | e |] s']; auto.
Qed.

Lemma wp_raise d {A} e (Q : A -> State -> Prop) E s : E s -> wp d (raise e) Q E s.
Proof. intros H. exact H. Qed.

Lemma wp_return d {A} (Q : A -> State -> Prop) E s : E s -> wp d return_ Q E s.
Proof. intros H. exact H. Qed.

Lemma wp_diverge {A} (Q : A -> State -> Prop) E s : wp True diverge Q E s.
Proof. exact I. Qed.

Lemma wp_get d {A} (f : State -> A) Q E s : Q (f s) s -> wp d (get f) Q E s.
Proof. intros H. exact H. Qed.

Lemma wp_modify d f Q E s : Q tt (f s) -> wp d (modify f) Q E s.
Proof. intros H. exact H. Qed.

Lemma wp_emit d e Q E s :
  Q tt (with_trace (fun t => t ++ [e]) s) -> wp d (emit e) Q E s.
Proof. intros H. exact H. Qed.

Lemma wp_call d env op Q E s :
  (fault env op = None -> Q tt s) ->
  (forall e, fault env op = Some e -> E s) ->
  wp d (call env op) Q E s.
Proof.
  intros HQ HE. unfold wp, call. destruct (fault env op) as [e |].
  - apply (HE e). reflexivity.
  - apply HQ. reflexivity.
Qed.

Lemma wp_when d (c : bool) body Q E s :
  (c = true -> wp d body Q E s) -> (c = false -> Q tt s) -> wp d (when c body) Q E s.
Proof.
  intros Ht Hf. destruct c; [apply Ht | apply Hf]; reflexivity.
Qed.

(** [try/except] under an invariant [Inv] of the body: wherever the body
    stops, the handler and the caller can rely on [Inv]. *)
Lemma wp_try_except d body handler (Inv : State -> Prop) Q E s :
  wp d body Q Inv s ->
  (forall s', Inv s' -> E s') ->
  (forall msg s', Inv s' -> wp d (handler msg) Q E s') ->
  wp d (try_except body handler) Q E s.
Proof.
  unfold wp, try_except. intros Hb HE Hh.
  destruct (body s) as [[a | | [msg |] |] s']; auto.
  apply Hh, Hb.
Qed.

(** [try/finally]: the block runs from whatever state the body left. *)
Lemma wp_try_finally d body cleanup (Inv : State -> Prop) (R : State -> Prop) s :
  wp d body (fun _ => Inv) Inv s ->
  (forall s', Inv s' -> wp d cleanup (fun _ => R) R s') ->
  wp d (try_finally body cleanup) (fun _ => R) R s.
Proof.
  unfold wp, try_finally. intros Hb Hc.
  destruct (body s) as [[[] | | e |] s']; auto;
    specialize (Hc s' Hb);
    destruct (cleanup s') as [[[] | | e' |] s'']; auto.
Qed.

Lemma wp_mono d {A} (m : M A) (Q Q' : A -> State -> Prop) (E E' : State -> Prop) s :
  wp d m Q E s -> (forall a s', Q a s' -> Q' a s') -> (forall s', E s' -> E' s') ->
  wp d m Q' E' s.
Proof.
  unfold wp. destruct (m s) as [[a | | e |] s']; auto.
Qed.

(** What a completed run satisfies, and when a run is sure to complete. *)
Lemma wp_partial {A} (m : M A) (R : State -> Prop) s :
  wp True m (fun _ => R) R s -> completed (m s).1 -> R (m s).2.
Proof.
  unfold wp. destruct (m s) as [[a | | e |] s']; cbn; tauto.
Qed.

Lemma wp_total {A} (m : M A) (R : State -> Prop) s :
  wp False m (fun _ => R) R s -> completed (m s).1 /\ R (m s).2.
Proof.
  unfold wp. destruct (m s) as [[a | | e |] s']; cbn; tauto.
Qed.

(** *** The flood protection *)

Lemma touched_fields uid s :
  database (touched uid s) = database s /\
  local_files (touched uid s) = local_files s /\
  remote_files (touched uid s) = remote_files s /\
  trace (touched uid s) = trace s /\
  file_path (touched uid s) = file_path s /\
  gemini_file (touched uid s) = gemini_file s.
Proof.
  unfold touched. destruct (user_last_request s !! uid); repeat split.
Qed.

Lemma touched_last_seen uid s u : last_seen (touched uid s) u = last_seen s u.
Proof.
  unfold touched, last_seen.
  destruct (user_last_request s !! uid) eqn:Hlook; [reflexivity |].
  cbn [user_last_request with_user_last_request].
  destruct (decide (uid = u)) as [-> | Hne].
  - rewrite lookup_insert_eq, Hlook. reflexivity.
  - rewrite lookup_insert_ne by exact Hne. reflexivity.
Qed.

Lemma last_request_run uid s :
  last_request uid s = (Value (last_seen s uid), touched uid s).
Proof.
  unfold last_request, last_seen, touched.
  destruct (user_last_request s !! uid); reflexivity.
Qed.

(** [is_user_on_cooldown] answers from the user's one timestamp and
    changes nothing but the log. *)
Lemma is_user_on_cooldown_run env uid cat s :
  is_user_on_cooldown env uid cat s
  = (Value (on_cooldown env s uid cat),
     if on_cooldown env s uid cat
     then with_trace (fun t => t ++ [Logged WARNING]) (touched uid s)
     else touched uid s).
Proof.
  unfold is_user_on_cooldown, on_cooldown, mbind, M_bind, bind.
  rewrite last_request_run.
  destruct (Qlt_bool _ _); reflexivity.
Qed.

Lemma wp_is_user_on_cooldown d env uid cat Q E s :
  Q (on_cooldown env s uid cat)
    (if on_cooldown env s uid cat
     then with_trace (fun t => t ++ [Logged WARNING]) (touched uid s)
     else touched uid s) ->
  wp d (is_user_on_cooldown env uid cat) Q E s.
Proof.
  intros H. unfold wp. rewrite is_user_on_cooldown_run. exact H.
Qed.

Lemma update_user_timestamp_last_seen env uid s u :
  last_seen (with_user_last_request (insert uid (time_mark env)) s) u
  = if decide (u = uid) then time_mark env else last_seen s u.
Proof.
  unfold last_seen. cbn [user_last_request with_user_last_request].
  destruct (decide (u = uid)) as [-> | Hne].
  - rewrite lookup_insert_eq. reflexivity.
  - rewrite lookup_insert_ne by congruence. reflexivity.
Qed.


(** One step of a handler under [wp]. *)
Ltac wp_step :=
  lazymatch goal with
  | |- wp _ (_ ≫= _) _ _ _ => apply wp_bind
  | |- wp _ (mret _) _ _ _ => apply wp_ret
  | |- wp _ (ret _) _ _ _ => apply wp_ret
  | |- wp _ (raise _) _ _ _ => apply wp_raise
  | |- wp _ return_ _ _ _ => apply wp_return
  | |- wp True diverge _ _ _ => apply wp_diverge
  | |- wp _ (get _) _ _ _ => apply wp_get
  | |- wp _ (modify _) _ _ _ => apply wp_modify
  | |- wp _ (emit _) _ _ _ => apply wp_emit
  | |- wp _ (log _) _ _ _ => apply wp_emit
  | |- wp _ (call _ _) _ _ _ => apply wp_call; [intros ? | intros ? ?]
  | |- wp _ (when _ _) _ _ _ => apply wp_when; intros ?; try discriminate
  | |- wp _ (is_user_on_cooldown _ _ _) _ _ _ =>
      apply wp_is_user_on_cooldown; destruct (on_cooldown _ _ _ _) eqn:?
  | |- wp _ (send_long_message _ _) _ _ _ => unfold send_long_message
  | |- wp _ (reply _ _) _ _ _ => unfold reply
  | |- wp _ (edit _ _) _ _ _ => unfold edit
  | |- wp _ (update_user_timestamp _ _) _ _ _ => apply wp_modify
  | |- wp _ (download_to_drive _ _) _ _ _ => unfold download_to_drive
  | |- wp _ (upload_file _ _) _ _ _ => unfold upload_file
  | |- wp _ (refresh_file _ _ _) _ _ _ => unfold refresh_file
  | |- wp _ check_failed _ _ _ => unfold check_failed
  | |- wp _ (db_get_history _ _) _ _ _ => unfold db_get_history
  | |- wp _ (db_get_history_limit _ _) _ _ _ => unfold db_get_history_limit
  | |- wp _ (db_add_message_to_history _ _ _ _ _) _ _ _ => unfold db_add_message_to_history
  | |- wp _ (generate _ _ _ _) _ _ _ => unfold generate
  | |- wp _ (cleanup _) _ _ _ => unfold cleanup
  | |- wp _ (match ?x with _ => _ end) _ _ _ =>
      first [ match goal with H : x = _ |- _ => rewrite H end; cbv iota
            | destruct x eqn:? ]
  end; cbv beta.

Ltac wp_steps := repeat wp_step.

(** Fields of a state after the updates a handler makes. *)
Ltac fields :=
  cbn [user_last_request database local_files remote_files trace file_path gemini_file
       with_user_last_request with_database with_local_files with_remote_files
       with_trace with_file_path with_gemini_file] in *.

Lemma uploads_snoc t e :
  uploads (t ++ [e]) = if is_upload e then uploads t ++ [e] else uploads t.
Proof.
  unfold uploads. rewrite List.filter_app. cbn [List.filter].
  destruct (is_upload e); [reflexivity | apply app_nil_r].
Qed.

Lemma downloads_snoc t e :
  downloads (t ++ [e]) = if is_download e then downloads t ++ [e] else downloads t.
Proof.
  unfold downloads. rewrite List.filter_app. cbn [List.filter].
  destruct (is_download e); [reflexivity | apply app_nil_r].
Qed.

(** *** Oversized media *)

Lemma same_resources_refl s : same_resources s s.
Proof. repeat split. Qed.

Lemma same_resources_touched s0 s uid :
  same_resources s0 s -> same_resources s0 (touched uid s).
Proof.
  unfold same_resources.
  destruct (touched_fields uid s) as (-> & -> & -> & -> & _). tauto.
Qed.

Lemma same_resources_emit s0 s e :
  is_upload e = false -> is_download e = false ->
  same_resources s0 s -> same_resources s0 (with_trace (fun t => t ++ [e]) s).
Proof.
  unfold same_resources. fields. rewrite uploads_snoc, downloads_snoc.
  intros -> ->. tauto.
Qed.

Lemma untouched_emit s0 s e :
  is_upload e = false -> is_download e = false ->
  untouched s0 s -> untouched s0 (with_trace (fun t => t ++ [e]) s).
Proof.
  intros Hu Hd [Hs Hl]. split; [apply same_resources_emit; assumption | exact Hl].
Qed.

Lemma untouched_enter s0 s :
  same_resources s0 s -> untouched s0 (with_gemini_file None (with_file_path None s)).
Proof.
  intros Hs. split; [exact Hs | split; reflexivity].
Qed.

Lemma cleanup_unset env s :
  file_path s = None -> gemini_file s = None -> cleanup env s = (Value tt, s).
Proof.
  intros Hfp Hgf. unfold cleanup, mbind, M_bind, bind, get. rewrite Hfp. cbn.
  rewrite Hgf. reflexivity.
Qed.

Lemma wp_cleanup_untouched d env s0 s :
  untouched s0 s ->
  wp d (cleanup env) (fun _ => same_resources s0) (same_resources s0) s.
Proof.
  intros (Hs & Hfp & Hgf). unfold wp. rewrite cleanup_unset by assumption. exact Hs.
Qed.

Lemma size_exceeds update :
  MAX_FILE_SIZE < file_size update -> (file_size update >? MAX_FILE_SIZE) = true.
Proof. intros H. apply Z.gtb_lt. exact H. Qed.

(** The two media handlers share their shape; the steps below go through
    either of them up to the size check. *)
Ltac oversized_untouched s0 :=
  cbv zeta; wp_steps;
  [ (* on cooldown *)
    apply same_resources_emit; [reflexivity | reflexivity |];
    apply same_resources_touched, same_resources_refl
  | (* admitted *)
    apply wp_try_finally with (Inv := untouched s0);
    [ apply wp_try_except with (Inv := untouched s0);
      [ wp_steps;
        try (apply untouched_emit; [reflexivity | reflexivity |]);
        apply untouched_enter, same_resources_touched, same_resources_refl
      | trivial
      | intros msg s' Hs'; wp_steps;
        repeat (apply untouched_emit; [reflexivity | reflexivity |]); exact Hs' ]
    | intros s' Hs'; apply wp_cleanup_untouched, Hs' ] ].

Lemma voice_oversized_untouched env fuel update s :
  MAX_FILE_SIZE < file_size update ->
  wp False (handle_voice env fuel update) (fun _ => same_resources s) (same_resources s) s.
Proof.
  intros Hsize. apply size_exceeds in Hsize.
  unfold handle_voice. rewrite Hsize. cbn [when]. oversized_untouched s.
Qed.

Lemma video_oversized_untouched env fuel update s :
  MAX_FILE_SIZE < file_size update ->
  wp False (handle_video_note env fuel update) (fun _ => same_resources s) (same_resources s) s.
Proof.
  intros Hsize. apply size_exceeds in Hsize.
  unfold handle_video_note. rewrite Hsize. cbn [when]. oversized_untouched s.
Qed.

Lemma voice_oversized_reply env fuel update s :
  on_cooldown env s (effective_user update) "voice" = false ->
  MAX_FILE_SIZE < file_size update ->
  fault env (OpSend VoiceTooLarge) = None ->
  handle_voice env fuel update s
  = (Returned,
     with_trace (fun t => t ++ [Sent VoiceTooLarge])
       (with_gemini_file None (with_file_path None (touched (effective_user update) s)))).
Proof.
  intros Hcool Hsize Hsend. apply size_exceeds in Hsize.
  unfold handle_voice, reply, call. cbv zeta. rewrite Hsize, Hsend.
  unfold mbind, M_bind, bind. rewrite is_user_on_cooldown_run, Hcool.
  cbn. rewrite cleanup_unset by reflexivity. reflexivity.
Qed.

Lemma video_oversized_reply env fuel update s :
  on_cooldown env s (effective_user update) "video" = false ->
  MAX_FILE_SIZE < file_size update ->
  fault env (OpSend VideoTooLarge) = None ->
  handle_video_note env fuel update s
  = (Returned,
     with_trace (fun t => t ++ [Sent VideoTooLarge])
       (with_gemini_file None (with_file_path None (touched (effective_user update) s)))).
Proof.
  intros Hcool Hsize Hsend. apply size_exceeds in Hsize.
  unfold handle_video_note, reply, call. cbv zeta. rewrite Hsize, Hsend.
  unfold mbind, M_bind, bind. rewrite is_user_on_cooldown_run, Hcool.
  cbn. rewrite cleanup_unset by reflexivity. reflexivity.
Qed.


(** *** Release of the temporary file and of the remote asset *)

Ltac stage :=
  unfold tracked, before_download, before_upload, after_upload, released in *;
  fields; rewrite ?uploads_snoc in *; cbn [is_upload] in *;
  repeat match goal with
         | H : _ (touched _ _) = _ |- _ => rewrite H
         | H : _ /\ _ |- _ => destruct H
         | H : exists _, _ |- _ => destruct H
         end.

Ltac stage_atom :=
  lazymatch goal with
  | |- _ ⊆ _ => set_solver
  | |- _ = _ => first [reflexivity | assumption | congruence]
  | |- exists _, _ => first [eexists; reflexivity | eexists; eassumption]
  | |- _ -> _ => intros; first [reflexivity | assumption | congruence | solve [auto]]
  end.

Ltac stage_close := repeat split; stage_atom.

Ltac solve_stage :=
  stage;
  first [ left; solve [stage_close]
        | right; left; solve [stage_close]
        | right; right; solve [stage_close] ].

(** The polling loop keeps the handler in its last stage. *)
Lemma wp_poll env path s0 interval Q : forall fuel i s,
  after_upload env path s0 s ->
  (forall s', after_upload env path s0 s' -> Q tt s') ->
  wp True (poll env interval i fuel) Q (tracked env path s0) s.
Proof.
  induction fuel as [| fuel IH]; intros i s Hs HQ; cbn [poll];
    pose proof Hs as (Hfp & [st Hgf] & Hl & Hr).
  - wp_steps. apply HQ, Hs.
  - wp_steps.
    + cbn [name state]. apply IH; [| exact HQ]. stage. stage_close.
    + solve_stage.
    + apply HQ, Hs.
Qed.

Ltac released_close :=
  stage; try congruence;
  repeat match goal with
         | H : bool_decide _ = true |- _ => apply bool_decide_eq_true in H
         | H : bool_decide _ = false |- _ => apply bool_decide_eq_false in H
         end;
  simplify_eq; cbn [name] in *;
  repeat split; try set_solver; intros; try set_solver;
  try (exfalso; auto; fail).

(** The [finally] block, run from any stage. *)
Lemma wp_cleanup_released env path s0 s :
  fault env OpUnlink = None -> fault env OpRemoteDelete = None ->
  tracked env path s0 s ->
  wp True (cleanup env) (fun _ => released env path s0) (released env path s0) s.
Proof.
  intros Hunlink Hdelete [Hs | [Hs | Hs]]; stage; unfold cleanup;
    wp_steps; try congruence; released_close.
Qed.

Lemma tracked_emit env path s0 s e :
  is_upload e = false ->
  tracked env path s0 s -> tracked env path s0 (with_trace (fun t => t ++ [e]) s).
Proof.
  intros He [Hs | [Hs | Hs]]; [left | right; left | right; right];
    stage; rewrite ?He; stage_close.
Qed.

(** Either media handler, from its first statement to the end of its
    [finally] block. *)
Ltac media_released env s path :=
  cbv zeta;
  match goal with
  | |- context [is_user_on_cooldown _ ?uid _] =>
      pose proof (touched_fields uid s) as (_ & ? & ? & ? & _)
  end;
  wp_steps;
  [ released_close
  | apply wp_try_finally with (Inv := tracked env path s);
    [ apply wp_try_except with (Inv := tracked env path s);
      [ wp_steps;
        try (lazymatch goal with |- tracked _ _ _ _ => solve_stage end);
        eapply wp_poll; [stage; stage_close |];
        intros s' Hs'; wp_steps; solve_stage
      | trivial
      | intros msg s' Hs'; wp_steps;
        repeat (apply tracked_emit; [reflexivity |]); exact Hs' ]
    | intros s' Hs'; apply wp_cleanup_released; assumption ] ].

Lemma voice_released env fuel update s :
  fault env OpUnlink = None -> fault env OpRemoteDelete = None ->
  wp True (handle_voice env fuel update)
     (fun _ => released env (voice_path env) s) (released env (voice_path env) s) s.
Proof.
  intros Hunlink Hdelete. unfold handle_voice.
  media_released env s (voice_path env).
Qed.

Lemma video_released env fuel update s :
  fault env OpUnlink = None -> fault env OpRemoteDelete = None ->
  wp True (handle_video_note env fuel update)
     (fun _ => released env (video_path env) s) (released env (video_path env) s) s.
Proof.
  intros Hunlink Hdelete. unfold handle_video_note.
  media_released env s (video_path env).
Qed.


(** *** A failed inference call *)

Ltac same_database :=
  fields;
  repeat match goal with
         | |- context [database (touched ?u ?s)] =>
             let H := fresh in
             pose proof (touched_fields u s) as (H & _); rewrite H; clear H
         | H : ?o ≠ None, H' : ?o = None |- _ => exfalso; exact (H H')
         end;
  try reflexivity; try assumption.

(** Whatever path [handle_message] takes, a failing inference call
    leaves the database as it was. *)
Lemma message_keeps_database env update s :
  fault env OpGenerate <> None ->
  wp False (handle_message env update)
     (fun _ s' => database s' = database s) (fun s' => database s' = database s) s.
Proof.
  intros Hgen. unfold handle_message. cbv zeta.
  wp_steps; try (same_database; fail).
  - (* the random fact *)
    unfold random_fact. cbv zeta. wp_steps; try (same_database; fail).
    apply wp_try_except with (Inv := fun s' => database s' = database s).
    + wp_steps; same_database.
    + trivial.
    + intros msg s' Hs'. wp_steps; same_database.
  - (* the settings *)
    unfold settings_menu. cbv zeta. wp_steps; same_database.
  - (* a question *)
    apply wp_try_except with (Inv := fun s' => database s' = database s).
    + wp_steps; same_database.
    + trivial.
    + intros msg s' Hs'. wp_steps; same_database.
Qed.


(** *** Single paths through the handlers *)

Lemma not_button t :
  is_button t = false ->
  bool_decide (t = BUTTON_ASK) = false /\ bool_decide (t = BUTTON_FACT) = false /\
  bool_decide (t = BUTTON_SETTINGS) = false.
Proof.
  unfold is_button. intros H.
  apply orb_false_elim in H as [H H3]. apply orb_false_elim in H as [H1 H2].
  auto.
Qed.

(** A rejected text: the handler returns at once. *)
Lemma message_rejected env update s :
  is_button (message_text update) = false ->
  on_cooldown env s (effective_user update) "text" = true ->
  handle_message env update s
  = (Returned, with_trace (fun t => t ++ [Logged WARNING]) (touched (effective_user update) s)).
Proof.
  intros Hbtn Hcool. apply not_button in Hbtn as (H1 & H2 & H3).
  unfold handle_message. cbv zeta. rewrite H1, H2, H3.
  unfold mbind, M_bind, bind. rewrite is_user_on_cooldown_run, Hcool. reflexivity.
Qed.

Lemma voice_rejected env fuel update s :
  on_cooldown env s (effective_user update) "voice" = true ->
  handle_voice env fuel update s
  = (Returned, with_trace (fun t => t ++ [Logged WARNING]) (touched (effective_user update) s)).
Proof.
  intros Hcool. unfold handle_voice. cbv zeta.
  unfold mbind, M_bind, bind. rewrite is_user_on_cooldown_run, Hcool. reflexivity.
Qed.

Lemma video_rejected env fuel update s :
  on_cooldown env s (effective_user update) "video" = true ->
  handle_video_note env fuel update s
  = (Returned, with_trace (fun t => t ++ [Logged WARNING]) (touched (effective_user update) s)).
Proof.
  intros Hcool. unfold handle_video_note. cbv zeta.
  unfold mbind, M_bind, bind. rewrite is_user_on_cooldown_run, Hcool. reflexivity.
Qed.

(** An admitted text with no model: the timestamp is already written. *)
Lemma message_without_model env update s :
  is_button (message_text update) = false ->
  on_cooldown env s (effective_user update) "text" = false ->
  model_loaded env = false ->
  handle_message env update s
  = (Returned,
     with_user_last_request (insert (effective_user update) (time_mark env))
       (touched (effective_user update) s)).
Proof.
  intros Hbtn Hcool Hmodel. apply not_button in Hbtn as (H1 & H2 & H3).
  unfold handle_message. cbv zeta. rewrite H1, H2, H3, Hmodel.
  unfold mbind, M_bind, bind. rewrite is_user_on_cooldown_run, Hcool. reflexivity.
Qed.

Lemma fact_without_model env update s :
  on_cooldown env s (effective_user update) "fact" = false ->
  model_loaded env = false ->
  random_fact env update s
  = (Returned,
     with_user_last_request (insert (effective_user update) (time_mark env))
       (touched (effective_user update) s)).
Proof.
  intros Hcool Hmodel. unfold random_fact. cbv zeta. rewrite Hmodel.
  unfold mbind, M_bind, bind. rewrite is_user_on_cooldown_run, Hcool. reflexivity.
Qed.

Lemma size_within update :
  file_size update <= MAX_FILE_SIZE -> (file_size update >? MAX_FILE_SIZE) = false.
Proof.
  intros H. rewrite Z.gtb_ltb. apply Z.ltb_ge. exact H.
Qed.

(** An admitted voice message or video note of an accepted size with no
    model: the handler stops inside its [try], the timestamp is written
    and the [finally] block finds nothing to release. *)
Lemma voice_without_model env fuel update s :
  on_cooldown env s (effective_user update) "voice" = false ->
  file_size update <= MAX_FILE_SIZE ->
  model_loaded env = false ->
  handle_voice env fuel update s
  = (Returned,
     with_user_last_request (insert (effective_user update) (time_mark env))
       (with_gemini_file None (with_file_path None (touched (effective_user update) s)))).
Proof.
  intros Hcool Hsize Hmodel. apply size_within in Hsize.
  unfold handle_voice. cbv zeta. rewrite Hsize, Hmodel.
  unfold mbind, M_bind, bind. rewrite is_user_on_cooldown_run, Hcool.
  cbn. rewrite cleanup_unset by reflexivity. reflexivity.
Qed.

Lemma video_without_model env fuel update s :
  on_cooldown env s (effective_user update) "video" = false ->
  file_size update <= MAX_FILE_SIZE ->
  model_loaded env = false ->
  handle_video_note env fuel update s
  = (Returned,
     with_user_last_request (insert (effective_user update) (time_mark env))
       (with_gemini_file None (with_file_path None (touched (effective_user update) s)))).
Proof.
  intros Hcool Hsize Hmodel. apply size_within in Hsize.
  unfold handle_video_note. cbv zeta. rewrite Hsize, Hmodel.
  unfold mbind, M_bind, bind. rewrite is_user_on_cooldown_run, Hcool.
  cbn. rewrite cleanup_unset by reflexivity. reflexivity.
Qed.

(** An admitted text whose inference call raises an [Exception]. *)
Lemma message_generate_fails env update s h msg :
  is_button (message_text update) = false ->
  on_cooldown env s (effective_user update) "text" = false ->
  model_loaded env = true ->
  fault env OpChatAction = None ->
  fault env OpGetHistory = None ->
  get_history (effective_user update) (database s) = Some h ->
  fault env OpGenerate = Some (Exception msg) ->
  fault env (OpSend TextFailed) = None ->
  handle_message env update s
  = (Value tt,
     with_trace
       (fun t => t ++ [Logged INFO; ChatAction "typing";
                       HistoryRead (effective_user update);
                       Generate h (UserText (message_text update)) None;
                       Logged ERROR; Sent TextFailed])
       (with_user_last_request (insert (effective_user update) (time_mark env))
          (touched (effective_user update) s))).
Proof.
  intros Hbtn Hcool Hmodel Hchat Hread Hh Hgen Hsend.
  apply not_button in Hbtn as (H1 & H2 & H3).
  destruct (touched_fields (effective_user update) s) as (Hdb & _).
  unfold handle_message, db_get_history, generate, send_long_message, reply, call. cbv zeta.
  rewrite H1, H2, H3, Hmodel, Hchat, Hread, Hgen, Hsend.
  unfold mbind, M_bind, bind, try_except. rewrite is_user_on_cooldown_run, Hcool.
  cbn. rewrite Hdb, Hh. cbn.
  unfold emit, modify, with_trace. cbn. rewrite <- !app_assoc. reflexivity.
Qed.


(** *** The polling loop *)

Lemma sleeps_app t t' : sleeps (t ++ t') = sleeps t ++ sleeps t'.
Proof. apply omap_app. Qed.

Lemma sleeps_poll_rounds interval asset n :
  sleeps (poll_rounds interval asset n) = repeat interval n.
Proof.
  induction n as [| n IH]; [reflexivity |].
  cbn [poll_rounds repeat]. change (sleeps (Sleep interval :: RemoteGet asset :: ?t))
    with (interval :: sleeps t). rewrite IH. reflexivity.
Qed.

(** While the service keeps answering [PROCESSING] the loop goes on:
    whatever number of rounds it is followed for, it has slept that many
    times and has not ended. *)
Lemma poll_stuck env interval : forall fuel i s f,
  gemini_file s = Some f -> state f = PROCESSING ->
  (forall j, poll_state env j = PROCESSING) ->
  (forall j, fault env (OpRemoteGet j) = None) ->
  (poll env interval i fuel s).1 = Diverged /\
  trace (poll env interval i fuel s).2 = trace s ++ poll_rounds interval (name f) fuel.
Proof.
  induction fuel as [| fuel IH]; intros i s f Hg Hst Hpoll Hfault;
    cbn [poll]; unfold mbind, M_bind, bind, get; rewrite Hg, Hst; cbn [is_processing].
  - cbn. rewrite app_nil_r. auto.
  - unfold refresh_file, call, mbind, M_bind, bind. rewrite Hfault. cbn [emit modify ret].
    match goal with
    | |- context [poll env interval (S i) fuel ?s1] =>
        destruct (IH (S i) s1 {| name := name f; state := poll_state env i |})
          as [Hd Ht]; [reflexivity | apply Hpoll | exact Hpoll | exact Hfault |];
        destruct (poll env interval (S i) fuel s1) as [o s2]
    end.
    cbn [fst snd] in *. subst o. split; [reflexivity |].
    rewrite Ht. fields. cbn [poll_rounds name]. rewrite <- !app_assoc. reflexivity.
Qed.

(** The loop ends at the first answer other than [PROCESSING], after one
    sleep per answer. *)
Lemma poll_until env interval : forall k i fuel s f,
  gemini_file s = Some f -> state f = PROCESSING ->
  (forall j, (i <= j < i + k)%nat -> poll_state env j = PROCESSING) ->
  is_processing (poll_state env (i + k)) = false ->
  (forall j, (i <= j <= i + k)%nat -> fault env (OpRemoteGet j) = None) ->
  (k < fuel)%nat ->
  (poll env interval i fuel s).1 = Value tt /\
  gemini_file (poll env interval i fuel s).2
    = Some {| name := name f; state := poll_state env (i + k) |} /\
  trace (poll env interval i fuel s).2 = trace s ++ poll_rounds interval (name f) (S k).
Proof.
  induction k as [| k IH]; intros i fuel s f Hg Hst Hbefore Hlast Hfault Hfuel;
    (destruct fuel as [| fuel]; [lia |]);
    cbn [poll]; unfold mbind, M_bind, bind, get; rewrite Hg, Hst; cbn [is_processing];
    unfold refresh_file, call, mbind, M_bind, bind; rewrite Hfault by lia;
    cbn [emit modify ret].
  - (* the next answer ends the loop *)
    rewrite Nat.add_0_r in *.
    destruct fuel as [| fuel]; cbn [poll]; unfold mbind, M_bind, bind, get; fields;
      cbn [state]; rewrite Hlast; cbn; rewrite <- !app_assoc; auto.
  - match goal with
    | |- context [poll env interval (S i) fuel ?s1] =>
        destruct (IH (S i) fuel s1 {| name := name f; state := poll_state env i |})
          as (Hv & Hgf & Ht);
        [ reflexivity
        | apply Hbefore; lia
        | intros j Hj; apply Hbefore; lia
        | replace (S i + k)%nat with (i + S k)%nat by lia; exact Hlast
        | intros j Hj; apply Hfault; lia
        | lia
        | destruct (poll env interval (S i) fuel s1) as [o s2] ]
    end.
    cbn [fst snd name] in *. subst o. split; [reflexivity |]. split.
    + rewrite Hgf. do 3 f_equal. lia.
    + rewrite Ht. fields. cbn [poll_rounds]. rewrite <- !app_assoc. reflexivity.
Qed.


(** A voice message whose asset never leaves [PROCESSING]: the handler
    is still sleeping, two seconds at a time, after any number of
    rounds, and has not reached its [finally] block. *)
Lemma voice_stuck env update s fuel :
  on_cooldown env s (effective_user update) "voice" = false ->
  file_size update <= MAX_FILE_SIZE ->
  model_loaded env = true ->
  fault env OpChatAction = None -> fault env OpTelegramGetFile = None ->
  fault env OpMkdir = None -> fault env OpDownload = None -> fault env OpUpload = None ->
  upload_state env = PROCESSING ->
  (forall j, poll_state env j = PROCESSING) ->
  (forall j, fault env (OpRemoteGet j) = None) ->
  (handle_voice env fuel update s).1 = Diverged /\
  sleeps (trace (handle_voice env fuel update s).2) = sleeps (trace s) ++ repeat 2 fuel.
Proof.
  intros Hcool Hsize Hmodel Hchat Hget Hmkdir Hdown Hup Hst Hpoll Hfault.
  assert (Hsz : (file_size update >? MAX_FILE_SIZE) = false)
    by (rewrite Z.gtb_ltb; apply Z.ltb_ge; exact Hsize).
  destruct (touched_fields (effective_user update) s) as (_ & _ & _ & Htr & _).
  unfold handle_voice, download_to_drive, upload_file, call. cbv zeta.
  rewrite Hsz, Hmodel, Hchat, Hget, Hmkdir, Hdown, Hup.
  unfold mbind, M_bind, bind, try_finally, try_except.
  rewrite is_user_on_cooldown_run, Hcool. cbn.
  match goal with
  | |- context [poll env 2 0 fuel ?s1] =>
      destruct (poll_stuck env 2 fuel O s1 {| name := asset_name env; state := upload_state env |})
        as [Hd Ht]; [reflexivity | exact Hst | exact Hpoll | exact Hfault |];
      destruct (poll env 2 0 fuel s1) as [o s2]
  end.
  cbn [fst snd] in *. subst o. cbn. split; [reflexivity |].
  rewrite Ht. fields. rewrite Htr, !sleeps_app, sleeps_poll_rounds.
  cbn. rewrite !app_nil_r. reflexivity.
Qed.

(** The same for a video note, five seconds at a time. *)
Lemma video_stuck env update s fuel :
  on_cooldown env s (effective_user update) "video" = false ->
  file_size update <= MAX_FILE_SIZE ->
  model_loaded env = true ->
  fault env (OpSend VideoReceived) = None ->
  fault env OpChatAction = None -> fault env OpTelegramGetFile = None ->
  fault env OpMkdir = None -> fault env OpDownload = None -> fault env OpUpload = None ->
  upload_state env = PROCESSING ->
  (forall j, poll_state env j = PROCESSING) ->
  (forall j, fault env (OpRemoteGet j) = None) ->
  (handle_video_note env fuel update s).1 = Diverged /\
  sleeps (trace (handle_video_note env fuel update s).2) = sleeps (trace s) ++ repeat 5 fuel.
Proof.
  intros Hcool Hsize Hmodel Hnote Hchat Hget Hmkdir Hdown Hup Hst Hpoll Hfault.
  assert (Hsz : (file_size update >? MAX_FILE_SIZE) = false)
    by (rewrite Z.gtb_ltb; apply Z.ltb_ge; exact Hsize).
  destruct (touched_fields (effective_user update) s) as (_ & _ & _ & Htr & _).
  unfold handle_video_note, download_to_drive, upload_file, send_long_message, reply, call. cbv zeta.
  rewrite Hsz, Hmodel, Hnote, Hchat, Hget, Hmkdir, Hdown, Hup.
  unfold mbind, M_bind, bind, try_finally, try_except.
  rewrite is_user_on_cooldown_run, Hcool. cbn.
  match goal with
  | |- context [poll env 5 0 fuel ?s1] =>
      destruct (poll_stuck env 5 fuel O s1 {| name := asset_name env; state := upload_state env |})
        as [Hd Ht]; [reflexivity | exact Hst | exact Hpoll | exact Hfault |];
      destruct (poll env 5 0 fuel s1) as [o s2]
  end.
  cbn [fst snd] in *. subst o. cbn. split; [reflexivity |].
  rewrite Ht. fields. rewrite Htr, !sleeps_app, sleeps_poll_rounds.
  cbn. rewrite !app_nil_r. reflexivity.
Qed.

(** * The properties of the specification, checked on the model *)

(** C1 (defect in [get_history]).  The specification wants the window to
    hold the last [min(N, L)] appended turns, oldest first, and the
    comments of [get_history] promise the same.  The query orders by
    [timestamp] alone, a column with a resolution of one second, and
    the list is then reversed: turns stored within one second come out
    newest first.  After two exchanges, each stored within one second,
    the window holds the right four turns but every pair has the model's
    turn before the user's; it is not the list of the last turns. *)
Theorem window_swaps_turns_of_one_second :
  get_history 42 (do_appends init_db two_exchanges)
  = Some (map entry_of
            [text_turn 1000 42 "model" "hello"; text_turn 1000 42 "user" "hi";
             text_turn 1005 42 "model" "fine"; text_turn 1005 42 "user" "how are you"])
  /\ get_history 42 (do_appends init_db two_exchanges)
     <> Some (last_turns (get_history_limit 42 init_db) (appends_of 42 two_exchanges)).
Proof.
  split.
  - vm_compute. reflexivity.
  - vm_compute. discriminate.
Qed.

(** C7 (defect in [get_history]).  Two turns of one second should come
    back in the order of their [id], the sequence number the store
    assigns.  The query has no second sort key; the rows with ids 1 and
    2 of one exchange come back as 2, 1. *)
Theorem equal_timestamps_come_back_newest_first :
  map id (rev (select_history 42 (get_history_limit 42 init_db)
                 (do_appends init_db one_exchange))) = [2; 1]
  /\ get_history 42 (do_appends init_db one_exchange)
     = Some (map entry_of [text_turn 1000 42 "model" "hello"; text_turn 1000 42 "user" "hi"]).
Proof.
  split; vm_compute; reflexivity.
Qed.






(** C3, as the code has it.  The limiter keeps one timestamp per user.
    [is_user_on_cooldown] rejects exactly when the time since that
    timestamp is below the cooldown of the category asked for, and it
    changes no timestamp; [update_user_timestamp] overwrites the user's
    one timestamp, which every category of that user is then measured
    against, and leaves the other users alone. *)
Theorem cooldown_is_kept_per_user env uid cat s :
  (is_user_on_cooldown env uid cat s).1 = Value (on_cooldown env s uid cat)
  /\ (on_cooldown env s uid cat = true
      <-> (time_check env - last_seen s uid < inject_Z (cooldown_of cat))%Q)
  /\ (forall u, last_seen (is_user_on_cooldown env uid cat s).2 u = last_seen s u)
  /\ (forall u, last_seen (update_user_timestamp env uid s).2 u
                = if decide (u = uid) then time_mark env else last_seen s u)
  /\ (forall env' cat',
        on_cooldown env' (update_user_timestamp env uid s).2 uid cat'
        = Qlt_bool (time_check env' - time_mark env) (inject_Z (cooldown_of cat'))).
Proof.
  rewrite is_user_on_cooldown_run. cbn [fst snd]. repeat split.
  - apply Qlt_bool_iff.
  - apply Qlt_bool_iff.
  - intros u. destruct (on_cooldown env s uid cat); apply touched_last_seen.
  - intros u. apply update_user_timestamp_last_seen.
  - intros env' cat'. unfold on_cooldown. cbn [update_user_timestamp modify snd].
    rewrite update_user_timestamp_last_seen. destruct (decide (uid = uid)); [reflexivity | congruence].
Qed.

(** C3 as stated fails.  After a text request at second 1000, a video
    note of the same user at second 1010 is rejected, although no video
    request was made before and the same video note is admitted if the
    text request had not happened; a limiter keyed by user and category
    admits it. *)
Lemma text_request_delays_video_note :
  (is_user_on_cooldown calm_later 42 "video" idle).1 = Value false
  /\ (is_user_on_cooldown calm_later 42 "video" (handle_message calm hi idle).2).1 = Value true
  /\ LimiterSpec.allows (LimiterSpec.mark ∅ 1000 42 "text") 1010 42 "video" = true.
Proof.
  repeat split; vm_compute; reflexivity.
Qed.

(** C4, as the code has it.  A request the limiter rejects makes the
    handler return at once: the only trace is the warning written to the
    log, nothing is sent to the user, and neither the database nor any
    last-request time changes. *)
Theorem rejected_request_returns_silently env fuel update s :
  (is_button (message_text update) = false ->
   on_cooldown env s (effective_user update) "text" = true ->
   (handle_message env update s).1 = Returned
   /\ trace (handle_message env update s).2 = trace s ++ [Logged WARNING]
   /\ database (handle_message env update s).2 = database s
   /\ forall u, last_seen (handle_message env update s).2 u = last_seen s u)
  /\ (on_cooldown env s (effective_user update) "voice" = true ->
      (handle_voice env fuel update s).1 = Returned
      /\ trace (handle_voice env fuel update s).2 = trace s ++ [Logged WARNING]
      /\ database (handle_voice env fuel update s).2 = database s
      /\ forall u, last_seen (handle_voice env fuel update s).2 u = last_seen s u).
Proof.
  destruct (touched_fields (effective_user update) s) as (Hdb & _ & _ & Htr & _).
  split.
  - intros Hbtn Hcool. rewrite message_rejected by assumption. cbn [fst snd]. fields.
    rewrite Hdb, Htr. repeat split. intros u. apply touched_last_seen.
  - intros Hcool. rewrite voice_rejected by assumption. cbn [fst snd]. fields.
    rewrite Hdb, Htr. repeat split. intros u. apply touched_last_seen.
Qed.

Lemma rejected_request_returns_silently_witness :
  is_button (message_text hi) = false
  /\ on_cooldown calm recent 42 "text" = true
  /\ on_cooldown calm recent 42 "voice" = true
  /\ trace (handle_message calm hi recent).2 = trace recent ++ [Logged WARNING]
  /\ trace (handle_voice calm 5 hi recent).2 = trace recent ++ [Logged WARNING].
Proof.
  assert (Hbtn : is_button (message_text hi) = false) by (vm_compute; reflexivity).
  assert (Htext : on_cooldown calm recent (effective_user hi) "text" = true)
    by (vm_compute; reflexivity).
  assert (Hvoice : on_cooldown calm recent (effective_user hi) "voice" = true)
    by (vm_compute; reflexivity).
  destruct (rejected_request_returns_silently calm 5 hi recent) as [Hm Hv].
  destruct (Hm Hbtn Htext) as (_ & Hmt & _).
  destruct (Hv Hvoice) as (_ & Hvt & _).
  repeat split; assumption.
Defined.

(** C4 as stated fails.  One second after his last request user 42
    sends a text; the handler returns and no message has been sent. *)
Lemma rejected_text_gets_no_answer :
  on_cooldown calm recent 42 "text" = true
  /\ (handle_message calm hi recent).1 = Returned
  /\ List.filter is_sent (trace (handle_message calm hi recent).2) = [].
Proof.
  repeat split; vm_compute; reflexivity.
Qed.

(** C5.  When the inference call raises, [handle_message] comes back
    with the database, and so the window of every user, as it was; if
    the call was reached and raised an [Exception], the last thing the
    handler did was to send the generic failure text. *)
Theorem failed_inference_leaves_history env update s e :
  fault env OpGenerate = Some e ->
  completed (handle_message env update s).1
  /\ database (handle_message env update s).2 = database s
  /\ (forall uid, get_history uid (database (handle_message env update s).2)
                  = get_history uid (database s))
  /\ (forall h msg,
        is_button (message_text update) = false ->
        on_cooldown env s (effective_user update) "text" = false ->
        model_loaded env = true ->
        fault env OpChatAction = None ->
        fault env OpGetHistory = None ->
        get_history (effective_user update) (database s) = Some h ->
        e = Exception msg ->
        fault env (OpSend TextFailed) = None ->
        (handle_message env update s).1 = Value tt
        /\ last (trace (handle_message env update s).2) = Some (Sent TextFailed)).
Proof.
  intros Hgen.
  assert (Hne : fault env OpGenerate <> None) by congruence.
  destruct (wp_total _ _ _ (message_keeps_database env update s Hne)) as [Hdone Hdb].
  split; [exact Hdone |]. split; [exact Hdb |]. split.
  - intros uid. rewrite Hdb. reflexivity.
  - intros h msg Hbtn Hcool Hmodel Hchat Hread Hh -> Hsend.
    rewrite (message_generate_fails env update s h msg) by assumption.
    cbn [fst snd]. fields. split; [reflexivity |].
    rewrite last_app. reflexivity.
Qed.

Lemma failed_inference_leaves_history_witness :
  fault failing_inference OpGenerate = Some (Exception "503 Service Unavailable")
  /\ database (handle_message failing_inference hi idle).2 = database idle
  /\ last (trace (handle_message failing_inference hi idle).2) = Some (Sent TextFailed).
Proof.
  destruct (failed_inference_leaves_history failing_inference hi idle
              (Exception "503 Service Unavailable") eq_refl)
    as (_ & Hdb & _ & Hmsg).
  split; [reflexivity |]. split; [exact Hdb |].
  refine (proj2 (Hmsg [] "503 Service Unavailable"%string _ _ _ _ _ _ _ _));
    vm_compute; reflexivity.
Defined.

(** C6.  A voice message or video note whose declared size exceeds
    [MAX_FILE_SIZE], twenty mebibytes, makes the handler come back
    without a download or an upload and with the files on disk, the
    remote assets and the database as they were; unless the limiter
    rejected the request first, the user is told that the file is too
    large. *)
Theorem oversized_media_is_turned_away env fuel update s :
  MAX_FILE_SIZE < file_size update ->
  MAX_FILE_SIZE = 20 * 2 ^ 20
  /\ (completed (handle_voice env fuel update s).1
      /\ local_files (handle_voice env fuel update s).2 = local_files s
      /\ remote_files (handle_voice env fuel update s).2 = remote_files s
      /\ uploads (trace (handle_voice env fuel update s).2) = uploads (trace s)
      /\ downloads (trace (handle_voice env fuel update s).2) = downloads (trace s)
      /\ database (handle_voice env fuel update s).2 = database s
      /\ (on_cooldown env s (effective_user update) "voice" = false ->
          fault env (OpSend VoiceTooLarge) = None ->
          (handle_voice env fuel update s).1 = Returned
          /\ trace (handle_voice env fuel update s).2 = trace s ++ [Sent VoiceTooLarge]))
  /\ (completed (handle_video_note env fuel update s).1
      /\ local_files (handle_video_note env fuel update s).2 = local_files s
      /\ remote_files (handle_video_note env fuel update s).2 = remote_files s
      /\ uploads (trace (handle_video_note env fuel update s).2) = uploads (trace s)
      /\ downloads (trace (handle_video_note env fuel update s).2) = downloads (trace s)
      /\ database (handle_video_note env fuel update s).2 = database s
      /\ (on_cooldown env s (effective_user update) "video" = false ->
          fault env (OpSend VideoTooLarge) = None ->
          (handle_video_note env fuel update s).1 = Returned
          /\ trace (handle_video_note env fuel update s).2 = trace s ++ [Sent VideoTooLarge])).
Proof.
  intros Hsize.
  destruct (touched_fields (effective_user update) s) as (_ & _ & _ & Htr & _).
  split; [reflexivity |]. split.
  - destruct (wp_total _ _ _ (voice_oversized_untouched env fuel update s Hsize))
      as (Hdone & Hl & Hr & Hu & Hd & Hdb).
    repeat split; try assumption;
      rewrite voice_oversized_reply by assumption; cbn [fst snd]; fields;
      [reflexivity | rewrite Htr; reflexivity].
  - destruct (wp_total _ _ _ (video_oversized_untouched env fuel update s Hsize))
      as (Hdone & Hl & Hr & Hu & Hd & Hdb).
    repeat split; try assumption;
      rewrite video_oversized_reply by assumption; cbn [fst snd]; fields;
      [reflexivity | rewrite Htr; reflexivity].
Qed.

Lemma oversized_media_is_turned_away_witness :
  MAX_FILE_SIZE < file_size oversized
  /\ uploads (trace (handle_voice calm 5 oversized idle).2) = uploads (trace idle)
  /\ local_files (handle_voice calm 5 oversized idle).2 = local_files idle
  /\ trace (handle_voice calm 5 oversized idle).2 = trace idle ++ [Sent VoiceTooLarge].
Proof.
  assert (Hsize : MAX_FILE_SIZE < file_size oversized) by (vm_compute; reflexivity).
  destruct (oversized_media_is_turned_away calm 5 oversized idle Hsize)
    as (_ & (_ & Hl & _ & Hu & _ & _ & Hsent) & _).
  split; [exact Hsize |]. split; [exact Hu |]. split; [exact Hl |].
  refine (proj2 (Hsent _ _)); vm_compute; reflexivity.
Defined.

(** C8, as the code has it.  Every handler writes the timestamp right
    after the limiter admitted the request (the media handlers after
    the size check) and before it looks at the model: an admitted text,
    fact, voice or video request that stops because the model is missing
    has already set the user's last-request time. *)
Theorem timestamp_is_written_before_the_model_check env update s :
  model_loaded env = false ->
  (is_button (message_text update) = false ->
   on_cooldown env s (effective_user update) "text" = false ->
   (handle_message env update s).1 = Returned
   /\ last_seen (handle_message env update s).2 (effective_user update) = time_mark env
   /\ trace (handle_message env update s).2 = trace s)
  /\ (on_cooldown env s (effective_user update) "fact" = false ->
      (random_fact env update s).1 = Returned
      /\ last_seen (random_fact env update s).2 (effective_user update) = time_mark env
      /\ trace (random_fact env update s).2 = trace s)
  /\ (on_cooldown env s (effective_user update) "voice" = false ->
      file_size update <= MAX_FILE_SIZE ->
      forall fuel,
        (handle_voice env fuel update s).1 = Returned
        /\ last_seen (handle_voice env fuel update s).2 (effective_user update)
           = time_mark env
        /\ trace (handle_voice env fuel update s).2 = trace s)
  /\ (on_cooldown env s (effective_user update) "video" = false ->
      file_size update <= MAX_FILE_SIZE ->
      forall fuel,
        (handle_video_note env fuel update s).1 = Returned
        /\ last_seen (handle_video_note env fuel update s).2 (effective_user update)
           = time_mark env
        /\ trace (handle_video_note env fuel update s).2 = trace s).
Proof.
  intros Hmodel.
  destruct (touched_fields (effective_user update) s) as (_ & _ & _ & Htr & _).
  assert (Hseen : forall s',
    last_seen (with_user_last_request (insert (effective_user update) (time_mark env)) s')
      (effective_user update) = time_mark env).
  { intros s'. rewrite update_user_timestamp_last_seen.
    destruct (decide (effective_user update = effective_user update)); congruence. }
  split; [| split; [| split]].
  - intros Hbtn Hcool. rewrite message_without_model by assumption. cbn [fst snd].
    rewrite Hseen. fields. auto.
  - intros Hcool. rewrite fact_without_model by assumption. cbn [fst snd].
    rewrite Hseen. fields. auto.
  - intros Hcool Hsize fuel. rewrite voice_without_model by assumption. cbn [fst snd].
    rewrite Hseen. fields. auto.
  - intros Hcool Hsize fuel. rewrite video_without_model by assumption. cbn [fst snd].
    rewrite Hseen. fields. auto.
Qed.

Lemma timestamp_is_written_before_the_model_check_witness :
  model_loaded no_model = false
  /\ is_button (message_text hi) = false
  /\ on_cooldown no_model idle 42 "text" = false
  /\ (handle_message no_model hi idle).1 = Returned
  /\ last_seen (handle_message no_model hi idle).2 42 = time_mark no_model.
Proof.
  assert (Hbtn : is_button (message_text hi) = false) by (vm_compute; reflexivity).
  assert (Hcool : on_cooldown no_model idle (effective_user hi) "text" = false)
    by (vm_compute; reflexivity).
  destruct (timestamp_is_written_before_the_model_check no_model hi idle eq_refl) as [Hm _].
  destruct (Hm Hbtn Hcool) as (Hret & Hseen & _).
  repeat split; assumption.
Defined.

(** C8 as stated fails.  User 42 was never seen before; his text is
    admitted, the model is missing, the handler returns, and his
    last-request time has moved from 0 to 1000. *)
Lemma missing_model_still_marks_the_user :
  on_cooldown no_model idle 42 "text" = false
  /\ (handle_message no_model hi idle).1 = Returned
  /\ last_seen idle 42 = 0%Q
  /\ last_seen (handle_message no_model hi idle).2 42 = 1000%Q.
Proof.
  repeat split; vm_compute; reflexivity.
Qed.

(** C9.  The handlers poll every two seconds for a voice message and
    every five for a video note.  The loop ends with the first state
    other than [PROCESSING], after one sleep per state it read; if the
    service answers [PROCESSING] for ever the loop has no end: followed
    for any number of rounds, the handler has slept that many times and
    has not come back. *)
Theorem polling_has_no_attempt_ceiling env update s :
  file_size update <= MAX_FILE_SIZE ->
  model_loaded env = true ->
  fault env OpChatAction = None -> fault env OpTelegramGetFile = None ->
  fault env OpMkdir = None -> fault env OpDownload = None -> fault env OpUpload = None ->
  upload_state env = PROCESSING ->
  (forall j, fault env (OpRemoteGet j) = None) ->
  ((forall j, poll_state env j = PROCESSING) ->
   on_cooldown env s (effective_user update) "voice" = false ->
   forall fuel,
     (handle_voice env fuel update s).1 = Diverged
     /\ sleeps (trace (handle_voice env fuel update s).2) = sleeps (trace s) ++ repeat 2 fuel)
  /\ ((forall j, poll_state env j = PROCESSING) ->
      on_cooldown env s (effective_user update) "video" = false ->
      fault env (OpSend VideoReceived) = None ->
      forall fuel,
        (handle_video_note env fuel update s).1 = Diverged
        /\ sleeps (trace (handle_video_note env fuel update s).2)
           = sleeps (trace s) ++ repeat 5 fuel)
  /\ (forall interval k fuel s1 f,
        gemini_file s1 = Some f -> state f = PROCESSING ->
        (forall j, (j < k)%nat -> poll_state env j = PROCESSING) ->
        is_processing (poll_state env k) = false ->
        (k < fuel)%nat ->
        (poll env interval 0 fuel s1).1 = Value tt
        /\ sleeps (trace (poll env interval 0 fuel s1).2)
           = sleeps (trace s1) ++ repeat interval (S k)).
Proof.
  intros Hsize Hmodel Hchat Hget Hmkdir Hdown Hup Hst Hfault. repeat split.
  - apply voice_stuck; assumption.
  - apply voice_stuck; assumption.
  - apply video_stuck; assumption.
  - apply video_stuck; assumption.
  - destruct (poll_until env interval k 0 fuel s1 f) as (Hv & _); auto.
    intros j Hj. apply H1. lia.
  - destruct (poll_until env interval k 0 fuel s1 f) as (_ & _ & Ht); auto.
    + intros j Hj. apply H1. lia.
    + rewrite Ht, sleeps_app, sleeps_poll_rounds. reflexivity.
Qed.

Lemma polling_has_no_attempt_ceiling_witness :
  file_size hi <= MAX_FILE_SIZE
  /\ (forall j, poll_state stuck j = PROCESSING)
  /\ on_cooldown stuck idle 42 "voice" = false
  /\ (forall fuel, (handle_voice stuck fuel hi idle).1 = Diverged)
  /\ (forall fuel, (handle_video_note stuck fuel hi idle).1 = Diverged).
Proof.
  assert (Hsize : file_size hi <= MAX_FILE_SIZE) by (vm_compute; discriminate).
  assert (Hpoll : forall j, poll_state stuck j = PROCESSING) by (intros j; reflexivity).
  assert (Hvoice : on_cooldown stuck idle (effective_user hi) "voice" = false)
    by (vm_compute; reflexivity).
  assert (Hvideo : on_cooldown stuck idle (effective_user hi) "video" = false)
    by (vm_compute; reflexivity).
  destruct (polling_has_no_attempt_ceiling stuck hi idle Hsize
              eq_refl eq_refl eq_refl eq_refl eq_refl eq_refl eq_refl
              (fun j => eq_refl)) as (Hv & Hn & _).
  repeat split; try assumption.
  - intros fuel. exact (proj1 (Hv Hpoll Hvoice fuel)).
  - intros fuel. exact (proj1 (Hn Hpoll Hvideo eq_refl fuel)).
Defined.

(** * Further properties of the history store *)

Import Notions Scenarios.

Lemma where_user_other uid u rows :
  u <> uid ->
  where_user u (List.filter (fun r => negb (user_id r =? uid)) rows) = where_user u rows.
Proof.
  intros Hne. unfold where_user. induction rows as [| r rows IH]; [reflexivity |].
  cbn [List.filter].
  destruct (Z.eqb_spec (user_id r) uid) as [Hr | Hr]; cbn [negb].
  - destruct (Z.eqb_spec (user_id r) u) as [Hu | Hu]; [congruence | exact IH].
  - cbn [List.filter]. rewrite IH. reflexivity.
Qed.

Lemma where_user_cleared uid rows :
  where_user uid (List.filter (fun r => negb (user_id r =? uid)) rows) = [].
Proof.
  unfold where_user. induction rows as [| r rows IH]; [reflexivity |].
  cbn [List.filter].
  destruct (Z.eqb_spec (user_id r) uid) as [Hr | Hr]; cbn [negb]; [exact IH |].
  cbn [List.filter]. destruct (Z.eqb_spec (user_id r) uid); [congruence | exact IH].
Qed.

Lemma where_user_add_other now uid u r p db :
  u <> uid ->
  where_user u (history (add_message_to_history now uid r p db)) = where_user u (history db).
Proof.
  intros Hne. unfold add_message_to_history, where_user. cbn [history].
  rewrite List.filter_app. cbn [List.filter user_id].
  destruct (Z.eqb_spec uid u); [congruence | apply app_nil_r].
Qed.

Lemma descending_app a b :
  descending (a ++ b) ->
  descending a /\ descending b
  /\ Forall (fun y => Forall (fun x => timestamp y <= timestamp x) a) b.
Proof.
  induction a as [| x a IH]; cbn [app descending].
  - intros Hb. split; [exact I |]. split; [exact Hb |].
    apply Forall_forall. intros y _. constructor.
  - intros [Hall Hrest]. apply IH in Hrest as (Ha & Hb & Hab).
    apply Forall_app in Hall as [Hxa Hxb].
    split; [split; assumption |]. split; [exact Hb |].
    rewrite Forall_forall in *. intros y Hy. constructor.
    + apply Hxb, Hy.
    + apply Hab, Hy.
Qed.

Lemma decode_rows_suffix rows : forall older newer h,
  rows = older ++ newer ->
  decode_rows rows = Some h ->
  exists ho hn, h = ho ++ hn /\ decode_rows newer = Some hn.
Proof.
  intros older newer h -> Hh. rewrite decode_rows_app in Hh.
  destruct (decode_rows older) as [ho |]; [| discriminate].
  cbn [mbind option_bind] in Hh.
  destruct (decode_rows newer) as [hn |]; [| discriminate].
  cbn [mbind option_bind] in Hh. injection Hh as <-.
  exists ho, hn. split; reflexivity.
Qed.

Lemma set_history_limit_other uid limit db u :
  u <> uid ->
  get_history_limit u (set_history_limit uid limit db) = get_history_limit u db.
Proof.
  intros Hne. unfold get_history_limit, set_history_limit. cbn [user_settings].
  rewrite lookup_insert_ne by congruence. reflexivity.
Qed.

(** X2.  The window [get_history] returns holds as many turns as the
    user has rows, up to the limit; a limit of zero gives the empty
    window and a negative limit, which SQLite reads as no limit, gives
    every row. *)
Theorem window_size uid db h :
  get_history uid db = Some h ->
  (0 <= get_history_limit uid db ->
   length h = Z.to_nat (Z.min (Z.of_nat (length (where_user uid (history db))))
                              (get_history_limit uid db))
   /\ Z.of_nat (length h) <= get_history_limit uid db)
  /\ (get_history_limit uid db = 0 -> h = [])
  /\ (get_history_limit uid db < 0 -> length h = length (where_user uid (history db))).
Proof.
  intros Hh. split; [| split].
  - intros Hpos. pose proof (get_history_length uid db h Hpos Hh) as Hlen.
    split; [exact Hlen | lia].
  - intros Hzero. assert (Hpos : 0 <= get_history_limit uid db) by lia.
    pose proof (get_history_length uid db h Hpos Hh) as Hlen.
    rewrite Hzero in Hlen. destruct h; [reflexivity |]. cbn [length] in Hlen. lia.
  - intros Hneg. unfold get_history in Hh. apply decode_rows_length in Hh.
    rewrite Hh, length_rev. unfold select_history, sql_limit.
    apply Z.ltb_lt in Hneg. rewrite Hneg. apply order_by_length.
Qed.

Lemma window_size_witness :
  get_history 42 (do_appends (set_history_limit 42 2 init_db) four_seconds)
  = Some (map entry_of [text_turn 1002 42 "user" "how are you"; text_turn 1003 42 "model" "fine"])
  /\ length (map entry_of [text_turn 1002 42 "user" "how are you";
                           text_turn 1003 42 "model" "fine"]) = 2%nat.
Proof.
  assert (Hh : get_history 42 (do_appends (set_history_limit 42 2 init_db) four_seconds)
               = Some (map entry_of [text_turn 1002 42 "user" "how are you";
                                     text_turn 1003 42 "model" "fine"]))
    by (vm_compute; reflexivity).
  split; [exact Hh |].
  destruct (window_size 42 _ _ Hh) as [Hpos _].
  destruct Hpos as [Hlen _]; [vm_compute; discriminate |].
  rewrite Hlen. vm_compute. reflexivity.
Defined.

(** X3.  The query behind [get_history] returns the user's rows in
    descending order of their timestamps and leaves out only rows that
    are not newer than any row it returns. *)
Theorem query_returns_the_newest_rows uid limit db :
  descending (select_history uid limit db)
  /\ exists omitted,
       Permutation (where_user uid (history db)) (select_history uid limit db ++ omitted)
       /\ Forall (fun y => Forall (fun x => timestamp y <= timestamp x)
                                  (select_history uid limit db)) omitted.
Proof.
  unfold select_history, sql_limit.
  pose proof (order_by_descending (where_user uid (history db))) as Hdesc.
  pose proof (order_by_perm (where_user uid (history db))) as Hperm.
  destruct (limit <? 0).
  - split; [exact Hdesc |]. exists []. rewrite app_nil_r.
    split; [symmetry; exact Hperm | constructor].
  - rewrite <- (firstn_skipn (Z.to_nat limit)) in Hdesc.
    apply descending_app in Hdesc as (Hsel & _ & Hrest).
    split; [exact Hsel |].
    exists (skipn (Z.to_nat limit) (order_by_timestamp_desc (where_user uid (history db)))).
    split; [| exact Hrest].
    rewrite firstn_skipn. symmetry. exact Hperm.
Qed.

(** X4.  The history of one user is out of reach of the others: a turn
    appended for [uid], the clearing of the history of [uid] and a new
    limit for [uid] leave the window and the limit of every other user
    as they were. *)
Theorem other_users_keep_their_window uid u db :
  u <> uid ->
  (forall now r p, get_history u (add_message_to_history now uid r p db) = get_history u db)
  /\ get_history u (clear_history uid db) = get_history u db
  /\ (forall limit, get_history u (set_history_limit uid limit db) = get_history u db)
  /\ (forall now r p,
        get_history_limit u (add_message_to_history now uid r p db) = get_history_limit u db)
  /\ get_history_limit u (clear_history uid db) = get_history_limit u db
  /\ (forall limit,
        get_history_limit u (set_history_limit uid limit db) = get_history_limit u db).
Proof.
  intros Hne. split; [| split; [| split; [| split; [| split]]]].
  - intros now r p. unfold get_history, select_history.
    rewrite where_user_add_other by exact Hne. reflexivity.
  - unfold get_history, select_history, clear_history. cbn [history].
    rewrite where_user_other by exact Hne. reflexivity.
  - intros limit. unfold get_history, select_history.
    rewrite set_history_limit_other by exact Hne. reflexivity.
  - reflexivity.
  - reflexivity.
  - intros limit. apply set_history_limit_other, Hne.
Qed.

Lemma other_users_keep_their_window_witness :
  7 <> 42
  /\ get_history 7 (add_message_to_history 1010 42 "user" (text_part (str "more"))
                      (do_appends init_db one_exchange))
     = get_history 7 (do_appends init_db one_exchange)
  /\ get_history 7 (clear_history 42 (do_appends init_db one_exchange))
     = get_history 7 (do_appends init_db one_exchange).
Proof.
  assert (Hne : 7 <> 42) by discriminate.
  destruct (other_users_keep_their_window 42 7 (do_appends init_db one_exchange) Hne)
    as (Hadd & Hclear & _).
  split; [exact Hne |]. split; [apply Hadd | exact Hclear].
Defined.

Lemma get_history_cleared uid db : get_history uid (clear_history uid db) = Some [].
Proof.
  unfold get_history, select_history, clear_history. cbn [history].
  rewrite where_user_cleared. unfold sql_limit.
  destruct (_ <? 0); [reflexivity |]. rewrite firstn_nil. reflexivity.
Qed.

Lemma get_history_other_cleared uid u db :
  u <> uid -> get_history u (clear_history uid db) = get_history u db.
Proof.
  intros Hne. unfold get_history, select_history, clear_history. cbn [history].
  rewrite where_user_other by exact Hne. reflexivity.
Qed.

(** X5.  [clear_history] leaves the user with an empty window and with
    the limit he had; clearing twice is clearing once; the turns appended
    afterwards, stamped at increasing seconds, fill a new window that
    holds none of the cleared turns. *)
Theorem cleared_history_starts_afresh uid db :
  get_history uid (clear_history uid db) = Some []
  /\ (forall u, get_history_limit u (clear_history uid db) = get_history_limit u db)
  /\ clear_history uid (clear_history uid db) = clear_history uid db
  /\ (forall l,
        forallb native_append (appends_of uid l) = true ->
        0 <= get_history_limit uid db ->
        strictly_increasing (map app_time (appends_of uid l)) = true ->
        get_history uid (do_appends (clear_history uid db) l)
        = Some (last_turns (get_history_limit uid db) (appends_of uid l))).
Proof.
  split; [| split; [| split]].
  - unfold get_history, select_history, clear_history. cbn [history].
    rewrite where_user_cleared. unfold sql_limit.
    destruct (_ <? 0); [reflexivity |]. rewrite firstn_nil. reflexivity.
  - reflexivity.
  - unfold clear_history. cbn [history history_seq user_settings]. f_equal.
    induction (history db) as [| r rows IH]; [reflexivity |].
    cbn [List.filter]. destruct (negb (user_id r =? uid)) eqn:Hr; [| exact IH].
    cbn [List.filter]. rewrite Hr, IH. reflexivity.
  - intros l Hnative Hlimit Hinc.
    apply (window_after_appends uid (clear_history uid db) l); try assumption.
    unfold clear_history. cbn [history]. apply where_user_cleared.
Qed.

(** X6.  When the turns of a user with no earlier rows are stamped at
    strictly increasing seconds, the window is the list of his last
    turns, as many as the limit allows, oldest first. *)
Theorem window_is_the_last_turns uid db l :
  where_user uid (history db) = [] ->
  forallb native_append (appends_of uid l) = true ->
  0 <= get_history_limit uid db ->
  strictly_increasing (map app_time (appends_of uid l)) = true ->
  get_history uid (do_appends db l)
  = Some (last_turns (get_history_limit uid db) (appends_of uid l))
  /\ length (last_turns (get_history_limit uid db) (appends_of uid l))
     = Z.to_nat (Z.min (Z.of_nat (length (appends_of uid l))) (get_history_limit uid db)).
Proof.
  intros Hempty Hnative Hlimit Hinc. split.
  - apply window_after_appends; assumption.
  - apply last_turns_length, Hlimit.
Qed.

Lemma window_is_the_last_turns_witness :
  get_history 42 (do_appends (set_history_limit 42 3 init_db) four_seconds)
  = Some (map entry_of [text_turn 1001 42 "model" "hello";
                        text_turn 1002 42 "user" "how are you";
                        text_turn 1003 42 "model" "fine"]).
Proof.
  refine (proj1 (window_is_the_last_turns 42 (set_history_limit 42 3 init_db) four_seconds
                   _ _ _ _)).
  - reflexivity.
  - reflexivity.
  - vm_compute. discriminate.
  - reflexivity.
Defined.

(** X7.  A lower limit cuts the window at its old end and nowhere else:
    the window read under a limit is the tail of the window read under
    any higher limit, so the turns a lower limit hides are still stored
    and come back when the limit is raised. *)
Theorem lower_limit_keeps_the_newest_turns uid low high db h :
  0 <= low <= high ->
  get_history uid (set_history_limit uid high db) = Some h ->
  exists hidden kept,
    h = hidden ++ kept
    /\ get_history uid (set_history_limit uid low db) = Some kept
    /\ get_history uid (set_history_limit uid high (set_history_limit uid low db)) = Some h.
Proof.
  intros [Hlow Hhigh] Hh.
  assert (Hback : set_history_limit uid high (set_history_limit uid low db)
                  = set_history_limit uid high db).
  { unfold set_history_limit. cbn [user_settings history history_seq].
    rewrite insert_insert_eq. reflexivity. }
  rewrite Hback.
  unfold get_history, select_history in *.
  assert (Hget : forall n, get_history_limit uid (set_history_limit uid n db) = n).
  { intros n. unfold get_history_limit, set_history_limit. cbn [user_settings].
    rewrite lookup_insert_eq. reflexivity. }
  rewrite !Hget in *. cbn [history set_history_limit] in *.
  set (sorted := order_by_timestamp_desc (where_user uid (history db))) in *.
  unfold sql_limit in *.
  destruct (Z.ltb_spec high 0) as [? | _]; [lia |].
  destruct (Z.ltb_spec low 0) as [? | _]; [lia |].
  assert (Hsplit : firstn (Z.to_nat high) sorted
                   = firstn (Z.to_nat low) sorted
                     ++ skipn (Z.to_nat low) (firstn (Z.to_nat high) sorted)).
  { rewrite <- (firstn_skipn (Z.to_nat low) (firstn (Z.to_nat high) sorted)) at 1.
    rewrite firstn_firstn. f_equal. f_equal. lia. }
  rewrite Hsplit, rev_app_distr in Hh.
  destruct (decode_rows_suffix _ _ _ h eq_refl Hh) as (ho & hn & -> & Hn).
  exists ho, hn. split; [reflexivity |]. split; [exact Hn |].
  rewrite <- Hh. rewrite <- rev_app_distr, <- Hsplit. reflexivity.
Qed.

Lemma lower_limit_keeps_the_newest_turns_witness :
  exists hidden kept,
    map entry_of [text_turn 1000 42 "user" "hi"; text_turn 1001 42 "model" "hello";
                  text_turn 1002 42 "user" "how are you"; text_turn 1003 42 "model" "fine"]
    = hidden ++ kept
    /\ get_history 42 (set_history_limit 42 2 (do_appends init_db four_seconds)) = Some kept.
Proof.
  assert (Hh : get_history 42 (set_history_limit 42 4 (do_appends init_db four_seconds))
               = Some (map entry_of
                         [text_turn 1000 42 "user" "hi"; text_turn 1001 42 "model" "hello";
                          text_turn 1002 42 "user" "how are you";
                          text_turn 1003 42 "model" "fine"]))
    by (vm_compute; reflexivity).
  destruct (lower_limit_keeps_the_newest_turns 42 2 4 (do_appends init_db four_seconds) _
              ltac:(lia) Hh) as (hidden & kept & Heq & Hkept & _).
  exists hidden, kept. split; [exact Heq | exact Hkept].
Defined.

(** * A further property of the codec *)

Lemma to_digits_all fuel : forall n acc,
  0 <= n ->
  Forall (fun c => is_digit c = true) acc ->
  Forall (fun c => is_digit c = true) (to_digits fuel n acc).
Proof.
  induction fuel as [| f IH]; intros n acc Hn Hacc; cbn [to_digits]; [exact Hacc |].
  assert (Hd : is_digit (digit_char (n mod 10)) = true)
    by (apply digit_char_spec, Z.mod_pos_bound; lia).
  destruct (n <? 10); [constructor; assumption |].
  apply IH; [Z.div_mod_to_equations; lia | constructor; assumption].
Qed.

Lemma digit_printable c : is_digit c = true -> printable c = true.
Proof.
  intros H. apply is_digit_spec in H. unfold printable.
  apply andb_true_intro. split; [apply Z.leb_le | apply Z.leb_le]; lia.
Qed.

Lemma hexdigit_printable d : 0 <= d < 16 -> printable (hexdigit d) = true.
Proof.
  intros Hd. unfold printable, hexdigit.
  destruct (d <? 10); rewrite ord_chr by lia;
    apply andb_true_intro; split; apply Z.leb_le; lia.
Qed.

Lemma u_escape_printable n : Forall (fun ch => printable ch = true) (u_escape n).
Proof.
  unfold u_escape, hex4.
  repeat constructor; apply hexdigit_printable, Z.mod_pos_bound; lia.
Qed.

Lemma encode_char_printable c : Forall (fun ch => printable ch = true) (encode_char c).
Proof.
  unfold encode_char.
  repeat match goal with
         | |- context [if ?b then _ else _] => destruct b eqn:?
         end;
    try (repeat constructor; fail).
  - constructor; [| constructor].
    match goal with H : (_ <=? _) && (_ <=? _) = true |- _ => apply andb_prop in H as [Hlo Hhi] end.
    apply Z.leb_le in Hlo, Hhi. unfold printable. rewrite ord_chr by lia.
    apply andb_true_intro. split; apply Z.leb_le; lia.
  - apply u_escape_printable.
  - cbv zeta. apply Forall_app. split; apply u_escape_printable.
Qed.

Lemma encode_str_printable s : Forall (fun ch => printable ch = true) (encode_str s).
Proof.
  unfold encode_str, encode_chars. constructor; [reflexivity |].
  apply Forall_app. split; [| repeat constructor].
  induction s as [| c s IH]; [constructor |].
  cbn [map concat]. apply Forall_app. split; [apply encode_char_printable | exact IH].
Qed.

Lemma encode_int_printable n : Forall (fun ch => printable ch = true) (encode_int n).
Proof.
  assert (Hdec : forall m, 0 <= m -> Forall (fun ch => printable ch = true) (decimal m)).
  { intros m Hm. eapply Forall_impl; [apply to_digits_all; [exact Hm | constructor] |].
    intros ch. apply digit_printable. }
  unfold encode_int. destruct (Z.ltb_spec n 0).
  - constructor; [reflexivity | apply Hdec; lia].
  - apply Hdec. lia.
Qed.

Lemma join_printable sep items :
  Forall (fun ch => printable ch = true) sep ->
  Forall (Forall (fun ch => printable ch = true)) items ->
  Forall (fun ch => printable ch = true) (join sep items).
Proof.
  intros Hsep Hitems. induction Hitems as [| x items Hx Hitems IH]; [constructor |].
  destruct items as [| y items]; [exact Hx |].
  change (join sep (x :: y :: items)) with (x ++ sep ++ join sep (y :: items)).
  apply Forall_app. split; [exact Hx |]. apply Forall_app. split; [exact Hsep | exact IH].
Qed.

(** X28.  What [add_message_to_history] writes into the column
    [parts] is printable ASCII, whatever the language of the message:
    [json.dumps] escapes every other character. *)
Theorem stored_parts_are_printable_ascii v :
  Forall (fun ch => printable ch = true) (dumps v)
  /\ forall now uid r db,
       last (history (add_message_to_history now uid r v db))
       = Some {| id := history_seq db + 1; user_id := uid; role := r;
                 parts := dumps v; timestamp := now |}.
Proof.
  split; [| intros now uid r db; cbn [add_message_to_history history]; apply last_snoc].
  induction v as [| b | n | s | l IH | d IH] using value_nested_ind; cbn [dumps].
  - repeat constructor.
  - destruct b; repeat constructor.
  - apply encode_int_printable.
  - apply encode_str_printable.
  - constructor; [reflexivity |]. apply Forall_app. split; [| repeat constructor].
    apply join_printable; [repeat constructor |].
    apply Forall_map. exact IH.
  - constructor; [reflexivity |]. apply Forall_app. split; [| repeat constructor].
    apply join_printable; [repeat constructor |].
    apply Forall_map. eapply Forall_impl; [exact IH |].
    intros [k x] Hx. cbn [fst snd] in *.
    apply Forall_app. split; [apply encode_str_printable |].
    apply Forall_app. split; [repeat constructor | exact Hx].
Qed.

(** * Further properties of the handlers *)

(** *** What a request may change *)

Lemma stable_touched uid ok P s : stable uid ok P -> P s -> P (touched uid s).
Proof.
  intros Hst Hs. unfold touched.
  destruct (user_last_request s !! uid); [exact Hs | apply (stable_mark _ _ _ Hst), Hs].
Qed.

Ltac stable_close Hst :=
  repeat lazymatch goal with
         | |- _ (with_trace _ _) => apply (stable_trace _ _ _ Hst)
         | |- _ (with_file_path _ _) => apply (stable_file_path _ _ _ Hst)
         | |- _ (with_gemini_file _ _) => apply (stable_gemini_file _ _ _ Hst)
         | |- _ (with_local_files _ _) => apply (stable_local_files _ _ _ Hst)
         | |- _ (with_remote_files _ _) => apply (stable_remote_files _ _ _ Hst)
         | |- _ (with_user_last_request (insert _ _) _) => apply (stable_mark _ _ _ Hst)
         | |- _ (with_database (add_message_to_history _ _ _ _) _) =>
             apply (stable_append _ _ _ Hst); [assumption |]
         | |- _ (touched _ _) => apply (stable_touched _ _ _ _ Hst)
         end;
  try assumption.

Section Frame.
Variable env : Env.
Variable update : Update.
Variable ok : value -> Prop.
Variable P : State -> Prop.
Hypothesis Hst : stable (effective_user update) ok P.
Hypothesis Hok_text : ok (text_part (message_text update)).
Hypothesis Hok_answer : ok (text_part (response_text env)).
Hypothesis Hok_voice : ok (text_part VOICE_PLACEHOLDER).
Hypothesis Hok_video : ok (text_part VIDEO_PLACEHOLDER).

Lemma settings_menu_stable d s :
  P s -> wp d (settings_menu env update) (fun _ => P) P s.
Proof.
  intros Hs. unfold settings_menu. cbv zeta. wp_steps; stable_close Hst.
Qed.

Lemma random_fact_stable d s :
  P s -> wp d (random_fact env update) (fun _ => P) P s.
Proof.
  intros Hs. unfold random_fact. cbv zeta. wp_steps; try (stable_close Hst; fail).
  apply wp_try_except with (Inv := P).
  - wp_steps; stable_close Hst.
  - trivial.
  - intros msg s' Hs'. wp_steps; stable_close Hst.
Qed.

Lemma handle_message_stable d s :
  P s -> wp d (handle_message env update) (fun _ => P) P s.
Proof.
  intros Hs. unfold handle_message. cbv zeta.
  wp_steps; try (stable_close Hst; fail).
  - apply random_fact_stable, Hs.
  - apply settings_menu_stable, Hs.
  - apply wp_try_except with (Inv := P).
    + wp_steps; stable_close Hst.
    + trivial.
    + intros msg s' Hs'. wp_steps; stable_close Hst.
Qed.

Lemma poll_stable interval : forall fuel i s,
  P s -> wp True (poll env interval i fuel) (fun _ => P) P s.
Proof.
  induction fuel as [| fuel IH]; intros i s Hs; cbn [poll].
  - wp_steps; stable_close Hst.
  - wp_steps; try (stable_close Hst; fail).
    apply IH. stable_close Hst.
Qed.

Lemma cleanup_stable d s :
  P s -> wp d (cleanup env) (fun _ => P) P s.
Proof.
  intros Hs. unfold cleanup. wp_steps; stable_close Hst.
Qed.

Lemma handle_voice_stable fuel s :
  P s -> wp True (handle_voice env fuel update) (fun _ => P) P s.
Proof.
  intros Hs. unfold handle_voice. cbv zeta. wp_steps; try (stable_close Hst; fail).
  apply wp_try_finally with (Inv := P); [| intros s' Hs'; apply cleanup_stable, Hs'].
  apply wp_try_except with (Inv := P).
  - wp_steps; try (stable_close Hst; fail).
    eapply wp_mono; [apply poll_stable; stable_close Hst | | trivial].
    intros [] s' Hs'. cbv beta. wp_steps; stable_close Hst.
  - trivial.
  - intros msg s' Hs'. wp_steps; stable_close Hst.
Qed.

Lemma handle_video_note_stable fuel s :
  P s -> wp True (handle_video_note env fuel update) (fun _ => P) P s.
Proof.
  intros Hs. unfold handle_video_note. cbv zeta. wp_steps; try (stable_close Hst; fail).
  apply wp_try_finally with (Inv := P); [| intros s' Hs'; apply cleanup_stable, Hs'].
  apply wp_try_except with (Inv := P).
  - wp_steps; try (stable_close Hst; fail).
    eapply wp_mono; [apply poll_stable; stable_close Hst | | trivial].
    intros [] s' Hs'. cbv beta. wp_steps; stable_close Hst.
  - trivial.
  - intros msg s' Hs'. wp_steps; stable_close Hst.
Qed.

End Frame.

Lemma same_user_stable uid u s0 : u <> uid -> stable uid any_parts (same_user u s0).
Proof.
  intros Hne. split; unfold same_user; intros; fields; try assumption.
  - destruct H as (Hrows & Hset & Hseen). split; [exact Hrows |]. split; [exact Hset |].
    rewrite <- Hseen. unfold last_seen. fields.
    rewrite lookup_insert_ne by congruence. reflexivity.
  - destruct H0 as (Hrows & Hset & Hseen).
    rewrite where_user_add_other by exact Hne. auto.
Qed.

Lemma same_user_refl u s : same_user u s s.
Proof. repeat split. Qed.

Lemma same_user_window u s0 s :
  same_user u s0 s ->
  get_history u (database s) = get_history u (database s0)
  /\ get_history_limit u (database s) = get_history_limit u (database s0).
Proof.
  intros (Hrows & Hset & _).
  assert (Hlimit : get_history_limit u (database s) = get_history_limit u (database s0))
    by (unfold get_history_limit; rewrite Hset; reflexivity).
  split; [| exact Hlimit].
  unfold get_history, select_history. rewrite Hlimit, Hrows. reflexivity.
Qed.

Lemma only_appended_stable uid s0 : stable uid any_parts (only_appended uid s0).
Proof.
  split; unfold only_appended; intros; fields; try assumption.
  destruct H0 as [(added & Hrows & Hall) Hset]. split; [| exact Hset].
  eexists (added ++ [_]). cbn [history add_message_to_history].
  rewrite Hrows, <- app_assoc. split; [reflexivity |].
  apply Forall_app. split; [exact Hall |]. constructor; [reflexivity | constructor].
Qed.

Lemma only_appended_refl uid s : only_appended uid s s.
Proof.
  split; [| reflexivity]. exists []. rewrite app_nil_r. split; [reflexivity | constructor].
Qed.

(** X8.  A request changes nothing that belongs to another user: when
    the handler of a text, a voice message or a video note comes back,
    by whatever path, the rows, the window, the limit and the limiter
    timestamp of every user other than the sender are as they were. *)
Theorem request_leaves_the_other_users_alone env fuel update s u :
  u <> effective_user update ->
  (same_user u s (handle_message env update s).2
   /\ get_history u (database (handle_message env update s).2) = get_history u (database s))
  /\ (completed (handle_voice env fuel update s).1 ->
      same_user u s (handle_voice env fuel update s).2
      /\ get_history u (database (handle_voice env fuel update s).2)
         = get_history u (database s))
  /\ (completed (handle_video_note env fuel update s).1 ->
      same_user u s (handle_video_note env fuel update s).2
      /\ get_history u (database (handle_video_note env fuel update s).2)
         = get_history u (database s)).
Proof.
  intros Hne.
  pose proof (same_user_stable (effective_user update) u s Hne) as Hst.
  split; [| split].
  - destruct (wp_total _ _ _
                (handle_message_stable env update _ _ Hst I I False s (same_user_refl u s)))
      as [_ Hs].
    split; [exact Hs | apply same_user_window, Hs].
  - intros Hdone.
    pose proof (wp_partial _ _ _
                  (handle_voice_stable env update _ _ Hst I I fuel s (same_user_refl u s)) Hdone)
      as Hs.
    split; [exact Hs | apply same_user_window, Hs].
  - intros Hdone.
    pose proof (wp_partial _ _ _
                  (handle_video_note_stable env update _ _ Hst I I fuel s (same_user_refl u s))
                  Hdone) as Hs.
    split; [exact Hs | apply same_user_window, Hs].
Qed.

Lemma request_leaves_the_other_users_alone_witness :
  7 <> effective_user hi
  /\ get_history 7 (database (handle_message calm hi two_users).2)
     = get_history 7 (database two_users)
  /\ last_seen (handle_message calm hi two_users).2 7 = last_seen two_users 7.
Proof.
  assert (Hne : 7 <> effective_user hi) by discriminate.
  destruct (request_leaves_the_other_users_alone calm 5 hi two_users 7 Hne)
    as [[(_ & _ & Hseen) Hwin] _].
  split; [exact Hne |]. split; [exact Hwin | exact Hseen].
Defined.

(** X9.  No handler deletes or rewrites a stored row, and none changes
    a limit: when the handler of a text, a voice message or a video note
    comes back, the table [history] is the table it found followed by
    rows of the sender, and the limits are those it found. *)
Theorem request_only_appends_rows_of_its_sender env fuel update s :
  only_appended (effective_user update) s (handle_message env update s).2
  /\ (completed (handle_voice env fuel update s).1 ->
      only_appended (effective_user update) s (handle_voice env fuel update s).2)
  /\ (completed (handle_video_note env fuel update s).1 ->
      only_appended (effective_user update) s (handle_video_note env fuel update s).2).
Proof.
  pose proof (only_appended_stable (effective_user update) s) as Hst.
  pose proof (only_appended_refl (effective_user update) s) as Hs.
  split; [| split].
  - exact (proj2 (wp_total _ _ _ (handle_message_stable env update _ _ Hst I I False s Hs))).
  - intros Hdone.
    exact (wp_partial _ _ _ (handle_voice_stable env update _ _ Hst I I fuel s Hs) Hdone).
  - intros Hdone.
    exact (wp_partial _ _ _ (handle_video_note_stable env update _ _ Hst I I fuel s Hs) Hdone).
Qed.

Lemma readable_stable uid : stable uid native_parts readable.
Proof.
  split; unfold readable; intros; fields; try assumption.
  cbn [history add_message_to_history]. apply Forall_app. split; [assumption |].
  constructor; [| constructor]. unfold decodable. cbn [parts].
  rewrite loads_dumps by assumption. eexists. reflexivity.
Qed.

Lemma native_text_part t : text_ok t = true -> native_parts (text_part t).
Proof.
  intros Ht. unfold native_parts, text_part. cbn. rewrite Ht. reflexivity.
Qed.

Lemma readable_window u s : readable s -> is_Some (get_history u (database s)).
Proof.
  intros Hs. unfold get_history.
  destruct (decode_rows_all
              (rev (select_history u (get_history_limit u (database s)) (database s))))
    as [h Hh]; [| rewrite Hh; eexists; reflexivity].
  unfold readable in Hs. rewrite Forall_forall in *. intros x Hx.
  apply list_elem_of_In, in_rev, select_history_in in Hx.
  apply Hs, list_elem_of_In. unfold where_user in Hx.
  apply List.filter_In in Hx. tauto.
Qed.

(** X27.  What the handlers store can be read back: if every row of
    the history can be decoded and the text of the request and the
    answer of the model are well-formed Unicode text, every row can
    still be decoded when the handler has come back, so that
    [get_history] does not raise for any user. *)
Theorem stored_rows_can_be_read_back env fuel update s :
  readable s ->
  text_ok (message_text update) = true ->
  text_ok (response_text env) = true ->
  (readable (handle_message env update s).2
   /\ forall u, is_Some (get_history u (database (handle_message env update s).2)))
  /\ (completed (handle_voice env fuel update s).1 ->
      readable (handle_voice env fuel update s).2
      /\ forall u, is_Some (get_history u (database (handle_voice env fuel update s).2)))
  /\ (completed (handle_video_note env fuel update s).1 ->
      readable (handle_video_note env fuel update s).2
      /\ forall u, is_Some (get_history u (database (handle_video_note env fuel update s).2))).
Proof.
  intros Hs Htext Hanswer.
  pose proof (readable_stable (effective_user update)) as Hst.
  pose proof (native_text_part _ Htext) as Hok_text.
  pose proof (native_text_part _ Hanswer) as Hok_answer.
  assert (Hok_voice : native_parts (text_part VOICE_PLACEHOLDER)) by reflexivity.
  assert (Hok_video : native_parts (text_part VIDEO_PLACEHOLDER)) by reflexivity.
  split; [| split].
  - destruct (wp_total _ _ _
                (handle_message_stable env update _ _ Hst Hok_text Hok_answer False s Hs))
      as [_ Hs'].
    split; [exact Hs' | intros u; apply readable_window, Hs'].
  - intros Hdone.
    pose proof (wp_partial _ _ _
                  (handle_voice_stable env update _ _ Hst Hok_answer Hok_voice fuel s Hs)
                  Hdone) as Hs'.
    split; [exact Hs' | intros u; apply readable_window, Hs'].
  - intros Hdone.
    pose proof (wp_partial _ _ _
                  (handle_video_note_stable env update _ _ Hst Hok_answer Hok_video fuel s Hs)
                  Hdone) as Hs'.
    split; [exact Hs' | intros u; apply readable_window, Hs'].
Qed.

Lemma stored_rows_can_be_read_back_witness :
  readable two_users
  /\ forall u, is_Some (get_history u (database (handle_message calm hi two_users).2)).
Proof.
  assert (Hs : readable two_users).
  { unfold readable, two_users. cbn [database].
    apply Forall_forall. intros x Hx. apply list_elem_of_In in Hx.
    cbn in Hx. destruct Hx as [<- | [<- | [<- | []]]]; eexists; vm_compute; reflexivity. }
  destruct (stored_rows_can_be_read_back calm 5 hi two_users Hs eq_refl eq_refl)
    as [[_ Hwin] _].
  split; [exact Hs | exact Hwin].
Defined.

Lemma settings_from_button env update s :
  callback_query update = true ->
  fault env OpGetHistoryLimit = None ->
  fault env (OpSend (SettingsMenu (get_history_limit (effective_user update) (database s))))
  = None ->
  settings_menu env update s
  = (Value tt,
     with_trace
       (fun t => t ++ [Edited (SettingsMenu
                                 (get_history_limit (effective_user update) (database s)))])
       (with_user_last_request (insert (effective_user update) (time_mark env)) s)).
Proof.
  intros Hcb Hlimit Hsend.
  unfold settings_menu, db_get_history_limit, edit, call. cbv zeta.
  rewrite Hcb, Hlimit. unfold mbind, M_bind, bind. cbn. rewrite Hsend. reflexivity.
Qed.

Lemma settings_from_command env update s :
  callback_query update = false ->
  on_cooldown env s (effective_user update) "settings" = false ->
  fault env OpGetHistoryLimit = None ->
  fault env (OpSend (SettingsMenu (get_history_limit (effective_user update) (database s))))
  = None ->
  settings_menu env update s
  = (Value tt,
     with_trace
       (fun t => t ++ [Sent (SettingsMenu
                               (get_history_limit (effective_user update) (database s)))])
       (with_user_last_request (insert (effective_user update) (time_mark env))
          (touched (effective_user update) s))).
Proof.
  intros Hcb Hcool Hlimit Hsend.
  destruct (touched_fields (effective_user update) s) as (Hdb & _).
  unfold settings_menu, db_get_history_limit, reply, call. cbv zeta.
  rewrite Hcb, Hlimit. unfold mbind, M_bind, bind.
  rewrite is_user_on_cooldown_run, Hcool. cbn. rewrite Hdb, Hsend. reflexivity.
Qed.

Lemma settings_rejected env update s :
  callback_query update = false ->
  on_cooldown env s (effective_user update) "settings" = true ->
  settings_menu env update s
  = (Returned, with_trace (fun t => t ++ [Logged WARNING]) (touched (effective_user update) s)).
Proof.
  intros Hcb Hcool. unfold settings_menu. cbv zeta.
  rewrite Hcb. unfold mbind, M_bind, bind.
  rewrite is_user_on_cooldown_run, Hcool. reflexivity.
Qed.

(** X10.  The settings menu shows the limit stored for the user.  Sent
    as the command [/settings] it is subject to the cooldown of two
    seconds; opened from an inline button it is never turned away, but
    it writes the timestamp of the user all the same, so that the next
    request of the user is measured from the press of the button. *)
Theorem settings_menu_shows_the_stored_limit env update s :
  fault env OpGetHistoryLimit = None ->
  fault env (OpSend (SettingsMenu (get_history_limit (effective_user update) (database s))))
  = None ->
  (callback_query update = true ->
   (settings_menu env update s).1 = Value tt
   /\ trace (settings_menu env update s).2
      = trace s ++ [Edited (SettingsMenu
                              (get_history_limit (effective_user update) (database s)))]
   /\ last_seen (settings_menu env update s).2 (effective_user update) = time_mark env)
  /\ (callback_query update = false ->
      on_cooldown env s (effective_user update) "settings" = false ->
      (settings_menu env update s).1 = Value tt
      /\ trace (settings_menu env update s).2
         = trace s ++ [Sent (SettingsMenu
                               (get_history_limit (effective_user update) (database s)))]
      /\ last_seen (settings_menu env update s).2 (effective_user update) = time_mark env)
  /\ (callback_query update = false ->
      on_cooldown env s (effective_user update) "settings" = true ->
      (settings_menu env update s).1 = Returned
      /\ trace (settings_menu env update s).2 = trace s ++ [Logged WARNING]
      /\ forall u, last_seen (settings_menu env update s).2 u = last_seen s u)
  /\ cooldown_of "settings" = 2.
Proof.
  intros Hlimit Hsend.
  destruct (touched_fields (effective_user update) s) as (Hdb & _ & _ & Htr & _).
  assert (Hseen : forall s',
    last_seen (with_user_last_request (insert (effective_user update) (time_mark env)) s')
      (effective_user update) = time_mark env).
  { intros s'. rewrite update_user_timestamp_last_seen.
    destruct (decide (effective_user update = effective_user update)); congruence. }
  split; [| split; [| split]].
  - intros Hcb. rewrite settings_from_button by assumption. cbn [fst snd].
    unfold last_seen in *. fields. rewrite Hseen. auto.
  - intros Hcb Hcool. rewrite settings_from_command by assumption. cbn [fst snd].
    unfold last_seen in *. fields. rewrite Hseen, Htr. auto.
  - intros Hcb Hcool. rewrite settings_rejected by assumption. cbn [fst snd]. fields.
    rewrite Htr. split; [reflexivity |]. split; [reflexivity |].
    intros u. apply touched_last_seen.
  - reflexivity.
Qed.

Lemma settings_menu_shows_the_stored_limit_witness :
  (settings_menu calm press (with_database (set_history_limit 42 20) recent)).1 = Value tt
  /\ trace (settings_menu calm press (with_database (set_history_limit 42 20) recent)).2
     = [Edited (SettingsMenu 20)]
  /\ on_cooldown calm recent 42 "settings" = true.
Proof.
  destruct (settings_menu_shows_the_stored_limit calm press
              (with_database (set_history_limit 42 20) recent) eq_refl eq_refl)
    as (Hpress & _).
  destruct (Hpress eq_refl) as (Hv & Ht & _).
  split; [exact Hv |]. split; [exact Ht |]. vm_compute. reflexivity.
Defined.

(** *** What a keyboard button can cause *)

Lemma asked_only_refl allowed s : asked_only allowed s s.
Proof.
  split; [reflexivity |]. split; [reflexivity |]. exists []. rewrite app_nil_r.
  split; [reflexivity | apply incl_nil_l].
Qed.

Lemma generations_snoc t e :
  generations (t ++ [e])
  = generations t ++ match generation_of e with Some g => [g] | None => [] end.
Proof.
  unfold generations. rewrite omap_app. reflexivity.
Qed.

Lemma history_reads_snoc t e :
  is_history_read e = false -> history_reads (t ++ [e]) = history_reads t.
Proof.
  intros He. unfold history_reads. rewrite List.filter_app. cbn [List.filter].
  rewrite He. apply app_nil_r.
Qed.

Lemma asked_only_emit allowed s0 s e :
  generation_of e = None ->
  is_history_read e = false ->
  asked_only allowed s0 s -> asked_only allowed s0 (with_trace (fun t => t ++ [e]) s).
Proof.
  intros He Hread (Hdb & Hreads & added & Hgen & Hincl). split; [exact Hdb |].
  split; [fields; rewrite history_reads_snoc by exact Hread; exact Hreads |].
  exists added. fields. rewrite generations_snoc, He, app_nil_r. auto.
Qed.

Lemma asked_only_generate allowed s0 s h p a :
  In (h, p, a) allowed ->
  asked_only allowed s0 s ->
  asked_only allowed s0 (with_trace (fun t => t ++ [Generate h p a]) s).
Proof.
  intros Hin (Hdb & Hreads & added & Hgen & Hincl). split; [exact Hdb |].
  split; [fields; rewrite history_reads_snoc by reflexivity; exact Hreads |].
  exists (added ++ [(h, p, a)]). fields. rewrite generations_snoc.
  cbn [generation_of]. rewrite Hgen, <- app_assoc. split; [reflexivity |].
  apply incl_app; [exact Hincl |]. intros x [<- | []]. exact Hin.
Qed.

Lemma asked_only_mark allowed s0 s f :
  asked_only allowed s0 s -> asked_only allowed s0 (with_user_last_request f s).
Proof. intros H. exact H. Qed.

Lemma asked_only_touched allowed s0 s uid :
  asked_only allowed s0 s -> asked_only allowed s0 (touched uid s).
Proof.
  unfold asked_only. destruct (touched_fields uid s) as (-> & _ & _ & -> & _). tauto.
Qed.

Ltac asked_close :=
  repeat lazymatch goal with
         | |- asked_only _ _ (with_trace (fun t => t ++ [Generate _ _ _]) _) =>
             apply asked_only_generate; [left; reflexivity |]
         | |- asked_only _ _ (with_trace _ _) =>
             apply asked_only_emit; [reflexivity | reflexivity |]
         | |- asked_only _ _ (with_user_last_request _ _) => apply asked_only_mark
         | |- asked_only _ _ (touched _ _) => apply asked_only_touched
         end;
  first [assumption | apply asked_only_refl].

Lemma random_fact_asks_for_a_fact env update s0 s :
  asked_only [([], FactPrompt, None)] s0 s ->
  wp False (random_fact env update)
     (fun _ => asked_only [([], FactPrompt, None)] s0)
     (asked_only [([], FactPrompt, None)] s0) s.
Proof.
  intros Hs. unfold random_fact. cbv zeta. wp_steps; try (asked_close; fail).
  apply wp_try_except with (Inv := asked_only [([], FactPrompt, None)] s0).
  - wp_steps; asked_close.
  - trivial.
  - intros msg s' Hs'. wp_steps; asked_close.
Qed.

(** X11.  The random fact stands apart from the conversation: by
    whatever path [random_fact] ends, the database is as it found it,
    the table [history] was not read, and the only inference call it
    can have made is the fact prompt on an empty history.  The same
    holds for a text that is one of the three keyboard buttons: it is
    never stored as a turn and never put to the model as a question. *)
Theorem fact_and_buttons_stay_out_of_the_history env update s :
  (completed (random_fact env update s).1
   /\ asked_only [([], FactPrompt, None)] s (random_fact env update s).2)
  /\ (is_button (message_text update) = true ->
      completed (handle_message env update s).1
      /\ asked_only [([], FactPrompt, None)] s (handle_message env update s).2).
Proof.
  split.
  - apply wp_total, random_fact_asks_for_a_fact, asked_only_refl.
  - intros Hbtn. apply wp_total. unfold handle_message. cbv zeta.
    wp_steps; try (asked_close; fail).
    + apply random_fact_asks_for_a_fact, asked_only_refl.
    + unfold settings_menu. cbv zeta. wp_steps; asked_close.
    + unfold is_button in Hbtn.
      repeat match goal with H : bool_decide _ = false |- _ => rewrite H in Hbtn end.
      discriminate.
Qed.

Lemma fact_and_buttons_stay_out_of_the_history_witness :
  is_button (message_text fact_button) = true
  /\ database (handle_message calm fact_button two_users).2 = database two_users
  /\ history_reads (trace (handle_message calm fact_button two_users).2) = []
  /\ generations (trace (handle_message calm fact_button two_users).2)
     = [([], FactPrompt, None)].
Proof.
  assert (Hbtn : is_button (message_text fact_button) = true) by (vm_compute; reflexivity).
  destruct (fact_and_buttons_stay_out_of_the_history calm fact_button two_users)
    as [_ Hpress].
  destruct (Hpress Hbtn) as (_ & Hdb & Hreads & _).
  split; [exact Hbtn |]. split; [exact Hdb |]. split; [exact Hreads |].
  vm_compute. reflexivity.
Defined.

(** *** An exchange, step by step *)

Section Exchange.
Variable env : Env.
Variable update : Update.
Variable s : State.
Variable h : list Entry.

Hypothesis Hbtn : is_button (message_text update) = false.
Hypothesis Hcool : on_cooldown env s (effective_user update) "text" = false.
Hypothesis Hmodel : model_loaded env = true.
Hypothesis Hchat : fault env OpChatAction = None.
Hypothesis Hread : fault env OpGetHistory = None.
Hypothesis Hh : get_history (effective_user update) (database s) = Some h.
Hypothesis Hgen : fault env OpGenerate = None.
Hypothesis Huser : fault env (OpAddMessage "user") = None.

Ltac run_exchange :=
  pose proof Hbtn as Hb; apply not_button in Hb as (H1 & H2 & H3);
  destruct (touched_fields (effective_user update) s) as (Hdb & _);
  unfold handle_message, db_get_history, db_add_message_to_history, generate,
    send_long_message, reply, call; cbv zeta;
  rewrite H1, H2, H3, Hmodel, Hchat, Hread, Hgen, Huser;
  unfold mbind, M_bind, bind, try_except;
  rewrite is_user_on_cooldown_run, Hcool.

Lemma message_answered :
  fault env (OpAddMessage "model") = None ->
  fault env (OpSend (ModelReply (response_text env))) = None ->
  handle_message env update s
  = (Value tt,
     with_trace (fun t => t ++ [Sent (ModelReply (response_text env))])
       (with_database
          (fun db =>
             add_message_to_history (insert_time_model env) (effective_user update) "model"
               (text_part (response_text env))
               (add_message_to_history (insert_time_user env) (effective_user update) "user"
                  (text_part (message_text update)) db))
          (with_trace
             (fun t => t ++ [Logged INFO; ChatAction "typing";
                             HistoryRead (effective_user update);
                             Generate h (UserText (message_text update)) None])
             (with_user_last_request (insert (effective_user update) (time_mark env))
                (touched (effective_user update) s))))).
Proof.
  intros Hstore Hsend. run_exchange. rewrite Hstore.
  cbn. rewrite Hdb, Hh. cbn. rewrite Hsend.
  unfold emit, modify, with_trace, with_database. cbn. rewrite <- !app_assoc. reflexivity.
Qed.

Lemma message_half_stored msg :
  fault env (OpAddMessage "model") = Some (Exception msg) ->
  fault env (OpSend TextFailed) = None ->
  handle_message env update s
  = (Value tt,
     with_trace (fun t => t ++ [Logged ERROR; Sent TextFailed])
       (with_database
          (add_message_to_history (insert_time_user env) (effective_user update) "user"
             (text_part (message_text update)))
          (with_trace
             (fun t => t ++ [Logged INFO; ChatAction "typing";
                             HistoryRead (effective_user update);
                             Generate h (UserText (message_text update)) None])
             (with_user_last_request (insert (effective_user update) (time_mark env))
                (touched (effective_user update) s))))).
Proof.
  intros Hstore Hsend. run_exchange. rewrite Hstore, Hsend.
  cbn. rewrite Hdb, Hh. cbn.
  unfold emit, modify, with_trace, with_database. cbn. rewrite <- !app_assoc. reflexivity.
Qed.

Lemma message_stored_not_delivered msg :
  fault env (OpAddMessage "model") = None ->
  fault env (OpSend (ModelReply (response_text env))) = Some (Exception msg) ->
  fault env (OpSend TextFailed) = None ->
  handle_message env update s
  = (Value tt,
     with_trace (fun t => t ++ [Logged ERROR; Sent TextFailed])
       (with_database
          (fun db =>
             add_message_to_history (insert_time_model env) (effective_user update) "model"
               (text_part (response_text env))
               (add_message_to_history (insert_time_user env) (effective_user update) "user"
                  (text_part (message_text update)) db))
          (with_trace
             (fun t => t ++ [Logged INFO; ChatAction "typing";
                             HistoryRead (effective_user update);
                             Generate h (UserText (message_text update)) None])
             (with_user_last_request (insert (effective_user update) (time_mark env))
                (touched (effective_user update) s))))).
Proof.
  intros Hstore Hsend Hfail. run_exchange. rewrite Hstore, Hfail.
  cbn. rewrite Hdb, Hh. cbn. rewrite Hsend.
  unfold emit, modify, with_trace, with_database. cbn. rewrite <- !app_assoc. reflexivity.
Qed.

End Exchange.

Lemma generations_app t t' : generations (t ++ t') = generations t ++ generations t'.
Proof. apply omap_app. Qed.

Lemma marked_last_seen env uid s :
  last_seen (with_user_last_request (insert uid (time_mark env)) s) uid = time_mark env.
Proof.
  rewrite update_user_timestamp_last_seen. destruct (decide (uid = uid)); congruence.
Qed.



(** X13.  An exchange is stored turn by turn and before the answer is
    sent, and nothing is taken back: if the insert of the model's turn
    raises, the user's turn stays in the history alone; if the sending
    of the answer raises, both turns stay.  In either case the user is
    sent the failure text. *)
Theorem failed_exchange_is_not_rolled_back env update s h msg :
  is_button (message_text update) = false ->
  on_cooldown env s (effective_user update) "text" = false ->
  model_loaded env = true ->
  fault env OpChatAction = None ->
  fault env OpGetHistory = None ->
  get_history (effective_user update) (database s) = Some h ->
  fault env OpGenerate = None ->
  fault env (OpAddMessage "user") = None ->
  fault env (OpSend TextFailed) = None ->
  (fault env (OpAddMessage "model") = Some (Exception msg) ->
   database (handle_message env update s).2
   = add_message_to_history (insert_time_user env) (effective_user update) "user"
       (text_part (message_text update)) (database s)
   /\ last (trace (handle_message env update s).2) = Some (Sent TextFailed))
  /\ (fault env (OpAddMessage "model") = None ->
      fault env (OpSend (ModelReply (response_text env))) = Some (Exception msg) ->
      database (handle_message env update s).2
      = add_message_to_history (insert_time_model env) (effective_user update) "model"
          (text_part (response_text env))
          (add_message_to_history (insert_time_user env) (effective_user update) "user"
             (text_part (message_text update)) (database s))
      /\ last (trace (handle_message env update s).2) = Some (Sent TextFailed)).
Proof.
  intros Hbtn Hcool Hmodel Hchat Hread Hh Hgen Huser Hfail.
  destruct (touched_fields (effective_user update) s) as (Hdb & _).
  split.
  - intros Hstore.
    rewrite (message_half_stored env update s h Hbtn Hcool Hmodel Hchat Hread Hh Hgen Huser
               msg Hstore Hfail).
    cbn [fst snd]. fields. rewrite Hdb. split; [reflexivity |].
    rewrite last_app. reflexivity.
  - intros Hstore Hsend.
    rewrite (message_stored_not_delivered env update s h Hbtn Hcool Hmodel Hchat Hread Hh
               Hgen Huser msg Hstore Hsend Hfail).
    cbn [fst snd]. fields. rewrite Hdb. split; [reflexivity |].
    rewrite last_app. reflexivity.
Qed.

Lemma failed_exchange_is_not_rolled_back_witness :
  map role (history (database (handle_message second_insert_fails hi idle).2)) = ["user"%string]
  /\ last (trace (handle_message second_insert_fails hi idle).2) = Some (Sent TextFailed).
Proof.
  assert (Hbtn : is_button (message_text hi) = false) by (vm_compute; reflexivity).
  assert (Hcool : on_cooldown second_insert_fails idle (effective_user hi) "text" = false)
    by (vm_compute; reflexivity).
  assert (Hh : get_history (effective_user hi) (database idle) = Some [])
    by (vm_compute; reflexivity).
  destruct (failed_exchange_is_not_rolled_back second_insert_fails hi idle []
              "database is locked" Hbtn Hcool eq_refl eq_refl eq_refl Hh eq_refl eq_refl eq_refl)
    as [Hhalf _].
  destruct (Hhalf eq_refl) as [Hdb Hlast].
  split; [rewrite Hdb; reflexivity | exact Hlast].
Defined.

(** *** The failure of the random fact *)

Lemma fact_generate_fails env update s msg :
  on_cooldown env s (effective_user update) "fact" = false ->
  model_loaded env = true ->
  fault env OpChatAction = None ->
  fault env OpGenerate = Some (Exception msg) ->
  fault env (OpSend (if contains "quota" (lower msg) then FactQuota else FactFailed)) = None ->
  random_fact env update s
  = (Value tt,
     with_trace
       (fun t => t ++ [Logged INFO; ChatAction "typing"; Generate [] FactPrompt None;
                       Logged ERROR;
                       Sent (if contains "quota" (lower msg) then FactQuota else FactFailed)])
       (with_user_last_request (insert (effective_user update) (time_mark env))
          (touched (effective_user update) s))).
Proof.
  intros Hcool Hmodel Hchat Hgen Hsend.
  unfold random_fact, generate, reply, call. cbv zeta.
  rewrite Hmodel, Hchat, Hgen.
  unfold mbind, M_bind, bind, try_except. rewrite is_user_on_cooldown_run, Hcool.
  cbn. destruct (contains "quota" (lower msg)); rewrite Hsend;
    unfold emit, modify, with_trace; cbn; rewrite <- !app_assoc; reflexivity.
Qed.

(** X14.  When the inference call of the random fact raises, the user
    is told that the quota of facts is used up if the message of the
    exception holds the word "quota" in any letter case, and otherwise
    that no fact could be made up; no fact is sent. *)
Theorem failed_fact_names_the_quota env update s msg :
  on_cooldown env s (effective_user update) "fact" = false ->
  model_loaded env = true ->
  fault env OpChatAction = None ->
  fault env OpGenerate = Some (Exception msg) ->
  (contains "quota" (lower msg) = true ->
   fault env (OpSend FactQuota) = None ->
   (random_fact env update s).1 = Value tt
   /\ List.filter is_sent (trace (random_fact env update s).2)
      = List.filter is_sent (trace s) ++ [Sent FactQuota])
  /\ (contains "quota" (lower msg) = false ->
      fault env (OpSend FactFailed) = None ->
      (random_fact env update s).1 = Value tt
      /\ List.filter is_sent (trace (random_fact env update s).2)
         = List.filter is_sent (trace s) ++ [Sent FactFailed]).
Proof.
  intros Hcool Hmodel Hchat Hgen.
  destruct (touched_fields (effective_user update) s) as (_ & _ & _ & Htr & _).
  split; intros Hword Hsend;
    (rewrite (fact_generate_fails env update s msg) by (rewrite ?Hword; assumption));
    cbn [fst snd]; fields; rewrite Hword, Htr, List.filter_app; auto.
Qed.

Lemma failed_fact_names_the_quota_witness :
  contains "quota" (lower "429 Quota exceeded for model") = true
  /\ List.filter is_sent (trace (random_fact out_of_quota hi idle).2) = [Sent FactQuota].
Proof.
  assert (Hcool : on_cooldown out_of_quota idle (effective_user hi) "fact" = false)
    by (vm_compute; reflexivity).
  destruct (failed_fact_names_the_quota out_of_quota hi idle "429 Quota exceeded for model"
              Hcool eq_refl eq_refl eq_refl) as [Hquota _].
  split; [reflexivity |].
  exact (proj2 (Hquota eq_refl eq_refl)).
Defined.

(** *** A media message that is too large *)

Lemma same_marks_touched s0 s uid : same_marks s0 s -> same_marks s0 (touched uid s).
Proof. intros H u. rewrite touched_last_seen. apply H. Qed.

Ltac oversized_unmarked s0 :=
  cbv zeta; wp_steps;
  [ intros u; unfold last_seen; fields; apply touched_last_seen
  | apply wp_try_finally
      with (Inv := fun s' => same_marks s0 s' /\ file_path s' = None /\ gemini_file s' = None);
    [ apply wp_try_except
        with (Inv := fun s' => same_marks s0 s' /\ file_path s' = None
                               /\ gemini_file s' = None);
      [ wp_steps; (split; [| split; reflexivity]);
        intros u; unfold last_seen; fields; apply touched_last_seen
      | trivial
      | intros msg s' (Hs' & Hp & Hg); wp_steps;
        (split; [| split; assumption]);
        intros u; unfold last_seen; fields; apply Hs' ]
    | intros s' (Hs' & Hp & Hg); unfold wp; rewrite cleanup_unset by assumption;
      exact Hs' ] ].

(** X15.  A voice message or a video note that is turned away for its
    size does not start the cooldown: whatever else happens, every
    timestamp of the limiter is as it was, so that the same user can send
    a smaller file at once. *)
Theorem oversized_media_does_not_start_the_cooldown env fuel update s :
  MAX_FILE_SIZE < file_size update ->
  same_marks s (handle_voice env fuel update s).2
  /\ same_marks s (handle_video_note env fuel update s).2
  /\ (forall env' cat,
        on_cooldown env' (handle_voice env fuel update s).2 (effective_user update) cat
        = on_cooldown env' s (effective_user update) cat).
Proof.
  intros Hsize. apply size_exceeds in Hsize.
  assert (Hvoice : same_marks s (handle_voice env fuel update s).2).
  { apply (wp_total (handle_voice env fuel update) (same_marks s) s).
    unfold handle_voice. rewrite Hsize. cbn [when]. oversized_unmarked s. }
  assert (Hvideo : same_marks s (handle_video_note env fuel update s).2).
  { apply (wp_total (handle_video_note env fuel update) (same_marks s) s).
    unfold handle_video_note. rewrite Hsize. cbn [when]. oversized_unmarked s. }
  split; [exact Hvoice |]. split; [exact Hvideo |].
  intros env' cat. unfold on_cooldown. rewrite Hvoice. reflexivity.
Qed.

Lemma oversized_media_does_not_start_the_cooldown_witness :
  MAX_FILE_SIZE < file_size oversized
  /\ on_cooldown calm idle 42 "voice" = false
  /\ last_seen (handle_voice calm 5 oversized idle).2 42 = last_seen idle 42.
Proof.
  assert (Hsize : MAX_FILE_SIZE < file_size oversized) by (vm_compute; reflexivity).
  destruct (oversized_media_does_not_start_the_cooldown calm 5 oversized idle Hsize)
    as (Hvoice & _).
  split; [exact Hsize |]. split; [vm_compute; reflexivity | apply Hvoice].
Defined.

(** *** A media message from the upload to the answer *)

(** The run of the polling loop on an asset that leaves [PROCESSING]. *)
Lemma poll_run env interval n : forall k i fuel s,
  gemini_file s = Some {| name := n; state := PROCESSING |} ->
  (forall j, (i <= j < i + k)%nat -> poll_state env j = PROCESSING) ->
  is_processing (poll_state env (i + k)) = false ->
  (forall j, (i <= j <= i + k)%nat -> fault env (OpRemoteGet j) = None) ->
  (k < fuel)%nat ->
  poll env interval i fuel s
  = (Value tt,
     with_gemini_file (Some {| name := n; state := poll_state env (i + k) |})
       (with_trace (fun t => t ++ poll_rounds interval n (S k)) s)).
Proof.
  induction k as [| k IH]; intros i fuel s Hg Hbefore Hlast Hfault Hfuel;
    (destruct fuel as [| fuel]; [lia |]);
    cbn [poll]; unfold mbind, M_bind, bind, get; rewrite Hg; cbn [state is_processing];
    unfold refresh_file, call, mbind, M_bind, bind; rewrite Hfault by lia;
    cbn [emit modify ret name].
  - rewrite Nat.add_0_r in *.
    destruct fuel as [| fuel]; cbn [poll]; unfold mbind, M_bind, bind, get; fields;
      cbn [state]; rewrite Hlast; unfold ret, with_gemini_file, with_trace; cbn;
      rewrite <- !app_assoc; reflexivity.
  - rewrite (IH (S i) fuel);
      [| fields; rewrite Hbefore by lia; reflexivity | | | | lia].
    + replace (S i + k)%nat with (i + S k)%nat by lia.
      unfold with_gemini_file, with_trace. cbn. f_equal. f_equal.
      rewrite <- !app_assoc. reflexivity.
    + intros j Hj. apply Hbefore. lia.
    + replace (S i + k)%nat with (i + S k)%nat by lia. exact Hlast.
    + intros j Hj. apply Hfault. lia.
Qed.

Lemma poll_settles env interval n k st fuel s :
  gemini_file s = Some {| name := n; state := upload_state env |} ->
  settles env k st ->
  is_processing st = false ->
  (forall j, (j < k)%nat -> fault env (OpRemoteGet j) = None) ->
  (k <= fuel)%nat ->
  poll env interval 0 fuel s
  = (Value tt,
     with_gemini_file (Some {| name := n; state := st |})
       (with_trace (fun t => t ++ poll_rounds interval n k) s)).
Proof.
  intros Hg Hk Hst Hfault Hfuel. destruct k as [| k]; cbn [settles] in Hk.
  - rewrite Hk in Hg.
    destruct fuel; cbn [poll]; unfold mbind, M_bind, bind, get; rewrite Hg;
      cbn [state]; rewrite Hst; unfold ret, with_gemini_file, with_trace;
      cbn [poll_rounds]; rewrite app_nil_r; destruct s; cbn in *; rewrite Hg; reflexivity.
  - destruct Hk as (Hup & Hbefore & Hlast). rewrite Hup in Hg.
    rewrite (poll_run env interval n k 0 fuel s Hg).
    + cbn [Nat.add]. rewrite Hlast. reflexivity.
    + intros j Hj. apply Hbefore. lia.
    + cbn [Nat.add]. rewrite Hlast. exact Hst.
    + intros j Hj. apply Hfault. lia.
    + lia.
Qed.

Lemma sent_poll_rounds interval asset n :
  List.filter is_sent (poll_rounds interval asset n) = [].
Proof. induction n as [| n IH]; [reflexivity | exact IH]. Qed.

Lemma generations_poll_rounds interval asset n :
  generations (poll_rounds interval asset n) = [].
Proof. induction n as [| n IH]; [reflexivity | exact IH]. Qed.

(** From the first statement of a media handler to the end of its
    polling loop. *)
Ltac media_to_poll Hcool Hk Hst Hfault Hfuel :=
  unfold download_to_drive, upload_file, send_long_message, reply, call; cbv zeta;
  repeat match goal with
         | H : fault _ _ = None |- _ => rewrite H
         | H : model_loaded _ = true |- _ => rewrite H
         | H : (_ >? _) = false |- _ => rewrite H
         end;
  unfold mbind, M_bind, bind, try_finally, try_except;
  rewrite is_user_on_cooldown_run, Hcool; cbn;
  erewrite poll_settles; [| reflexivity | exact Hk | exact Hst | exact Hfault | exact Hfuel];
  unfold check_failed, mbind, M_bind, bind, get; fields; cbn [state].

(** The [finally] block, once the file and the asset exist. *)
Ltac media_cleanup :=
  unfold cleanup, mbind, M_bind, bind, get, call, emit, modify, when, ret; fields;
  rewrite bool_decide_eq_true_2 by set_solver;
  repeat match goal with H : fault _ _ = None |- _ => rewrite H end;
  fields.

Ltac trace_facts Htr :=
  fields;
  rewrite ?List.filter_app, ?generations_app, ?sleeps_app, ?Htr,
    ?sent_poll_rounds, ?generations_poll_rounds, ?sleeps_poll_rounds;
  cbn; rewrite ?app_nil_r, <- ?app_assoc; try reflexivity.

(** X16.  When the service reports the uploaded file as [FAILED], at
    once or after some polls, the user is sent the failure text of the
    handler, the model is not asked, nothing is stored in the history,
    and the asset is deleted from the service. *)
Theorem failed_asset_is_reported_not_stored env fuel update s k :
  file_size update <= MAX_FILE_SIZE ->
  model_loaded env = true ->
  fault env OpChatAction = None -> fault env OpTelegramGetFile = None ->
  fault env OpMkdir = None -> fault env OpDownload = None -> fault env OpUpload = None ->
  settles env k FAILED ->
  (forall j, (j < k)%nat -> fault env (OpRemoteGet j) = None) ->
  (k <= fuel)%nat ->
  fault env OpUnlink = None -> fault env OpRemoteDelete = None ->
  (on_cooldown env s (effective_user update) "voice" = false ->
   fault env (OpSend VoiceFailed) = None ->
   (handle_voice env fuel update s).1 = Value tt
   /\ database (handle_voice env fuel update s).2 = database s
   /\ generations (trace (handle_voice env fuel update s).2) = generations (trace s)
   /\ List.filter is_sent (trace (handle_voice env fuel update s).2)
      = List.filter is_sent (trace s) ++ [Sent VoiceFailed]
   /\ (asset_name env ∉ remote_files (handle_voice env fuel update s).2))
  /\ (on_cooldown env s (effective_user update) "video" = false ->
      fault env (OpSend VideoReceived) = None ->
      fault env (OpSend VideoFailed) = None ->
      (handle_video_note env fuel update s).1 = Value tt
      /\ database (handle_video_note env fuel update s).2 = database s
      /\ generations (trace (handle_video_note env fuel update s).2) = generations (trace s)
      /\ List.filter is_sent (trace (handle_video_note env fuel update s).2)
         = List.filter is_sent (trace s) ++ [Sent VideoReceived; Sent VideoFailed]
      /\ (asset_name env ∉ remote_files (handle_video_note env fuel update s).2)).
Proof.
  intros Hsize Hmodel Hchat Hget Hmkdir Hdown Hup Hk Hfault Hfuel Hunlink Hdel.
  apply size_within in Hsize.
  destruct (touched_fields (effective_user update) s) as (Hdb & _ & _ & Htr & _).
  assert (Hst : is_processing FAILED = false) by reflexivity.
  split.
  - intros Hcool Hsend.
    assert (Hrun : exists s', handle_voice env fuel update s = (Value tt, s')
              /\ database s' = database s
              /\ generations (trace s') = generations (trace s)
              /\ List.filter is_sent (trace s') = List.filter is_sent (trace s) ++ [Sent VoiceFailed]
              /\ (asset_name env ∉ remote_files s')).
    { eexists. split.
      - unfold handle_voice. media_to_poll Hcool Hk Hst Hfault Hfuel.
        cbn [is_failed when raise]. unfold reply, call, log. rewrite ?Hsend.
        unfold mbind, M_bind, bind, ret, emit, modify.
        media_cleanup. reflexivity.
      - split; [fields; exact Hdb |]. split; [trace_facts Htr |].
        split; [trace_facts Htr |]. fields. cbn [name]. set_solver. }
    destruct Hrun as (s' & -> & Hfacts). cbn [fst snd]. split; [reflexivity | exact Hfacts].
  - intros Hcool Hnote Hsend.
    assert (Hrun : exists s', handle_video_note env fuel update s = (Value tt, s')
              /\ database s' = database s
              /\ generations (trace s') = generations (trace s)
              /\ List.filter is_sent (trace s')
                 = List.filter is_sent (trace s) ++ [Sent VideoReceived; Sent VideoFailed]
              /\ (asset_name env ∉ remote_files s')).
    { eexists. split.
      - unfold handle_video_note. media_to_poll Hcool Hk Hst Hfault Hfuel.
        cbn [is_failed when raise]. unfold reply, call, log. rewrite ?Hsend.
        unfold mbind, M_bind, bind, ret, emit, modify.
        media_cleanup. reflexivity.
      - split; [fields; exact Hdb |]. split; [trace_facts Htr |].
        split; [trace_facts Htr |]. fields. cbn [name]. set_solver. }
    destruct Hrun as (s' & -> & Hfacts). cbn [fst snd]. split; [reflexivity | exact Hfacts].
Qed.

Lemma failed_asset_is_reported_not_stored_witness :
  settles asset_fails 2 FAILED
  /\ List.filter is_sent (trace (handle_voice asset_fails 5 hi idle).2) = [Sent VoiceFailed]
  /\ database (handle_voice asset_fails 5 hi idle).2 = database idle.
Proof.
  assert (Hk : settles asset_fails 2 FAILED).
  { split; [reflexivity |]. split; [| reflexivity].
    intros j Hj. destruct j; [reflexivity | lia]. }
  assert (Hsize : file_size hi <= MAX_FILE_SIZE) by (vm_compute; discriminate).
  assert (Hcool : on_cooldown asset_fails idle (effective_user hi) "voice" = false)
    by (vm_compute; reflexivity).
  destruct (failed_asset_is_reported_not_stored asset_fails 5 hi idle 2 Hsize
              eq_refl eq_refl eq_refl eq_refl eq_refl eq_refl Hk
              (fun j _ => eq_refl) ltac:(lia) eq_refl eq_refl) as [Hvoice _].
  destruct (Hvoice Hcool eq_refl) as (_ & Hdb & _ & Hsent & _).
  split; [exact Hk |]. split; [exact Hsent | exact Hdb].
Defined.



(** * Properties of [send_long_message] *)

Module LongFacts.
Import Json Long.

Lemma lstrip_gap text :
  exists gap, text = gap ++ lstrip text /\ blank gap = true.
Proof.
  induction text as [| c rest IH]; [exists []; split; reflexivity |].
  cbn [lstrip]. destruct (isspace c) eqn:Hc.
  - destruct IH as (gap & Heq & Hgap). exists (c :: gap). split.
    + cbn [app]. f_equal. exact Heq.
    + cbn [blank forallb]. rewrite Hc. exact Hgap.
  - exists []. split; reflexivity.
Qed.

Lemma lstrip_length text : (length (lstrip text) <= length text)%nat.
Proof.
  destruct (lstrip_gap text) as (gap & Heq & _).
  rewrite Heq at 2. rewrite length_app. lia.
Qed.

Lemma lstrip_head text c rest : lstrip text = c :: rest -> isspace c = false.
Proof.
  induction text as [| x text IH]; [discriminate |].
  cbn [lstrip]. destruct (isspace x) eqn:Hx; [exact IH |].
  intros [= <- _]. exact Hx.
Qed.

Lemma lstrip_blank_head c rest :
  isspace c = true -> (length (lstrip (c :: rest)) < length (c :: rest))%nat.
Proof.
  intros Hc. cbn [lstrip length]. rewrite Hc.
  pose proof (lstrip_length rest). lia.
Qed.

(** What [rfind_from] returns: the index it was given, or the index of
    an occurrence of [ch]. *)
Lemma rfind_from_spec ch : forall text i found,
  rfind_from ch text i found = found
  \/ exists k, rfind_from ch text i found = i + Z.of_nat k
               /\ nth_error text k = Some ch.
Proof.
  intros text. induction text as [| c rest IH]; intros i found; cbn [rfind_from];
    [left; reflexivity |].
  destruct (IH (i + 1) (if c =? ch then i else found)) as [Hkeep | (k & Hk & Hnth)].
  - rewrite Hkeep. destruct (Z.eqb_spec c ch) as [-> | _]; [| left; reflexivity].
    right. exists 0%nat. split; [lia | reflexivity].
  - right. exists (S k). split; [lia | exact Hnth].
Qed.

Lemma rfind_spec ch text stop :
  rfind ch text stop = -1
  \/ exists k, rfind ch text stop = Z.of_nat k /\ (k < stop)%nat
               /\ nth_error text k = Some ch.
Proof.
  unfold rfind.
  destruct (rfind_from_spec ch (firstn stop text) 0 (-1)) as [H | (k & Hk & Hnth)];
    [left; exact H |].
  right. exists k. split; [exact Hk |].
  assert (Hlen : (k < length (firstn stop text))%nat)
    by (apply nth_error_Some; congruence).
  rewrite length_firstn in Hlen. split; [lia |].
  rewrite nth_error_firstn in Hnth.
  destruct (Nat.ltb_spec k stop); [exact Hnth | discriminate].
Qed.

(** The cut falls within the first 4096 characters, on a line break or
    a blank unless there is none. *)
Lemma cut_off_spec text :
  cut_off text = Z.of_nat MAX_LENGTH
  \/ exists k c, cut_off text = Z.of_nat k /\ (k < MAX_LENGTH)%nat
                 /\ nth_error text k = Some c /\ isspace c = true.
Proof.
  unfold cut_off. cbv zeta.
  destruct (rfind_spec 10 text MAX_LENGTH) as [H10 | (k & H10 & Hk & Hnth)]; rewrite H10.
  - rewrite Z.eqb_refl.
    destruct (rfind_spec 32 text MAX_LENGTH) as [H32 | (k & H32 & Hk & Hnth)]; rewrite H32.
    + rewrite Z.eqb_refl. left. reflexivity.
    + right. exists k, 32.
      assert (Hne : (Z.of_nat k =? -1) = false) by (apply Z.eqb_neq; lia).
      rewrite !Hne. repeat split; first [assumption | reflexivity].
  - right. exists k, 10.
    assert (Hne : (Z.of_nat k =? -1) = false) by (apply Z.eqb_neq; lia).
    rewrite !Hne. repeat split; first [assumption | reflexivity].
Qed.

Lemma cut_off_bounds text : 0 <= cut_off text <= Z.of_nat MAX_LENGTH.
Proof.
  destruct (cut_off_spec text) as [-> | (k & c & -> & Hk & _)]; lia.
Qed.

(** One round of the loop leaves a shorter text. *)
Lemma round_shortens text :
  (MAX_LENGTH < length text)%nat ->
  (length (lstrip (skipn (Z.to_nat (cut_off text)) text)) < length text)%nat.
Proof.
  intros Hlong.
  destruct (cut_off_spec text) as [-> | (k & c & -> & Hk & Hnth & Hc)].
  - rewrite Nat2Z.id. pose proof (lstrip_length (skipn MAX_LENGTH text)) as H.
    rewrite length_skipn in H. unfold MAX_LENGTH in *. lia.
  - rewrite Nat2Z.id. destruct k as [| k].
    + destruct text as [| x rest]; [discriminate |].
      cbn [nth_error] in Hnth. injection Hnth as ->.
      cbn [skipn]. apply lstrip_blank_head, Hc.
    + pose proof (lstrip_length (skipn (S k) text)) as H.
      rewrite length_skipn in H. lia.
Qed.

(** The loop ends, and what it returns. *)
Lemma parts_spec : forall fuel text,
  (length text <= fuel)%nat ->
  exists pieces gaps,
    parts fuel text = Some pieces
    /\ length gaps = length pieces
    /\ Forall (fun g => blank g = true) gaps
    /\ text = rejoin pieces gaps
    /\ Forall (fun p => (length p <= MAX_LENGTH)%nat) pieces
    /\ (text <> [] -> pieces <> [])
    /\ ((forall c rest, text = c :: rest -> isspace c = false) ->
        Forall (fun p => p <> []) pieces).
Proof.
  induction fuel as [| fuel IH]; intros text Hfuel.
  - destruct text; [| cbn in Hfuel; lia]. exists [], []. cbn.
    split; [reflexivity |]. split; [reflexivity |]. split; [constructor |].
    split; [reflexivity |]. split; [constructor |]. split; [congruence | constructor].
  - cbn [parts].
    destruct (Nat.ltb_spec 0 (length text)) as [Hpos | Hzero].
    + destruct (Nat.leb_spec (length text) MAX_LENGTH) as [Hshort | Hlong].
      * exists [text], [[]]. cbn [rejoin]. rewrite !app_nil_r.
        split; [reflexivity |]. split; [reflexivity |].
        split; [constructor; [reflexivity | constructor] |].
        split; [reflexivity |].
        split; [constructor; [exact Hshort | constructor] |].
        split; [intros _; discriminate |].
        intros _. constructor; [| constructor]. intros ->. cbn in Hpos. lia.
      * set (cut := Z.to_nat (cut_off text)).
        pose proof (round_shortens text Hlong) as Hshorter. fold cut in Hshorter.
        destruct (IH (lstrip (skipn cut text))) as (pieces & gaps & -> & Hlen & Hgaps
                                                    & Hjoin & Hfit & _ & Hfull); [lia |].
        destruct (lstrip_gap (skipn cut text)) as (gap & Hgap & Hblank).
        exists (firstn cut text :: pieces), (gap :: gaps).
        cbn [mbind option_bind length rejoin].
        split; [reflexivity |]. split; [f_equal; exact Hlen |].
        split; [constructor; assumption |].
        split; [rewrite <- Hjoin, <- Hgap; symmetry; apply firstn_skipn |].
        split; [| split].
        -- constructor; [| exact Hfit]. rewrite length_firstn.
           pose proof (cut_off_bounds text). unfold cut. lia.
        -- intros _. discriminate.
        -- intros Hhead. constructor.
           ++ intros Hempty.
              assert (Hcut : cut = 0%nat).
              { apply (f_equal (@length Z)) in Hempty. rewrite length_firstn in Hempty.
                cbn [length] in Hempty. unfold MAX_LENGTH in *. lia. }
              destruct (cut_off_spec text) as [Hmax | (k & c & Hk & _ & Hnth & Hc)].
              ** unfold cut in Hcut. rewrite Hmax, Nat2Z.id in Hcut. discriminate.
              ** unfold cut in Hcut. rewrite Hk, Nat2Z.id in Hcut. subst k.
                 destruct text as [| x rest]; [discriminate |].
                 cbn [nth_error] in Hnth. injection Hnth as ->.
                 rewrite (Hhead c rest eq_refl) in Hc. discriminate.
           ++ apply Hfull. intros c rest Heq. eapply lstrip_head, Heq.
    + destruct text; [| cbn in Hzero; lia]. exists [], []. cbn.
      split; [reflexivity |]. split; [reflexivity |]. split; [constructor |].
      split; [reflexivity |]. split; [constructor |]. split; [congruence | constructor].
Qed.

Lemma send_long_message_long text mode :
  (MAX_LENGTH < length text)%nat ->
  send_long_message text mode
  = pieces ← parts (length text) text;
    Some (map (fun part => {| reply_text := part; parse_mode := Some part |}) pieces).
Proof.
  intros Hlong. unfold send_long_message.
  destruct (Nat.leb_spec (length text) MAX_LENGTH); [lia | reflexivity].
Qed.

Lemma send_long_message_short text mode :
  (length text <= MAX_LENGTH)%nat ->
  send_long_message text mode = Some [{| reply_text := text; parse_mode := mode |}].
Proof.
  intros Hshort. unfold send_long_message.
  destruct (Nat.leb_spec (length text) MAX_LENGTH); [reflexivity | lia].
Qed.

(** X18.  [send_long_message] always comes to an end, and no piece it
    sends is longer than the 4096 characters of one message.  A text
    that fits is sent as it is, in the mode the caller asked for; the
    pieces of a longer text are each sent with the piece itself in the
    place of the mode. *)
Theorem every_piece_fits_one_message text mode :
  exists replies,
    send_long_message text mode = Some replies
    /\ Forall (fun r => (length (reply_text r) <= MAX_LENGTH)%nat) replies
    /\ ((length text <= MAX_LENGTH)%nat ->
        replies = [{| reply_text := text; parse_mode := mode |}])
    /\ ((MAX_LENGTH < length text)%nat ->
        replies <> []
        /\ Forall (fun r => parse_mode r = Some (reply_text r)) replies).
Proof.
  destruct (Nat.leb_spec (length text) MAX_LENGTH) as [Hshort | Hlong].
  - exists [{| reply_text := text; parse_mode := mode |}].
    split; [apply send_long_message_short, Hshort |].
    split; [constructor; [exact Hshort | constructor] |].
    split; [reflexivity | lia].
  - destruct (parts_spec (length text) text (le_n _))
      as (pieces & gaps & Hparts & _ & _ & _ & Hfit & Hsome & _).
    exists (map (fun part => {| reply_text := part; parse_mode := Some part |}) pieces).
    split; [rewrite send_long_message_long, Hparts by exact Hlong; reflexivity |].
    split; [| split; [lia |]].
    + apply Forall_map. exact Hfit.
    + intros _. split.
      * destruct pieces; [| discriminate]. exfalso. apply Hsome; [| reflexivity].
        intros ->. cbn in Hlong. lia.
      * apply Forall_map. apply Forall_forall. reflexivity.
Qed.

(** X19.  The pieces of a text, taken in their order with some white
    space behind each, make up the text: the cuts drop white space and
    nothing else, and nothing is sent twice or out of its place. *)
Theorem pieces_make_up_the_text text mode replies :
  send_long_message text mode = Some replies ->
  exists gaps,
    length gaps = length replies
    /\ Forall (fun g => blank g = true) gaps
    /\ text = rejoin (map reply_text replies) gaps.
Proof.
  intros Hsend.
  destruct (Nat.leb_spec (length text) MAX_LENGTH) as [Hshort | Hlong].
  - rewrite send_long_message_short in Hsend by exact Hshort. injection Hsend as <-.
    exists [[]]. cbn [map rejoin reply_text]. rewrite !app_nil_r.
    split; [reflexivity |]. split; [constructor; [reflexivity | constructor] | reflexivity].
  - destruct (parts_spec (length text) text (le_n _))
      as (pieces & gaps & Hparts & Hlen & Hgaps & Hjoin & _).
    rewrite send_long_message_long, Hparts in Hsend by exact Hlong.
    injection Hsend as <-. exists gaps.
    rewrite length_map, map_map. cbn [reply_text]. rewrite map_id.
    split; [exact Hlen |]. split; [exact Hgaps | exact Hjoin].
Qed.

Lemma pieces_make_up_the_text_witness :
  exists gaps,
    length gaps = 2%nat
    /\ Forall (fun g => blank g = true) gaps
    /\ letters 4000 ++ [32] ++ letters 3000 = rejoin [letters 4000; letters 3000] gaps.
Proof.
  assert (Hsend : send_long_message (letters 4000 ++ [32] ++ letters 3000) None
                  = Some [{| reply_text := letters 4000; parse_mode := Some (letters 4000) |};
                          {| reply_text := letters 3000; parse_mode := Some (letters 3000) |}])
    by (vm_compute; reflexivity).
  exact (pieces_make_up_the_text _ _ _ Hsend).
Defined.

(** X20.  Of the pieces of a long text only the first can be empty,
    and it is empty exactly when the cut falls at the very start, which
    takes a text that begins with a line break or a blank; a text that
    begins with any other character is sent in pieces none of which is
    empty. *)
Theorem only_the_first_piece_can_be_empty text mode replies :
  (MAX_LENGTH < length text)%nat ->
  send_long_message text mode = Some replies ->
  Forall (fun r => reply_text r <> []) (tail replies)
  /\ ((forall c rest, text = c :: rest -> isspace c = false) ->
      Forall (fun r => reply_text r <> []) replies)
  /\ (cut_off text = 0 ->
      exists rest, replies = {| reply_text := []; parse_mode := Some [] |} :: rest).
Proof.
  intros Hlong Hsend.
  rewrite send_long_message_long in Hsend by exact Hlong.
  split; [| split].
  - pose proof (round_shortens text Hlong) as Hshorter.
    destruct (length text) as [| fuel] eqn:Hlen; [lia |].
    cbn [parts] in Hsend. rewrite Hlen in Hsend.
    destruct (Nat.leb_spec (S fuel) MAX_LENGTH); [lia |].
    cbn [Nat.ltb Nat.leb] in Hsend.
    set (cut := Z.to_nat (cut_off text)) in *.
    destruct (parts_spec fuel (lstrip (skipn cut text)))
      as (pieces & gaps & Hparts & _ & _ & _ & _ & _ & Hfull); [lia |].
    rewrite Hparts in Hsend. cbn [mbind option_bind map] in Hsend.
    injection Hsend as <-. cbn [tail]. apply Forall_map. cbn [reply_text].
    apply Hfull. intros c rest Heq. eapply lstrip_head, Heq.
  - intros Hhead.
    destruct (parts_spec (length text) text (le_n _))
      as (pieces & gaps & Hparts & _ & _ & _ & _ & _ & Hfull).
    rewrite Hparts in Hsend. injection Hsend as <-.
    apply Forall_map. cbn [reply_text]. apply Hfull, Hhead.
  - intros Hcut.
    destruct (length text) as [| fuel] eqn:Hlen; [lia |].
    cbn [parts] in Hsend. rewrite Hlen in Hsend.
    destruct (Nat.leb_spec (S fuel) MAX_LENGTH); [lia |].
    cbn [Nat.ltb Nat.leb] in Hsend. rewrite Hcut in Hsend.
    change (Z.to_nat 0) with 0%nat in Hsend.
    change (skipn 0 text) with text in Hsend.
    change (firstn 0 text) with (@nil Z) in Hsend.
    destruct (parts fuel (lstrip text)) as [pieces |]; [| discriminate].
    cbn [mbind option_bind map] in Hsend. injection Hsend as <-.
    eexists. reflexivity.
Qed.

Lemma only_the_first_piece_can_be_empty_witness :
  cut_off ([10] ++ letters 5000) = 0
  /\ send_long_message ([10] ++ letters 5000) None
     = Some [{| reply_text := []; parse_mode := Some [] |};
             {| reply_text := letters 4096; parse_mode := Some (letters 4096) |};
             {| reply_text := letters 904; parse_mode := Some (letters 904) |}]
  /\ Forall (fun r => reply_text r <> [])
        [{| reply_text := letters 4096; parse_mode := Some (letters 4096) |};
         {| reply_text := letters 904; parse_mode := Some (letters 904) |}].
Proof.
  assert (Hlong : (MAX_LENGTH < length ([10%Z] ++ letters 5000))%nat)
    by (vm_compute; lia).
  assert (Hsend : send_long_message ([10] ++ letters 5000) None
                  = Some [{| reply_text := []; parse_mode := Some [] |};
                          {| reply_text := letters 4096; parse_mode := Some (letters 4096) |};
                          {| reply_text := letters 904; parse_mode := Some (letters 904) |}])
    by (vm_compute; reflexivity).
  split; [vm_compute; reflexivity |]. split; [exact Hsend |].
  exact (proj1 (only_the_first_piece_can_be_empty _ _ _ Hlong Hsend)).
Defined.

End LongFacts.

(** * Properties of the remaining handlers *)

Module FrontFacts.
Import Json Db Bot Front.

(** *** Reading a number back from the data of a button *)

Lemma list_ascii_of_string_app a b :
  list_ascii_of_string (a +:+ b) = list_ascii_of_string a ++ list_ascii_of_string b.
Proof.
  induction a as [| c a IH]; [reflexivity |].
  change (String c a +:+ b) with (String c (a +:+ b)).
  cbn [list_ascii_of_string app]. f_equal. exact IH.
Qed.

Lemma digit_not_blank c : is_digit c = true -> is_blank c = false.
Proof.
  intros H. apply is_digit_spec in H. unfold is_blank.
  repeat match goal with
         | |- context [?a <=? ?b] => destruct (Z.leb_spec a b); try lia
         | |- context [?a =? ?b] => destruct (Z.eqb_spec a b); try lia
         end; reflexivity.
Qed.

Lemma scan_decimal_to_digits fuel : forall n acc,
  0 <= n < 2 ^ Z.of_nat fuel ->
  exists k, (k <= fuel)%nat /\ (fuel <> O -> (1 <= k)%nat)
            /\ forall d, scan_decimal (to_digits fuel n acc) 0 d false
                         = scan_decimal acc n (d + k) false.
Proof.
  induction fuel as [| f IH]; intros n acc Hn.
  - cbn in Hn. assert (n = 0) as -> by lia. exists 0%nat.
    split; [lia |]. split; [congruence |]. intros d. rewrite Nat.add_0_r. reflexivity.
  - rewrite Nat2Z.inj_succ, Z.pow_succ_r in Hn by lia.
    cbn [to_digits].
    destruct (digit_char_spec (n mod 10)) as [Hd Hv];
      [apply Z.mod_pos_bound; lia |].
    destruct (Z.ltb_spec n 10) as [Hsmall | Hbig].
    + exists 1%nat. split; [lia |]. split; [lia |]. intros d.
      cbn [scan_decimal]. rewrite Hd, Hv, Z.mod_small by lia.
      f_equal; lia.
    + destruct (IH (n / 10) (digit_char (n mod 10) :: acc)) as (k & Hk & _ & Hscan);
        [Z.div_mod_to_equations; lia |].
      exists (S k). split; [lia |]. split; [lia |]. intros d.
      rewrite Hscan. cbn [scan_decimal]. rewrite Hd, Hv.
      f_equal; [Z.div_mod_to_equations; lia | lia].
Qed.

Lemma last_field_digits acc : forall digits,
  Forall (fun c => is_digit c = true) digits ->
  fold_left (fun field c => if Ascii.eqb c "_" then [] else field ++ [c]) digits acc
  = acc ++ digits.
Proof.
  intros digits. revert acc.
  induction digits as [| c digits IH]; intros acc Hall; cbn [fold_left].
  - rewrite app_nil_r. reflexivity.
  - inversion Hall as [| ? ? Hc Hrest]; subst.
    rewrite (digit_is_not c "_" Hc) by (right; vm_compute; reflexivity).
    rewrite IH by exact Hrest. rewrite <- app_assoc. reflexivity.
Qed.

(** [int] reads back what [str] prints for a number that is not
    negative and fits 64 bits. *)
Lemma int_of_button n :
  0 <= n < 2 ^ 63 ->
  int (last_field ("set_limit_" +:+ str_of_int n)) = Some n.
Proof.
  intros Hn. unfold last_field, str_of_int, encode_int.
  destruct (Z.ltb_spec n 0); [lia |].
  rewrite list_ascii_of_string_app, list_ascii_of_string_of_list_ascii, fold_left_app.
  change (fold_left _ (list_ascii_of_string "set_limit_") []) with (@nil ascii).
  assert (Hall : Forall (fun c => is_digit c = true) (decimal n))
    by (apply to_digits_all; [lia | constructor]).
  rewrite last_field_digits by exact Hall. cbn [app].
  unfold int. rewrite list_ascii_of_string_of_list_ascii.
  destruct (decimal_head n) as (c & t & Heq & Hc); [lia |].
  assert (Hlog : Z.log2 n < 63).
  { destruct (Z.eq_dec n 0) as [-> | Hnz]; [reflexivity |].
    apply Z.log2_lt_pow2; lia. }
  destruct (scan_decimal_to_digits (S (Z.to_nat (Z.log2 n))) n [])
    as (k & Hk & Hpos & Hscan).
  { split; [lia | apply log2_fuel; lia]. }
  fold (decimal n) in Hscan. rewrite Heq in *.
  cbn [skip_blanks]. rewrite (digit_not_blank c Hc).
  rewrite (digit_is_not c "+" Hc) by (left; vm_compute; reflexivity).
  rewrite (digit_is_not c "-" Hc) by (left; vm_compute; reflexivity).
  rewrite (digit_is_not c "_" Hc) by (right; vm_compute; reflexivity).
  rewrite Hscan. cbn [scan_decimal mbind option_bind Nat.add].
  specialize (Hpos ltac:(discriminate)).
  destruct (Nat.eqb_spec k 0); [lia |].
  assert (Hz : (Z.to_nat (Z.log2 n) < 63)%nat) by (pose proof (Z.log2_nonneg n); lia).
  destruct (Nat.ltb_spec MAX_STR_DIGITS k); [unfold MAX_STR_DIGITS in *; lia |].
  reflexivity.
Qed.

(** *** The inline buttons *)

Lemma stored_limit uid n db : get_history_limit uid (set_history_limit uid n db) = n.
Proof.
  unfold get_history_limit, set_history_limit. cbn [user_settings].
  rewrite lookup_insert_eq. reflexivity.
Qed.

Lemma fits_64_bits n : 0 <= n < 2 ^ 63 -> (- 2 ^ 63 <=? n) && (n <? 2 ^ 63) = true.
Proof.
  intros Hn. apply andb_true_intro. split; [apply Z.leb_le | apply Z.ltb_lt]; lia.
Qed.

(** X1.  [db.set_history_limit], called with whatever integer the
    caller holds, stores a limit when it fits 64 bits and only then.  A
    limit that fits is what [get_history_limit] reads for that user from
    then on, whatever was stored before; the limits and the windows of
    the other users and every row of the history stay as they were.  A
    limit that does not fit raises [OverflowError] and nothing is
    stored; nor is anything stored when the call fails for another
    reason. *)
Theorem limit_is_stored_when_it_fits_64_bits env uid limit s :
  (fault env OpSetLimit = None ->
   int64 uid = true ->
   int64 limit = true ->
   (db_set_history_limit env uid limit s).1 = Value tt
   /\ get_history_limit uid (database (core (db_set_history_limit env uid limit s).2))
      = limit
   /\ (forall u, u <> uid ->
         get_history_limit u (database (core (db_set_history_limit env uid limit s).2))
         = get_history_limit u (database (core s)))
   /\ history (database (core (db_set_history_limit env uid limit s).2))
      = history (database (core s))
   /\ (forall u, u <> uid ->
         get_history u (database (core (db_set_history_limit env uid limit s).2))
         = get_history u (database (core s))))
  /\ (fault env OpSetLimit = None ->
      int64 limit = false ->
      db_set_history_limit env uid limit s = (Raised (Exception "OverflowError"), s))
  /\ (forall e,
        fault env OpSetLimit = Some e ->
        db_set_history_limit env uid limit s = (Raised e, s)).
Proof.
  split; [| split].
  - intros Hcall _ Hfit.
    assert (Hrun : db_set_history_limit env uid limit s
                   = (Value tt,
                      {| core := with_database (set_history_limit uid limit) (core s);
                         outputs := outputs s |})).
    { unfold db_set_history_limit, call. unfold int64 in Hfit.
      rewrite Hcall, Hfit. reflexivity. }
    rewrite Hrun. cbn [fst snd core]. fields. split; [reflexivity |].
    split; [apply stored_limit |].
    split; [intros u Hne; apply set_history_limit_other, Hne |].
    split; [reflexivity |].
    intros u Hne. unfold get_history, select_history.
    rewrite set_history_limit_other by exact Hne. reflexivity.
  - intros Hcall Hfit. unfold db_set_history_limit, call. unfold int64 in Hfit.
    rewrite Hcall, Hfit. destruct s. reflexivity.
  - intros e Hcall. unfold db_set_history_limit, call.
    rewrite Hcall. destruct s. reflexivity.
Qed.

Lemma limit_is_stored_when_it_fits_64_bits_witness :
  get_history_limit 42
    (database (core (db_set_history_limit (quiet Examples.calm) 42 (2 ^ 63 - 1)
                       (fresh Examples.recent)).2)) = 2 ^ 63 - 1
  /\ db_set_history_limit (quiet Examples.calm) 42 (2 ^ 63) (fresh Examples.recent)
     = (Raised (Exception "OverflowError"), fresh Examples.recent).
Proof.
  destruct (limit_is_stored_when_it_fits_64_bits (quiet Examples.calm) 42 (2 ^ 63 - 1)
              (fresh Examples.recent)) as (Hfits & _).
  destruct (Hfits eq_refl eq_refl eq_refl) as (_ & Hlimit & _).
  destruct (limit_is_stored_when_it_fits_64_bits (quiet Examples.calm) 42 (2 ^ 63)
              (fresh Examples.recent)) as (_ & Hover & _).
  split; [exact Hlimit | exact (Hover eq_refl eq_refl)].
Defined.

Lemma prefix_button x : String.prefix "set_limit_" ("set_limit_" +:+ x) = true.
Proof.
  change (String.prefix "set_limit_" ("set_limit_" +:+ x)) with (String.prefix "" x).
  destruct x; reflexivity.
Qed.

Lemma limit_button_run env query s n :
  0 <= n < 2 ^ 63 ->
  data query = "set_limit_" +:+ str_of_int n ->
  fault env (OpAnswer None) = None ->
  fault env OpSetLimit = None ->
  fault env (OpAnswer (Some (LimitSet n))) = None ->
  Bot.fault (core_env env) OpGetHistoryLimit = None ->
  Bot.fault (core_env env) (OpSend (SettingsMenu n)) = None ->
  button_callback_handler env query s
  = (Value tt,
     {| core := with_trace (fun t => t ++ [Edited (SettingsMenu n)])
                  (with_user_last_request
                     (insert (from_user query) (time_mark (core_env env)))
                     (with_database (set_history_limit (from_user query) n) (core s)));
        outputs := (outputs s ++ [Answered None]) ++ [Answered (Some (LimitSet n))] |}).
Proof.
  intros Hn Hdata Hfirst Hstore Hsecond Hlimit Hsend.
  unfold button_callback_handler, answer, db_set_history_limit, call. cbv zeta.
  rewrite Hdata, Hfirst, Hstore, int_of_button by exact Hn.
  change (String.eqb ("set_limit_" +:+ str_of_int n) "settings_main_menu") with false.
  change (String.eqb ("set_limit_" +:+ str_of_int n) "settings_limit_menu") with false.
  rewrite prefix_button. cbv iota. rewrite Hsecond, fits_64_bits by exact Hn.
  unfold mbind, M_bind, bind, ret, emit, lift, modify. cbn [core outputs].
  rewrite settings_from_button;
    [ cbn [effective_user update_of database with_database]; rewrite stored_limit;
      reflexivity
    | reflexivity
    | exact Hlimit
    | cbn [effective_user update_of database with_database]; rewrite stored_limit;
      exact Hsend ].
Qed.

(** X21.  The press of a button of the limit menu stores the number
    the button carries as the limit of the user who pressed it and
    shows the settings menu with that number; no row of the history
    changes.  The press is not subject to the cooldown, and it writes
    the timestamp of the user. *)
Theorem limit_button_stores_its_number env query s n :
  0 <= n < 2 ^ 63 ->
  data query = "set_limit_" +:+ str_of_int n ->
  fault env (OpAnswer None) = None ->
  fault env OpSetLimit = None ->
  fault env (OpAnswer (Some (LimitSet n))) = None ->
  Bot.fault (core_env env) OpGetHistoryLimit = None ->
  Bot.fault (core_env env) (OpSend (SettingsMenu n)) = None ->
  (button_callback_handler env query s).1 = Value tt
  /\ get_history_limit (from_user query)
       (database (core (button_callback_handler env query s).2)) = n
  /\ history (database (core (button_callback_handler env query s).2))
     = history (database (core s))
  /\ outputs (button_callback_handler env query s).2
     = outputs s ++ [Answered None; Answered (Some (LimitSet n))]
  /\ trace (core (button_callback_handler env query s).2)
     = trace (core s) ++ [Edited (SettingsMenu n)]
  /\ last_seen (core (button_callback_handler env query s).2) (from_user query)
     = time_mark (core_env env).
Proof.
  intros Hn Hdata Hfirst Hstore Hsecond Hlimit Hsend.
  rewrite (limit_button_run env query s n) by assumption.
  cbn [fst snd core outputs]. split; [reflexivity |]. split; [| split; [| split; [| split]]].
  - fields. apply stored_limit.
  - reflexivity.
  - rewrite <- app_assoc. reflexivity.
  - reflexivity.
  - unfold last_seen. fields. apply marked_last_seen.
Qed.

Lemma limit_button_stores_its_number_witness :
  get_history_limit 42
    (database (core (button_callback_handler (quiet Examples.calm)
                       {| from_user := 42; data := "set_limit_20" |}
                       (fresh Examples.recent)).2)) = 20
  /\ outputs (button_callback_handler (quiet Examples.calm)
                {| from_user := 42; data := "set_limit_20" |} (fresh Examples.recent)).2
     = [Answered None; Answered (Some (LimitSet 20))].
Proof.
  destruct (limit_button_stores_its_number (quiet Examples.calm)
              {| from_user := 42; data := "set_limit_20" |} (fresh Examples.recent) 20
              ltac:(lia) eq_refl eq_refl eq_refl eq_refl eq_refl eq_refl)
    as (_ & Hlimit & _ & Hout & _).
  split; [exact Hlimit | exact Hout].
Defined.

Lemma limit_data_is_no_menu x :
  String.prefix "set_limit_" x = true ->
  String.eqb x "settings_main_menu" = false
  /\ String.eqb x "settings_limit_menu" = false.
Proof.
  intros Hpre. split; apply String.eqb_neq; intros Heq; rewrite Heq in Hpre;
    vm_compute in Hpre; discriminate.
Qed.

Lemma limit_data_run env query s limit :
  String.prefix "set_limit_" (data query) = true ->
  int (last_field (data query)) = Some limit ->
  - 2 ^ 63 <= limit < 2 ^ 63 ->
  fault env (OpAnswer None) = None ->
  fault env OpSetLimit = None ->
  fault env (OpAnswer (Some (LimitSet limit))) = None ->
  Bot.fault (core_env env) OpGetHistoryLimit = None ->
  Bot.fault (core_env env) (OpSend (SettingsMenu limit)) = None ->
  button_callback_handler env query s
  = (Value tt,
     {| core := with_trace (fun t => t ++ [Edited (SettingsMenu limit)])
                  (with_user_last_request
                     (insert (from_user query) (time_mark (core_env env)))
                     (with_database (set_history_limit (from_user query) limit) (core s)));
        outputs := (outputs s ++ [Answered None]) ++ [Answered (Some (LimitSet limit))] |}).
Proof.
  intros Hpre Hint Hfit Hfirst Hstore Hsecond Hlimit Hsend.
  destruct (limit_data_is_no_menu _ Hpre) as [H1 H2].
  assert (Hfits : (- 2 ^ 63 <=? limit) && (limit <? 2 ^ 63) = true).
  { apply andb_true_intro. split; [apply Z.leb_le | apply Z.ltb_lt]; lia. }
  unfold button_callback_handler, answer, db_set_history_limit, call. cbv zeta.
  rewrite Hfirst, H1, H2, Hpre, Hint, Hstore, Hsecond, Hfits.
  unfold mbind, M_bind, bind, ret, emit, lift, modify. cbn [core outputs].
  rewrite settings_from_button;
    [ cbn [effective_user update_of database with_database]; rewrite stored_limit;
      reflexivity
    | reflexivity
    | exact Hlimit
    | cbn [effective_user update_of database with_database]; rewrite stored_limit;
      exact Hsend ].
Qed.

(** X22.  The handler of the inline buttons does not hold callback data
    against the buttons the menus offer.  Data that begins like a limit
    button stores whatever integer of 64 bits its last field reads as,
    offered by the menu or not and negative or not, announces it and
    shows the menu with it.  When the last field is not an integer the
    handler raises [ValueError], when the integer does not fit 64 bits
    the insert raises [OverflowError], and data that neither begins
    like a limit button nor is one of the four other commands is passed
    over: in these three cases the press was acknowledged, and the
    database and the timestamps stay as they were. *)
Theorem button_data_is_not_checked_against_the_menu env query s :
  fault env (OpAnswer None) = None ->
  fault env OpSetLimit = None ->
  (forall limit,
     String.prefix "set_limit_" (data query) = true ->
     int (last_field (data query)) = Some limit ->
     - 2 ^ 63 <= limit < 2 ^ 63 ->
     int64 (from_user query) = true ->
     fault env (OpAnswer (Some (LimitSet limit))) = None ->
     Bot.fault (core_env env) OpGetHistoryLimit = None ->
     Bot.fault (core_env env) (OpSend (SettingsMenu limit)) = None ->
     (button_callback_handler env query s).1 = Value tt
     /\ get_history_limit (from_user query)
          (database (core (button_callback_handler env query s).2)) = limit
     /\ history (database (core (button_callback_handler env query s).2))
        = history (database (core s))
     /\ outputs (button_callback_handler env query s).2
        = outputs s ++ [Answered None; Answered (Some (LimitSet limit))]
     /\ trace (core (button_callback_handler env query s).2)
        = trace (core s) ++ [Edited (SettingsMenu limit)]
     /\ last_seen (core (button_callback_handler env query s).2) (from_user query)
        = time_mark (core_env env))
  /\ (String.prefix "set_limit_" (data query) = true ->
      int (last_field (data query)) = None ->
      button_callback_handler env query s
      = (Raised (Exception "ValueError"),
         {| core := core s; outputs := outputs s ++ [Answered None] |}))
  /\ (forall limit,
        String.prefix "set_limit_" (data query) = true ->
        int (last_field (data query)) = Some limit ->
        2 ^ 63 <= limit \/ limit < - 2 ^ 63 ->
        button_callback_handler env query s
        = (Raised (Exception "OverflowError"),
           {| core := core s; outputs := outputs s ++ [Answered None] |}))
  /\ (String.prefix "set_limit_" (data query) = false ->
      data query <> "settings_main_menu"%string ->
      data query <> "settings_limit_menu"%string ->
      data query <> "settings_clear"%string ->
      data query <> "settings_close"%string ->
      button_callback_handler env query s
      = (Value tt, {| core := core s; outputs := outputs s ++ [Answered None] |})).
Proof.
  intros Hfirst Hstore.
  split; [| split; [| split]].
  - intros limit Hpre Hint Hfit _ Hsecond Hlimit Hsend.
    rewrite (limit_data_run env query s limit) by assumption.
    cbn [fst snd core outputs]. split; [reflexivity |].
    split; [| split; [| split; [| split]]].
    + fields. apply stored_limit.
    + reflexivity.
    + rewrite <- app_assoc. reflexivity.
    + reflexivity.
    + unfold last_seen. fields. apply marked_last_seen.
  - intros Hpre Hint. destruct (limit_data_is_no_menu _ Hpre) as [H1 H2].
    unfold button_callback_handler, answer, call. cbv zeta.
    rewrite Hfirst, H1, H2, Hpre, Hint. reflexivity.
  - intros limit Hpre Hint Hbig. destruct (limit_data_is_no_menu _ Hpre) as [H1 H2].
    unfold button_callback_handler, answer, db_set_history_limit, call. cbv zeta.
    rewrite Hfirst, H1, H2, Hpre, Hint, Hstore.
    assert (Hfit : (- 2 ^ 63 <=? limit) && (limit <? 2 ^ 63) = false).
    { apply andb_false_iff. destruct Hbig; [right; apply Z.ltb_ge | left; apply Z.leb_gt]; lia. }
    rewrite Hfit. reflexivity.
  - intros Hpre H1 H2 H3 H4.
    apply String.eqb_neq in H1, H2, H3, H4.
    unfold button_callback_handler, answer, call. cbv zeta.
    rewrite Hfirst, H1, H2, Hpre, H3, H4. reflexivity.
Qed.

Lemma button_data_is_not_checked_against_the_menu_witness :
  int (last_field "set_limit_-5") = Some (-5)
  /\ get_history_limit 42
       (database (core (button_callback_handler (quiet Examples.calm)
                          {| from_user := 42; data := "set_limit_-5" |}
                          (fresh Examples.recent)).2)) = -5
  /\ int (last_field "set_limit_many") = None
  /\ button_callback_handler (quiet Examples.calm)
       {| from_user := 42; data := "set_limit_many" |} (fresh Examples.recent)
     = (Raised (Exception "ValueError"),
        {| core := Examples.recent; outputs := [Answered None] |}).
Proof.
  destruct (button_data_is_not_checked_against_the_menu (quiet Examples.calm)
              {| from_user := 42; data := "set_limit_-5" |} (fresh Examples.recent)
              eq_refl eq_refl) as (Hstored & _).
  destruct (Hstored (-5) eq_refl eq_refl ltac:(lia) eq_refl eq_refl eq_refl eq_refl)
    as (_ & Hlimit & _).
  destruct (button_data_is_not_checked_against_the_menu (quiet Examples.calm)
              {| from_user := 42; data := "set_limit_many" |} (fresh Examples.recent)
              eq_refl eq_refl) as (_ & Hbad & _).
  split; [reflexivity |]. split; [exact Hlimit |].
  split; [reflexivity | exact (Hbad eq_refl eq_refl)].
Defined.

(** X23.  A change asked for by a button is made before it is
    announced, and it is not taken back: if the alert that follows the
    storing of a limit or the clearing of the history raises, the
    handler ends with that exception, the menu is not refreshed, and the
    limit is stored, or the history cleared, all the same. *)
Theorem change_is_made_before_it_is_announced env query s e :
  fault env (OpAnswer None) = None ->
  (forall n,
     0 <= n < 2 ^ 63 ->
     data query = "set_limit_" +:+ str_of_int n ->
     fault env OpSetLimit = None ->
     fault env (OpAnswer (Some (LimitSet n))) = Some e ->
     button_callback_handler env query s
     = (Raised e,
        {| core := with_database (set_history_limit (from_user query) n) (core s);
           outputs := outputs s ++ [Answered None] |}))
  /\ (data query = "settings_clear"%string ->
      fault env OpClearHistory = None ->
      fault env (OpAnswer (Some HistoryCleared)) = Some e ->
      button_callback_handler env query s
      = (Raised e,
         {| core := with_database (clear_history (from_user query)) (core s);
            outputs := outputs s ++ [Answered None] |})).
Proof.
  intros Hfirst. split.
  - intros n Hn Hdata Hstore Hsecond.
    unfold button_callback_handler, answer, db_set_history_limit, call. cbv zeta.
    rewrite Hdata, Hfirst, Hstore, int_of_button by exact Hn.
    change (String.eqb ("set_limit_" +:+ str_of_int n) "settings_main_menu") with false.
    change (String.eqb ("set_limit_" +:+ str_of_int n) "settings_limit_menu") with false.
    rewrite prefix_button. cbv iota. rewrite Hsecond, fits_64_bits by exact Hn.
    reflexivity.
  - intros Hdata Hclear Hsecond.
    unfold button_callback_handler, answer, db_clear_history, call. cbv zeta.
    rewrite Hdata, Hfirst, Hclear, Hsecond. reflexivity.
Qed.

Lemma change_is_made_before_it_is_announced_witness :
  (button_callback_handler (alert_fails Examples.calm)
     {| from_user := 42; data := "settings_clear" |} (fresh Scenarios.two_users)).1
  = Raised (Exception "Query is too old")
  /\ where_user 42
       (history (database (core (button_callback_handler (alert_fails Examples.calm)
                                   {| from_user := 42; data := "settings_clear" |}
                                   (fresh Scenarios.two_users)).2))) = [].
Proof.
  destruct (change_is_made_before_it_is_announced (alert_fails Examples.calm)
              {| from_user := 42; data := "settings_clear" |}
              (fresh Scenarios.two_users) (Exception "Query is too old") eq_refl)
    as [_ Hclear].
  rewrite (Hclear eq_refl eq_refl eq_refl).
  split; reflexivity.
Defined.

Lemma clear_button_run env query s :
  data query = "settings_clear"%string ->
  fault env (OpAnswer None) = None ->
  fault env OpClearHistory = None ->
  fault env (OpAnswer (Some HistoryCleared)) = None ->
  fault env (OpEditText ClearedNote) = None ->
  button_callback_handler env query s
  = (Value tt,
     {| core := with_database (clear_history (from_user query)) (core s);
        outputs := outputs s ++ [Answered None; Answered (Some HistoryCleared);
                                 EditedText ClearedNote] |}).
Proof.
  intros Hdata Hfirst Hclear Hsecond Hedit.
  unfold button_callback_handler, answer, db_clear_history, edit_message_text, call.
  cbv zeta. rewrite Hdata, Hfirst, Hclear, Hsecond, Hedit.
  unfold mbind, M_bind, bind, ret, emit, lift, modify. cbn.
  rewrite <- !app_assoc. reflexivity.
Qed.

Lemma start_run env user s :
  fault env OpClearHistory = None ->
  fault env (OpReply Greeting) = None ->
  start env user s
  = (Value tt,
     {| core := with_trace (fun t => t ++ [Logged INFO])
                  (with_database (clear_history user) (core s));
        outputs := outputs s ++ [Replied Greeting] |}).
Proof.
  intros Hclear Hreply. unfold start, db_clear_history, reply, call.
  rewrite Hclear, Hreply. reflexivity.
Qed.

(** X24.  The clearing of a history, by its button or by [/start],
    leaves the user with an empty window and touches nobody else: the
    windows of the other users, every limit and every timestamp of the
    limiter are as they were.  Neither is subject to a cooldown. *)
Theorem cleared_by_button_or_start env query user s :
  fault env OpClearHistory = None ->
  (data query = "settings_clear"%string ->
   fault env (OpAnswer None) = None ->
   fault env (OpAnswer (Some HistoryCleared)) = None ->
   fault env (OpEditText ClearedNote) = None ->
   (button_callback_handler env query s).1 = Value tt
   /\ outputs (button_callback_handler env query s).2
      = outputs s ++ [Answered None; Answered (Some HistoryCleared);
                      EditedText ClearedNote]
   /\ get_history (from_user query)
        (database (core (button_callback_handler env query s).2)) = Some []
   /\ (forall u, u <> from_user query ->
         get_history u (database (core (button_callback_handler env query s).2))
         = get_history u (database (core s)))
   /\ (forall u, get_history_limit u
                   (database (core (button_callback_handler env query s).2))
                 = get_history_limit u (database (core s)))
   /\ (forall u, last_seen (core (button_callback_handler env query s).2) u
                 = last_seen (core s) u))
  /\ (fault env (OpReply Greeting) = None ->
      (start env user s).1 = Value tt
      /\ outputs (start env user s).2 = outputs s ++ [Replied Greeting]
      /\ get_history user (database (core (start env user s).2)) = Some []
      /\ (forall u, u <> user ->
            get_history u (database (core (start env user s).2))
            = get_history u (database (core s)))
      /\ (forall u, get_history_limit u (database (core (start env user s).2))
                    = get_history_limit u (database (core s)))
      /\ (forall u, last_seen (core (start env user s).2) u = last_seen (core s) u)).
Proof.
  intros Hclear. split.
  - intros Hdata Hfirst Hsecond Hedit. rewrite clear_button_run by assumption.
    cbn [fst snd core outputs]. fields.
    split; [reflexivity |]. split; [reflexivity |].
    split; [apply get_history_cleared |].
    split; [intros u Hne; apply get_history_other_cleared, Hne |].
    split; reflexivity.
  - intros Hreply. rewrite start_run by assumption.
    cbn [fst snd core outputs]. fields.
    split; [reflexivity |]. split; [reflexivity |].
    split; [apply get_history_cleared |].
    split; [intros u Hne; apply get_history_other_cleared, Hne |].
    split; reflexivity.
Qed.

Lemma cleared_by_button_or_start_witness :
  get_history 42 (database (core (start (quiet Examples.calm) 42
                                    (fresh Scenarios.two_users)).2)) = Some []
  /\ get_history 7 (database (core (start (quiet Examples.calm) 42
                                      (fresh Scenarios.two_users)).2))
     = get_history 7 (database Scenarios.two_users).
Proof.
  destruct (cleared_by_button_or_start (quiet Examples.calm)
              {| from_user := 42; data := "settings_clear" |} 42
              (fresh Scenarios.two_users) eq_refl) as (_ & Hstart).
  destruct (Hstart eq_refl) as (_ & _ & Hown & Hother & _).
  split; [exact Hown | apply Hother; discriminate].
Defined.

(** *** Photos *)

Lemma photo_answered env photo s h prompt log_prompt :
  on_cooldown (core_env env) (core s) (sender photo) "photo" = false ->
  photo_size photo <= MAX_FILE_SIZE ->
  model_loaded (core_env env) = true ->
  prompts (caption photo) = (prompt, log_prompt) ->
  Bot.fault (core_env env) OpChatAction = None ->
  Bot.fault (core_env env) OpTelegramGetFile = None ->
  fault env OpDownloadBytes = None ->
  fault env OpImageOpen = None ->
  Bot.fault (core_env env) OpGetHistory = None ->
  get_history (sender photo) (database (core s)) = Some h ->
  Bot.fault (core_env env) OpGenerate = None ->
  Bot.fault (core_env env) (OpAddMessage "user") = None ->
  Bot.fault (core_env env) (OpAddMessage "model") = None ->
  Bot.fault (core_env env) (OpSend (ModelReply (response_text (core_env env)))) = None ->
  handle_photo env photo s
  = (Value tt,
     {| core :=
          with_trace (fun t => t ++ [Sent (ModelReply (response_text (core_env env)))])
            (with_database
               (fun db =>
                  add_message_to_history (insert_time_model (core_env env)) (sender photo)
                    "model" (text_part (response_text (core_env env)))
                    (add_message_to_history (insert_time_user (core_env env)) (sender photo)
                       "user" (text_part log_prompt) db))
               (with_trace
                  (fun t => t ++ [Logged INFO; ChatAction "typing"; TelegramGetFile;
                                  HistoryRead (sender photo)])
                  (with_user_last_request
                     (insert (sender photo) (time_mark (core_env env)))
                     (touched (sender photo) (core s)))));
        outputs := outputs s ++ [DownloadedBytes; AskedWithImage h prompt] |}).
Proof.
  intros Hcool Hsize Hmodel Hprompts Hchat Hget Hbytes Himage Hread Hh Hgen Huser Hstore Hsend.
  assert (Hsz : (photo_size photo >? MAX_FILE_SIZE) = false)
    by (rewrite Z.gtb_ltb; apply Z.ltb_ge; exact Hsize).
  destruct (touched_fields (sender photo) (core s)) as (Hdb & _).
  unfold handle_photo, generate_with_image, db_get_history, db_add_message_to_history,
    send_long_message, Bot.reply, call, Bot.call. cbv zeta.
  rewrite Hsz, Hmodel, Hprompts, Hchat, Hget, Hbytes, Himage, Hread, Hgen, Huser, Hstore.
  unfold mbind, M_bind, bind, Bot.M_bind, Bot.bind, try_except, lift.
  rewrite is_user_on_cooldown_run, Hcool. cbn. rewrite Hdb, Hh. cbn. rewrite Hsend.
  unfold Bot.emit, Bot.modify, with_trace, with_database. cbn.
  rewrite <- !app_assoc. reflexivity.
Qed.

(** X25.  A photo is put to the model with its caption set inside a
    fixed frame of instructions, while the turn kept in the history for
    the user is the caption alone; for a photo with no caption, or an
    empty one, the default question is both put to the model and kept
    in the history as the user's turn. *)
Theorem photo_caption_is_the_stored_turn env photo s h :
  on_cooldown (core_env env) (core s) (sender photo) "photo" = false ->
  photo_size photo <= MAX_FILE_SIZE ->
  model_loaded (core_env env) = true ->
  Bot.fault (core_env env) OpChatAction = None ->
  Bot.fault (core_env env) OpTelegramGetFile = None ->
  fault env OpDownloadBytes = None ->
  fault env OpImageOpen = None ->
  Bot.fault (core_env env) OpGetHistory = None ->
  get_history (sender photo) (database (core s)) = Some h ->
  Bot.fault (core_env env) OpGenerate = None ->
  Bot.fault (core_env env) (OpAddMessage "user") = None ->
  Bot.fault (core_env env) (OpAddMessage "model") = None ->
  Bot.fault (core_env env) (OpSend (ModelReply (response_text (core_env env)))) = None ->
  (handle_photo env photo s).1 = Value tt
  /\ (forall c rest,
        caption photo = Some (c :: rest) ->
        outputs (handle_photo env photo s).2
        = outputs s ++ [DownloadedBytes;
                        AskedWithImage h (PROMPT_HEAD ++ (c :: rest) ++ PROMPT_TAIL)]
        /\ database (core (handle_photo env photo s).2)
           = add_message_to_history (insert_time_model (core_env env)) (sender photo)
               "model" (text_part (response_text (core_env env)))
               (add_message_to_history (insert_time_user (core_env env)) (sender photo)
                  "user" (text_part (c :: rest)) (database (core s))))
  /\ (truthy (caption photo) = false ->
      outputs (handle_photo env photo s).2
      = outputs s ++ [DownloadedBytes; AskedWithImage h DEFAULT_PROMPT]
      /\ database (core (handle_photo env photo s).2)
         = add_message_to_history (insert_time_model (core_env env)) (sender photo)
             "model" (text_part (response_text (core_env env)))
             (add_message_to_history (insert_time_user (core_env env)) (sender photo)
                "user" (text_part DEFAULT_PROMPT) (database (core s)))).
Proof.
  intros Hcool Hsize Hmodel Hchat Hget Hbytes Himage Hread Hh Hgen Huser Hstore Hsend.
  destruct (touched_fields (sender photo) (core s)) as (Hdb & _).
  destruct (prompts (caption photo)) as [prompt log_prompt] eqn:Hprompts.
  rewrite (photo_answered env photo s h prompt log_prompt) by assumption.
  cbn [fst snd core outputs]. fields. rewrite Hdb.
  split; [reflexivity |]. split.
  - intros c rest Hcap. rewrite Hcap in Hprompts. cbn [prompts] in Hprompts.
    injection Hprompts as <- <-. split; reflexivity.
  - intros Hnone.
    assert (Hdefault : (prompt, log_prompt) = (DEFAULT_PROMPT, DEFAULT_PROMPT)).
    { rewrite <- Hprompts. destruct (caption photo) as [[| c rest] |];
        [reflexivity | discriminate | reflexivity]. }
    injection Hdefault as -> ->. split; reflexivity.
Qed.

Lemma photo_caption_is_the_stored_turn_witness :
  outputs (handle_photo (quiet Examples.calm)
             {| sender := 42; photo_size := 300000; caption := Some (str "what is this?") |}
             (fresh Examples.idle)).2
  = [DownloadedBytes;
     AskedWithImage [] (PROMPT_HEAD ++ str "what is this?" ++ PROMPT_TAIL)]
  /\ map parts
       (history (database (core (handle_photo (quiet Examples.calm)
                                   {| sender := 42; photo_size := 300000;
                                      caption := Some (str "what is this?") |}
                                   (fresh Examples.idle)).2)))
     = [dumps (text_part (str "what is this?")); dumps (text_part (str "hello"))].
Proof.
  assert (Hcool : on_cooldown (core_env (quiet Examples.calm)) (core (fresh Examples.idle))
                    42 "photo" = false) by (vm_compute; reflexivity).
  assert (Hsize : 300000 <= MAX_FILE_SIZE) by (vm_compute; discriminate).
  assert (Hh : get_history 42 (database (core (fresh Examples.idle))) = Some [])
    by (vm_compute; reflexivity).
  destruct (photo_caption_is_the_stored_turn (quiet Examples.calm)
              {| sender := 42; photo_size := 300000; caption := Some (str "what is this?") |}
              (fresh Examples.idle) [] Hcool Hsize eq_refl eq_refl eq_refl eq_refl eq_refl
              eq_refl Hh eq_refl eq_refl eq_refl eq_refl) as (_ & Hcap & _).
  destruct (Hcap _ _ eq_refl) as [Hout Hdb].
  split; [exact Hout |]. rewrite Hdb. reflexivity.
Defined.

Lemma photo_not_opened env photo s msg :
  on_cooldown (core_env env) (core s) (sender photo) "photo" = false ->
  photo_size photo <= MAX_FILE_SIZE ->
  model_loaded (core_env env) = true ->
  Bot.fault (core_env env) OpChatAction = None ->
  Bot.fault (core_env env) OpTelegramGetFile = None ->
  fault env OpDownloadBytes = None ->
  fault env OpImageOpen = Some (Exception msg) ->
  fault env (OpReply PhotoFailed) = None ->
  handle_photo env photo s
  = (Value tt,
     {| core :=
          with_trace
            (fun t => t ++ [Logged INFO; ChatAction "typing"; TelegramGetFile; Logged ERROR])
            (with_user_last_request
               (insert (sender photo) (time_mark (core_env env)))
               (touched (sender photo) (core s)));
        outputs := outputs s ++ [DownloadedBytes; Replied PhotoFailed] |}).
Proof.
  intros Hcool Hsize Hmodel Hchat Hget Hbytes Himage Hreply.
  assert (Hsz : (photo_size photo >? MAX_FILE_SIZE) = false)
    by (rewrite Z.gtb_ltb; apply Z.ltb_ge; exact Hsize).
  unfold handle_photo, reply, call, Bot.call. cbv zeta.
  rewrite Hsz, Hmodel, Hchat, Hget, Hbytes, Himage, Hreply.
  destruct (prompts (caption photo)) as [prompt log_prompt].
  unfold mbind, M_bind, bind, Bot.M_bind, Bot.bind, try_except, lift.
  rewrite is_user_on_cooldown_run, Hcool. cbn.
  unfold Bot.emit, Bot.modify, with_trace, emit, ret. cbn.
  rewrite <- !app_assoc. reflexivity.
Qed.

Lemma photo_too_large env photo s :
  on_cooldown (core_env env) (core s) (sender photo) "photo" = false ->
  MAX_FILE_SIZE < photo_size photo ->
  fault env (OpReply PhotoTooLarge) = None ->
  handle_photo env photo s
  = (Returned,
     {| core := touched (sender photo) (core s);
        outputs := outputs s ++ [Replied PhotoTooLarge] |}).
Proof.
  intros Hcool Hsize Hreply.
  assert (Hsz : (photo_size photo >? MAX_FILE_SIZE) = true) by (apply Z.gtb_lt; exact Hsize).
  unfold handle_photo, reply, call. cbv zeta. rewrite Hsz, Hreply.
  unfold mbind, M_bind, bind, try_except, lift.
  rewrite is_user_on_cooldown_run, Hcool. reflexivity.
Qed.

(** X26.  A photo of more than twenty mebibytes is turned away with
    the text for it before anything is fetched, and the timestamp of the
    sender is not written.  A photo that is fetched but cannot be opened
    as an image is answered with the failure text; the model is not
    asked and nothing is stored, but the timestamp of the sender is
    written, so that the cooldown of ten seconds runs. *)
Theorem unusable_photo_is_reported_not_stored env photo s :
  on_cooldown (core_env env) (core s) (sender photo) "photo" = false ->
  (MAX_FILE_SIZE < photo_size photo ->
   fault env (OpReply PhotoTooLarge) = None ->
   (handle_photo env photo s).1 = Returned
   /\ outputs (handle_photo env photo s).2 = outputs s ++ [Replied PhotoTooLarge]
   /\ database (core (handle_photo env photo s).2) = database (core s)
   /\ trace (core (handle_photo env photo s).2) = trace (core s)
   /\ forall u, last_seen (core (handle_photo env photo s).2) u = last_seen (core s) u)
  /\ (forall msg,
        photo_size photo <= MAX_FILE_SIZE ->
        model_loaded (core_env env) = true ->
        Bot.fault (core_env env) OpChatAction = None ->
        Bot.fault (core_env env) OpTelegramGetFile = None ->
        fault env OpDownloadBytes = None ->
        fault env OpImageOpen = Some (Exception msg) ->
        fault env (OpReply PhotoFailed) = None ->
        (handle_photo env photo s).1 = Value tt
        /\ outputs (handle_photo env photo s).2
           = outputs s ++ [DownloadedBytes; Replied PhotoFailed]
        /\ database (core (handle_photo env photo s).2) = database (core s)
        /\ last_seen (core (handle_photo env photo s).2) (sender photo)
           = time_mark (core_env env))
  /\ cooldown_of "photo" = 10.
Proof.
  intros Hcool.
  destruct (touched_fields (sender photo) (core s)) as (Hdb & _ & _ & Htr & _).
  split; [| split].
  - intros Hsize Hreply. rewrite photo_too_large by assumption.
    cbn [fst snd core outputs]. rewrite Hdb, Htr.
    split; [reflexivity |]. split; [reflexivity |]. split; [reflexivity |].
    split; [reflexivity |]. intros u. apply touched_last_seen.
  - intros msg Hsize Hmodel Hchat Hget Hbytes Himage Hreply.
    rewrite (photo_not_opened env photo s msg) by assumption.
    cbn [fst snd core outputs]. split; [reflexivity |]. split; [reflexivity |].
    split; [fields; exact Hdb |]. unfold last_seen. fields. apply marked_last_seen.
  - reflexivity.
Qed.

Lemma unusable_photo_is_reported_not_stored_witness :
  on_cooldown (core_env (quiet Examples.calm)) (core (fresh Examples.idle)) 42 "photo" = false
  /\ outputs (handle_photo (quiet Examples.calm)
                {| sender := 42; photo_size := 21 * 1024 * 1024; caption := None |}
                (fresh Examples.idle)).2 = [Replied PhotoTooLarge].
Proof.
  assert (Hcool : on_cooldown (core_env (quiet Examples.calm)) (core (fresh Examples.idle))
                    42 "photo" = false) by (vm_compute; reflexivity).
  destruct (unusable_photo_is_reported_not_stored (quiet Examples.calm)
              {| sender := 42; photo_size := 21 * 1024 * 1024; caption := None |}
              (fresh Examples.idle) Hcool) as (Hlarge & _).
  split; [exact Hcool |].
  refine (proj1 (proj2 (Hlarge _ eq_refl))). vm_compute. reflexivity.
Defined.

End FrontFacts.
